(** * form-data: serialising a field mapping to an HTTP request body

    A shallow embedding of [index.js]: the query-string branch of
    [serializeFormData] and the [FormDataStream] class (a Node [Readable]
    whose [_read] frames one field per production cycle).

    Conventions of the embedding.
    - A JavaScript string is represented by the bytes of its UTF-8 encoding
      (a Rocq [string]); a [Buffer] by its bytes.
    - An [async] method is a coroutine: the part it runs before its first
      pending [await] is a function on the object state, and what remains is
      kept in the [task] field and resumed by an event.
    - What Node supplies and the source only calls is a parameter:
      [randomBytes], the value [push] hands back, and whatever the free
      identifier [basename] resolves to: the source calls it without
      defining or importing it, and in Node, which has no such global, the
      call throws a ReferenceError ([Sample.basename]).
    - Of the [Readable] base class the embedding keeps what [push] and
      [destroy] do to the stream: [pushed] and [ended] hold what the
      stream delivers downstream, the chunks and the end-of-stream marker
      the base class accepted; it accepts neither once the stream is
      destroyed. *)

From Stdlib Require Import Bool Arith Lia List String Ascii DecimalString.
Import ListNotations.
Open Scope list_scope.
Open Scope string_scope.

(** ** JavaScript values *)

#[local] Set Warnings "-register-all".

Inductive JsVal : Type :=
| VUndefined
| VNull
| VBool (b : bool)
| VStr (s : string)
| VBuffer (bytes : string)
| VReadable (id : nat) (path : option string)
| VArray (items : list JsVal)
| VObject (props : list (string * JsVal)).

Inductive JsError : Type :=
| AssertionError                 (* assert(file) failed *)
| TypeError (msg : string)       (* property access on null or undefined *)
| ReferenceError (msg : string)  (* an identifier that is bound nowhere *)
| Error (msg : string)           (* new Error(msg) *)
| ERR_INVALID_ARG_TYPE (chunk : JsVal)  (* push of a chunk that is no string or Buffer *)
| ERR_STREAM_PUSH_AFTER_EOF      (* push of a chunk after push(null) *)
| Thrown (reason : JsVal).       (* a reason handed in from outside *)

Inductive Result (A : Type) : Type :=
| Ok (a : A)
| Throw (e : JsError).
Arguments Ok {A} a.
Arguments Throw {A} e.

Definition dquote : string := String (ascii_of_nat 34) EmptyString.
Definition lineBreak : string :=
  String (ascii_of_nat 13) (String (ascii_of_nat 10) EmptyString).
Definition defaultContentType : string := "text/plain".
Definition defaultStreamContentType : string := "application/octet-stream".

Definition nonempty (s : string) : bool :=
  match s with EmptyString => false | String _ _ => true end.

(** ToBoolean. *)
Definition truthy (v : JsVal) : bool :=
  match v with
  | VUndefined | VNull => false
  | VBool b => b
  | VStr s => nonempty s
  | VBuffer _ | VReadable _ _ | VArray _ | VObject _ => true
  end.

(** [a || b]. *)
Definition js_or (a b : JsVal) : JsVal := if truthy a then a else b.

Definition is_nullish (v : JsVal) : bool :=
  match v with VUndefined | VNull => true | _ => false end.

Fixpoint lookup (key : string) (props : list (string * JsVal)) : JsVal :=
  match props with
  | [] => VUndefined
  | (k, v) :: rest => if String.eqb k key then v else lookup key rest
  end.

(** [v.key] for the keys the source reads ([source], [filename],
    [contentType], [path]) on a value that is neither null nor undefined. *)
Definition prop (v : JsVal) (key : string) : JsVal :=
  match v with
  | VObject props => lookup key props
  | VReadable _ (Some p) => if String.eqb key "path" then VStr p else VUndefined
  | _ => VUndefined
  end.

(** [v instanceof Readable]. *)
Definition instanceof_Readable (v : JsVal) : bool :=
  match v with VReadable _ _ => true | _ => false end.

Definition isArray (v : JsVal) : bool :=
  match v with VArray _ => true | _ => false end.

(** The test [if (file.length)] of [streamFileField]: the number of UTF-16
    units of a string, of bytes of a Buffer, of items of an array, or
    whatever an object stores under [length]. *)
Definition has_length (file : JsVal) : bool :=
  match file with
  | VStr s => nonempty s
  | VBuffer b => nonempty b
  | VArray l => match l with [] => false | _ :: _ => true end
  | VObject props => truthy (lookup "length" props)
  | _ => false
  end.

Definition in_range (lo hi n : nat) : bool := Nat.leb lo n && Nat.leb n hi.

(** U+FFFD in UTF-8. *)
Definition replacement : string :=
  String (ascii_of_nat 239) (String (ascii_of_nat 191)
    (String (ascii_of_nat 189) EmptyString)).

(** [buffer.toString()]: the bytes decoded as UTF-8. Strings being kept
    as their UTF-8 bytes, a well-formed sequence is copied and every
    maximal ill-formed part becomes U+FFFD. [needed] continuation bytes
    of the sequence [seq] are still expected, the next one between [lo]
    and [hi]. *)
Fixpoint utf8_decode (needed lo hi : nat) (seq bytes : string) : string :=
  match bytes with
  | EmptyString =>
      match needed with 0 => EmptyString | S _ => replacement end
  | String c r =>
      let n := nat_of_ascii c in
      let lead : string :=
        if Nat.leb n 127 then String c (utf8_decode 0 128 191 EmptyString r)
        else if in_range 194 223 n then
          utf8_decode 1 128 191 (String c EmptyString) r
        else if in_range 224 239 n then
          utf8_decode 2 (if Nat.eqb n 224 then 160 else 128)
                      (if Nat.eqb n 237 then 159 else 191)
                      (String c EmptyString) r
        else if in_range 240 244 n then
          utf8_decode 3 (if Nat.eqb n 240 then 144 else 128)
                      (if Nat.eqb n 244 then 143 else 191)
                      (String c EmptyString) r
        else replacement ++ utf8_decode 0 128 191 EmptyString r in
      match needed with
      | 0 => lead
      | S m =>
          if in_range lo hi n then
            match m with
            | 0 => seq ++ String c (utf8_decode 0 128 191 EmptyString r)
            | S _ => utf8_decode m 128 191 (seq ++ String c EmptyString) r
            end
          else replacement ++ lead
      end
  end.

Definition Buffer_toString (bytes : string) : string :=
  utf8_decode 0 128 191 EmptyString bytes.

(** ToString, as template literals and [encodeURIComponent] apply it. *)
Fixpoint ToString (v : JsVal) : string :=
  match v with
  | VUndefined => "undefined"
  | VNull => "null"
  | VBool true => "true"
  | VBool false => "false"
  | VStr s => s
  | VBuffer b => Buffer_toString b
  | VReadable _ _ => "[object Object]"
  | VObject _ => "[object Object]"
  | VArray l =>
      (fix join (l : list JsVal) : string :=
         match l with
         | [] => EmptyString
         | x :: rest =>
             let sx := match x with
                       | VUndefined | VNull => EmptyString
                       | _ => ToString x
                       end in
             match rest with
             | [] => sx
             | _ :: _ => sx ++ "," ++ join rest
             end
         end) l
  end.

(** ** encodeURIComponent *)

Fixpoint mem_ascii (c : ascii) (s : string) : bool :=
  match s with
  | EmptyString => false
  | String d r => Ascii.eqb c d || mem_ascii c r
  end.

Definition unreserved (c : ascii) : bool :=
  let n := nat_of_ascii c in
  in_range 65 90 n || in_range 97 122 n || in_range 48 57 n
  || mem_ascii c "-_.!~*'()".

Definition hex_digit (n : nat) : ascii :=
  match String.get n "0123456789ABCDEF" with
  | Some c => c
  | None => "0"%char
  end.

Definition percent (c : ascii) : string :=
  let n := nat_of_ascii c in
  String "%" (String (hex_digit (n / 16)) (String (hex_digit (n mod 16)) EmptyString)).

Fixpoint encodeURIComponent (s : string) : string :=
  match s with
  | EmptyString => EmptyString
  | String c r =>
      (if unreserved c then String c EmptyString else percent c)
      ++ encodeURIComponent r
  end.

(** ** Array.prototype.join on an array of strings *)

Fixpoint js_join (sep : string) (l : list string) : string :=
  match l with
  | [] => EmptyString
  | [x] => x
  | x :: rest => x ++ sep ++ js_join sep rest
  end.

(** ** The object state of a [FormDataStream] *)

(** Where [readNext] continues once [streamFileField] has returned: at
    the test of line 116, or inside the loop over the items of an array. *)
Inductive Cont : Type :=
| AfterField
| InList (name subBoundary : string) (filenameIndex : nat) (rest : list JsVal).

(** The production coroutine ([readNext] and what it awaits). *)
Inductive Task : Type :=
| Settled                           (* none in flight: the promise is fulfilled *)
| Rejected (e : JsError)            (* the promise [_read] returned is rejected *)
| Ret (k : Cont)                    (* [streamFileField] returned, [readNext] resumes at [k] *)
| WaitEvent (id : nat) (k : Cont)   (* [readStream] waits for readable, end or error *)
| AfterEvent (id : nat) (k : Cont)  (* that promise is fulfilled, line 221 runs next *)
| Reading (id : nat) (k : Cont)     (* [stream.read()] of line 223 runs next *)
| WaitResume (id : nat) (k : Cont)  (* [streamFileField] waits on [onceResume] *)
| Drained (k : Cont).               (* the generator is done, line 205 runs next *)

(** [this[kOnceResume]]: absent, an object whose promise is pending, or
    one whose promise [_destroy] rejected. *)
Inductive Waiter : Type :=
| NoWaiter
| Pending
| WRejected (e : JsError).

(** An upstream [Readable]: the chunks successive [read()] calls return
    (a byte stream buffers no empty chunk, so they are non-empty in Node),
    and its [readable] property. *)
Record Source : Type := mkSource {
  avail : list string;
  readable : bool
}.

Record FormDataStream : Type := mkStream {
  iterator : list (string * JsVal);
  boundary : string;
  kReading : bool;
  kReadNext : bool;
  kOnceResume : Waiter;
  kChunkBuffer : string;
  (* the part of the Readable base class that push and destroy reach: the
     chunks and the end-of-stream marker accepted for delivery, and whether
     the stream is destroyed *)
  pushed : list JsVal;
  ended : bool;
  destroyed : bool;
  (* the environment *)
  nboundaries : nat;
  sources : nat -> Source;
  pulled : nat;
  (* the coroutine *)
  task : Task
}.

Definition set_iterator v s := mkStream v (boundary s) (kReading s) (kReadNext s) (kOnceResume s) (kChunkBuffer s) (pushed s) (ended s) (destroyed s) (nboundaries s) (sources s) (pulled s) (task s).
Definition set_kReading v s := mkStream (iterator s) (boundary s) v (kReadNext s) (kOnceResume s) (kChunkBuffer s) (pushed s) (ended s) (destroyed s) (nboundaries s) (sources s) (pulled s) (task s).
Definition set_kReadNext v s := mkStream (iterator s) (boundary s) (kReading s) v (kOnceResume s) (kChunkBuffer s) (pushed s) (ended s) (destroyed s) (nboundaries s) (sources s) (pulled s) (task s).
Definition set_kOnceResume v s := mkStream (iterator s) (boundary s) (kReading s) (kReadNext s) v (kChunkBuffer s) (pushed s) (ended s) (destroyed s) (nboundaries s) (sources s) (pulled s) (task s).
Definition set_kChunkBuffer v s := mkStream (iterator s) (boundary s) (kReading s) (kReadNext s) (kOnceResume s) v (pushed s) (ended s) (destroyed s) (nboundaries s) (sources s) (pulled s) (task s).
Definition set_pushed v s := mkStream (iterator s) (boundary s) (kReading s) (kReadNext s) (kOnceResume s) (kChunkBuffer s) v (ended s) (destroyed s) (nboundaries s) (sources s) (pulled s) (task s).
Definition set_ended v s := mkStream (iterator s) (boundary s) (kReading s) (kReadNext s) (kOnceResume s) (kChunkBuffer s) (pushed s) v (destroyed s) (nboundaries s) (sources s) (pulled s) (task s).
Definition set_destroyed v s := mkStream (iterator s) (boundary s) (kReading s) (kReadNext s) (kOnceResume s) (kChunkBuffer s) (pushed s) (ended s) v (nboundaries s) (sources s) (pulled s) (task s).
Definition set_nboundaries v s := mkStream (iterator s) (boundary s) (kReading s) (kReadNext s) (kOnceResume s) (kChunkBuffer s) (pushed s) (ended s) (destroyed s) v (sources s) (pulled s) (task s).
Definition set_sources v s := mkStream (iterator s) (boundary s) (kReading s) (kReadNext s) (kOnceResume s) (kChunkBuffer s) (pushed s) (ended s) (destroyed s) (nboundaries s) v (pulled s) (task s).
Definition set_pulled v s := mkStream (iterator s) (boundary s) (kReading s) (kReadNext s) (kOnceResume s) (kChunkBuffer s) (pushed s) (ended s) (destroyed s) (nboundaries s) (sources s) v (task s).
Definition set_task v s := mkStream (iterator s) (boundary s) (kReading s) (kReadNext s) (kOnceResume s) (kChunkBuffer s) (pushed s) (ended s) (destroyed s) (nboundaries s) (sources s) (pulled s) v.

Definition upd (f : nat -> Source) (id : nat) (x : Source) : nat -> Source :=
  fun j => if Nat.eqb j id then x else f j.

(** What the environment does to the stream: the Readable base class
    calls [_read] or [_destroy], the microtask that resumes the coroutine
    runs, or an upstream source buffers chunks and emits readable, or
    emits end or error. *)
Inductive Event : Type :=
| Pull
| Tick
| Destroy (err : JsVal)
| SrcReadable (id : nat) (chunks : list string)
| SrcEnd (id : nat)
| SrcError (id : nat) (err : JsVal).

(** The bytes of a chunk delivered downstream. *)
Definition chunk_bytes (c : JsVal) : string :=
  match c with
  | VStr s => s
  | VBuffer b => b
  | _ => EmptyString
  end.

Definition body_bytes (s : FormDataStream) : string :=
  String.concat EmptyString (map chunk_bytes (pushed s)).

Definition decimal (n : nat) : string :=
  DecimalString.NilZero.string_of_uint (Nat.to_uint n).

(** ** The methods of [FormDataStream] *)

Section Methods.

(** [rand n]: what the [n]-th call [randomBytes(20).toString("base64")]
    returns. *)
Variable rand : nat -> string.
(** [full n]: whether the push that delivers chunk number [n] reports the
    downstream buffer as full (returns [false]). *)
Variable full : nat -> bool.
(** The free identifier [basename] of lines 62 and 88. *)
Variable basename : JsVal -> Result JsVal.

(** [generateBoundary], at the [n]-th draw of random bytes. *)
Definition generateBoundary (n : nat) : string :=
  "----------------" ++ rand n.

(** The coroutine ends by an exception that nothing in the class
    catches: the promise [_read] returned is rejected. *)
Definition reject (e : JsError) (s : FormDataStream) : FormDataStream :=
  set_task (Rejected e) s.

(** [_destroy], called by the base class once it marked the stream
    destroyed. *)
Definition _destroy (err : JsError) (s : FormDataStream) : FormDataStream :=
  let s := set_destroyed true s in
  match kOnceResume s with
  | Pending =>
      let s := set_kOnceResume (WRejected err) s in
      match task s with
      | WaitResume _ _ => reject err s
      | _ => s
      end
  | _ => s
  end.

(** A chunk the base class takes when not in object mode. *)
Definition is_chunk (chunk : JsVal) : bool :=
  match chunk with
  | VStr _ | VBuffer _ => true
  | _ => false
  end.

(** [errorOrDestroy(stream, err)] of the base class: [destroy(err)],
    which does nothing to a stream that is destroyed already. *)
Definition errorOrDestroy (err : JsError) (s : FormDataStream) : FormDataStream :=
  if destroyed s then s else _destroy err s.

(** [this.push(chunk)] for a chunk other than [null]. The base class
    refuses a chunk that is neither a string nor a Buffer, and any chunk
    after end-of-stream, and destroys the stream with the error; a
    destroyed stream takes no chunk. Otherwise the chunk is appended to
    the buffer, and the answer tells whether more may be pushed. The
    source reads the answer at line 200 only; for a refused chunk it is
    [false] after end-of-stream or destruction, and taken as [false] here
    for a chunk of the wrong type. *)
Definition push (chunk : JsVal) (s : FormDataStream) : FormDataStream * bool :=
  if negb (is_chunk chunk) then (errorOrDestroy (ERR_INVALID_ARG_TYPE chunk) s, false)
  else if ended s then (errorOrDestroy ERR_STREAM_PUSH_AFTER_EOF s, false)
  else if destroyed s then (s, false)
  else (set_pushed (pushed s ++ [chunk])%list s, negb (full (List.length (pushed s)))).

(** [this.push(null)]: end-of-stream, which a destroyed stream does not
    deliver any more. *)
Definition push_null (s : FormDataStream) : FormDataStream :=
  if destroyed s then s else set_ended true s.

Definition pushChunk (chunk : string) (s : FormDataStream) : FormDataStream :=
  set_kChunkBuffer (kChunkBuffer s ++ chunk) s.

Definition flushChunks (s : FormDataStream) : FormDataStream :=
  set_kChunkBuffer EmptyString (fst (push (VStr (kChunkBuffer s)) s)).

(** [readStream], from the test of its outer [while]. *)
Definition readStream (id : nat) (k : Cont) (s : FormDataStream) : FormDataStream :=
  if readable (sources s id) then set_task (WaitEvent id k) s
  else set_task (Drained k) s.

(** [streamFileField], up to its first pending [await]. *)
Definition streamFileField (file contentType : JsVal) (k : Cont)
    (s : FormDataStream) : FormDataStream :=
  if negb (truthy file) then reject AssertionError s
  else if has_length file then
    let s := pushChunk ("Content-Type: "
               ++ ToString (js_or contentType (VStr defaultContentType))) s in
    let s := pushChunk (lineBreak ++ lineBreak) s in
    let s := flushChunks s in
    let s := fst (push file s) in
    let s := fst (push (VStr lineBreak) s) in
    set_task (Ret k) s
  else
    match file with
    | VReadable id _ =>
        let s := pushChunk ("Content-Type: "
                   ++ ToString (js_or contentType (VStr defaultStreamContentType))) s in
        let s := pushChunk (lineBreak ++ lineBreak) s in
        let s := flushChunks s in
        readStream id k s
    | _ => reject (Error ("Received non-Readable stream " ++ ToString file)) s
    end.

(** [onceResume], awaited by [streamFileField] at line 201. *)
Definition onceResume (id : nat) (k : Cont) (s : FormDataStream) : FormDataStream :=
  match kOnceResume s with
  | NoWaiter => set_task (WaitResume id k) (set_kOnceResume Pending s)
  | Pending => set_task (WaitResume id k) s
  | WRejected e => reject e s
  end.

(** One turn of the inner loop of [readStream] and of the body of the
    [for await] of [streamFileField]: read a chunk, push it, and wait for
    a resume if the push reported a full buffer. *)
Definition readChunk (id : nat) (k : Cont) (s : FormDataStream) : FormDataStream :=
  match avail (sources s id) with
  | [] => readStream id k s
  | chunk :: rest =>
      let s := set_sources
                 (upd (sources s) id (mkSource rest (readable (sources s id)))) s in
      let s := set_pulled (S (pulled s)) s in
      let (s, more) := push (VBuffer chunk) s in
      if more then set_task (Reading id k) s else onceResume id k s
  end.

(** The filename of line 62: [content.filename], else the [basename] of
    [content.path] or of the empty string, else [name]. *)
Definition filename_of (content : JsVal) (name : string) : Result JsVal :=
  if truthy (prop content "filename") then Ok (prop content "filename")
  else
    match basename (js_or (prop content "path") (VStr EmptyString)) with
    | Ok b => Ok (js_or b (VStr name))
    | Throw e => Throw e
    end.

Definition disposition (kind : string) (filename : JsVal) : string :=
  kind ++ dquote ++ encodeURIComponent (ToString filename) ++ dquote.

(** The loop of lines 83 to 109, from its head: frames the next item up
    to the [await] of its [streamFileField], or closes the nested part.
    The flag tells whether the loop was left (line 116 is next). *)
Definition list_loop (name subBoundary : string) (filenameIndex : nat)
    (items : list JsVal) (s : FormDataStream) : FormDataStream * bool :=
  match items with
  | [] =>
      let s := pushChunk ("--" ++ subBoundary ++ "--") s in
      (pushChunk lineBreak s, true)
  | file :: rest =>
      let s := pushChunk ("--" ++ subBoundary) s in
      let s := pushChunk lineBreak s in
      let generated := VStr (name ++ "-" ++ decimal filenameIndex) in
      if instanceof_Readable file then
        match basename (js_or (prop file "path") (VStr EmptyString)) with
        | Throw e => (reject e s, false)
        | Ok b =>
            let filename := js_or b generated in
            let index := if truthy b then filenameIndex else S filenameIndex in
            let s := pushChunk
                       (disposition "Content-Disposition: file; filename=" filename) s in
            let s := pushChunk lineBreak s in
            (streamFileField file VUndefined (InList name subBoundary index rest) s,
             false)
        end
      else if is_nullish file then (reject (TypeError "filename") s, false)
      else
        let filename := js_or (prop file "filename") generated in
        let index := if truthy (prop file "filename")
                     then filenameIndex else S filenameIndex in
        let s := pushChunk
                   (disposition "Content-Disposition: file; filename=" filename) s in
        let s := pushChunk lineBreak s in
        (streamFileField (prop file "source") (prop file "contentType")
           (InList name subBoundary index rest) s,
         false)
  end.

(** Lines 53 to 114 for one entry, up to the first pending [await]. *)
Definition frame_entry (name : string) (content : JsVal)
    (s : FormDataStream) : FormDataStream * bool :=
  let s := pushChunk ("--" ++ boundary s) s in
  let s := pushChunk lineBreak s in
  let s := pushChunk ("Content-Disposition: form-data; name="
                      ++ dquote ++ encodeURIComponent name ++ dquote) s in
  if is_nullish content then (reject (TypeError "source") s, false)
  else if instanceof_Readable content || truthy (prop content "source") then
    let source := js_or (prop content "source") content in
    match filename_of content name with
    | Throw e => (reject e s, false)
    | Ok filename =>
        let s := pushChunk (disposition "; filename=" filename) s in
        let s := pushChunk lineBreak s in
        (streamFileField source (prop content "contentType") AfterField s, false)
    end
  else
    let s := pushChunk lineBreak s in
    match content with
    | VArray items =>
        let subBoundary := generateBoundary (nboundaries s) in
        let s := set_nboundaries (S (nboundaries s)) s in
        let s := pushChunk ("Content-Type: multipart/mixed; boundary="
                            ++ subBoundary) s in
        let s := pushChunk (lineBreak ++ lineBreak) s in
        list_loop name subBoundary 0 items s
    | _ => (streamFileField content VUndefined AfterField s, false)
    end.

(** The exhausted iterator, lines 47 to 51. *)
Definition finish (s : FormDataStream) : FormDataStream :=
  let s := fst (push (VStr ("--" ++ boundary s ++ "--")) s) in
  let s := set_kReading false s in
  set_task Settled (push_null s).

(** Lines 118 to 120: no further cycle was asked for. *)
Definition idle (s : FormDataStream) : FormDataStream :=
  set_task Settled (set_kReading false s).

(** [readNext] on the entries [it] that the iterator still holds. A
    cycle that meets no pending [await] (an empty array) reaches line 116
    in the same call, where [readNext] may call itself. *)
Fixpoint readNext_from (it : list (string * JsVal)) (s : FormDataStream)
    : FormDataStream :=
  let s := set_kReading true s in
  match it with
  | [] => finish s
  | (name, content) :: it' =>
      let (s, left) := frame_entry name content (set_iterator it' s) in
      if left then
        if kReadNext s then readNext_from it' s else idle s
      else s
  end.

Definition readNext (s : FormDataStream) : FormDataStream :=
  readNext_from (iterator s) s.

(** Lines 116 to 120, reached when the coroutine is resumed. *)
Definition after_field (s : FormDataStream) : FormDataStream :=
  if kReadNext s then readNext s else idle s.

(** [readNext] resumed after an awaited [streamFileField] returned. *)
Definition resume (k : Cont) (s : FormDataStream) : FormDataStream :=
  match k with
  | AfterField => after_field s
  | InList name subBoundary filenameIndex rest =>
      let (s, left) := list_loop name subBoundary filenameIndex rest s in
      if left then after_field s else s
  end.

(** [_read]. *)
Definition _read (s : FormDataStream) : FormDataStream :=
  if kReading s then
    match kOnceResume s with
    | NoWaiter => set_kReadNext true s
    | Pending =>
        let s := set_kOnceResume NoWaiter s in
        match task s with
        | WaitResume id k => set_task (Reading id k) s
        | _ => s
        end
    | WRejected _ => set_kOnceResume NoWaiter s
    end
  else readNext s.

(** The microtask that resumes the coroutine. *)
Definition tick (s : FormDataStream) : FormDataStream :=
  match task s with
  | Ret k => resume k s
  | AfterEvent id k =>
      if readable (sources s id) then readChunk id k s
      else set_task (Drained k) s
  | Reading id k => readChunk id k s
  | Drained k => set_task (Ret k) (fst (push (VStr lineBreak) s))
  | Settled | Rejected _ | WaitEvent _ _ | WaitResume _ _ => s
  end.

(** An event of upstream source [id] reaches the listeners of line 212
    when the generator waits on that source. *)
Definition notify (id : nat) (next : nat -> Cont -> Task)
    (s : FormDataStream) : FormDataStream :=
  match task s with
  | WaitEvent id' k => if Nat.eqb id' id then set_task (next id' k) s else s
  | _ => s
  end.

Definition step (e : Event) (s : FormDataStream) : FormDataStream :=
  match e with
  | Pull => _read s
  | Tick => tick s
  | Destroy err => _destroy (Thrown err) s
  | SrcReadable id chunks =>
      let src := sources s id in
      notify id AfterEvent
        (set_sources (upd (sources s) id
                        (mkSource (avail src ++ chunks)%list (readable src))) s)
  | SrcEnd id =>
      notify id AfterEvent
        (set_sources (upd (sources s) id (mkSource (avail (sources s id)) false)) s)
  | SrcError id err =>
      notify id (fun _ _ => Rejected (Thrown err))
        (set_sources (upd (sources s) id (mkSource (avail (sources s id)) false)) s)
  end.

Fixpoint run (evs : list Event) (s : FormDataStream) : FormDataStream :=
  match evs with
  | [] => s
  | e :: rest => run rest (step e s)
  end.

(** ** serializeFormData *)

(** The object handed to [serializeFormData]: its [type] property and
    the entries its iteration yields, in order. *)
Record FormData : Type := mkFormData {
  fd_type : JsVal;
  entries : list (string * JsVal)
}.

Inductive Body : Type :=
| BodyString (s : string)
| BodyStream (s : FormDataStream).

Record Serialized : Type := mkSerialized {
  body : Body;
  content_type : string;     (* headers["Content-Type"] *)
  warned : bool              (* console.warn was called *)
}.

(** [new FormDataStream(iterator)], over upstream sources [srcs]. *)
Definition new_FormDataStream (it : list (string * JsVal))
    (srcs : nat -> Source) : FormDataStream :=
  mkStream it (generateBoundary 0) false false NoWaiter EmptyString
           [] false false 1 srcs 0 Settled.

(** The loop of lines 265 to 267. *)
Fixpoint urlencoded_loop (it : list (string * JsVal)) (result : list string)
    : list string :=
  match it with
  | [] => result
  | (key, value) :: it' =>
      urlencoded_loop it'
        (result ++ [(encodeURIComponent key ++ "="
                     ++ encodeURIComponent (ToString value))%string])%list
  end.

Definition urlencoded (formData : FormData) (warn : bool) : Serialized :=
  mkSerialized
    (BodyString (js_join "&" (urlencoded_loop (entries formData) [])))
    "application/x-www-form-urlencoded; charset=UTF-8"
    warn.

Definition jsval_is (v : JsVal) (s : string) : bool :=
  match v with VStr t => String.eqb t s | _ => false end.

Definition serializeFormData (formData : FormData) (type : JsVal)
    (srcs : nat -> Source) : Serialized :=
  let type := match type with VUndefined => fd_type formData | t => t end in
  if jsval_is type "multipart/form-data" then
    let formDataStream := new_FormDataStream (entries formData) srcs in
    mkSerialized (BodyStream formDataStream)
      ("multipart/form-data; boundary=" ++ boundary formDataStream
       ++ "; charset=UTF-8")
      false
  else if jsval_is type "application/x-www-form-urlencoded" then
    urlencoded formData false
  else urlencoded formData (truthy type).

End Methods.

(** ** The query string in the words of the specification *)

(** [key1=value1&key2=value2&...], key and value percent-encoded, in the
    order of the pairs. *)
Definition spec_query_string (pairs : list (string * string)) : string :=
  String.concat "&"
    (map (fun kv => encodeURIComponent (fst kv) ++ "=" ++ encodeURIComponent (snd kv))
         pairs).

(** A field mapping whose values are all text. *)
Definition text_entries (pairs : list (string * string)) : list (string * JsVal) :=
  map (fun kv => (fst kv, VStr (snd kv))) pairs.

Definition urlencoded_type : JsVal := VStr "application/x-www-form-urlencoded".
Definition multipart_type : JsVal := VStr "multipart/form-data".

(** ** Concrete inputs *)

Module Sample.

Definition rand (n : nat) : string :=
  match n with
  | 0 => "q83vEjRWeJASNFZ4mrze8BI0VniQ"
  | _ => "mHZUMhBDUmeHmKq83vEjRWeJASM="
  end.

Definition never_full (n : nat) : bool := false.
Definition always_full (n : nat) : bool := true.

(** The free identifier [basename] in Node: the module neither defines
    nor imports it and Node has no such global, so evaluating the call
    throws before anything else happens. *)
Definition basename (p : JsVal) : Result JsVal :=
  Throw (ReferenceError "basename is not defined").

(** Upstream sources that have buffered nothing yet. *)
Definition fresh : nat -> Source := fun _ => mkSource [] true.

Definition abc_file : JsVal :=
  VObject [("source", VBuffer "abc"); ("filename", VStr "f.txt");
           ("contentType", VStr "text/plain")].

Definition top : string := generateBoundary rand 0.
Definition nested : string := generateBoundary rand 1.

End Sample.


(** ** The multipart body in the words of the specification *)

(** One field frame of a named source: delimiter, disposition with
    filename, content type, blank line, payload, line break. *)
Definition spec_file_frame (boundary name filename type payload : string) : string :=
  "--" ++ boundary ++ lineBreak
  ++ "Content-Disposition: form-data; name=" ++ dquote ++ name ++ dquote
  ++ "; filename=" ++ dquote ++ filename ++ dquote ++ lineBreak
  ++ "Content-Type: " ++ type ++ lineBreak
  ++ lineBreak
  ++ payload ++ lineBreak.

Definition spec_closing (boundary : string) : string :=
  "--" ++ boundary ++ "--".

(** The header block of such a frame, which [flushChunks] pushes as one
    chunk before the payload. *)
Definition spec_file_header (boundary name filename type : string) : string :=
  "--" ++ boundary ++ lineBreak
  ++ "Content-Disposition: form-data; name=" ++ dquote ++ name ++ dquote
  ++ "; filename=" ++ dquote ++ filename ++ dquote ++ lineBreak
  ++ "Content-Type: " ++ type ++ lineBreak
  ++ lineBreak.

(** The states the stream over the single entry [file: abc_file] passes
    through: idle before the first pull, the frame pushed and the
    coroutine about to resume, idle after the frame, ended. *)
Definition abc_frame (B : string) : list JsVal :=
  [VStr (spec_file_header B "file" "f.txt" "text/plain"); VBuffer "abc"; VStr lineBreak].

Definition abc_live (B : string) (s : FormDataStream) : Prop :=
  kOnceResume s = NoWaiter /\ kChunkBuffer s = EmptyString /\ boundary s = B /\
  ((iterator s = [("file", Sample.abc_file)] /\ pushed s = [] /\ kReading s = false
    /\ task s = Settled /\ ended s = false)
   \/ (iterator s = [] /\ pushed s = abc_frame B /\ kReading s = true
       /\ task s = Ret AfterField /\ ended s = false)
   \/ (iterator s = [] /\ pushed s = abc_frame B /\ kReading s = false
       /\ task s = Settled /\ ended s = false)
   \/ (iterator s = [] /\ pushed s = (abc_frame B ++ [VStr (spec_closing B)])%list
       /\ kReading s = false /\ task s = Settled /\ ended s = true)).

(** A destroyed stream delivers nothing more: if it has ended, it ended
    before, with the frame and the closing delimiter. *)
Definition abc_states (B : string) (s : FormDataStream) : Prop :=
  if destroyed s
  then ended s = true -> pushed s = (abc_frame B ++ [VStr (spec_closing B)])%list
  else abc_live B s.

(** The scheduler over that single entry as an automaton: nothing
    pulled yet; the frame pushed and the coroutine about to resume, with
    or without a deferred pull; idle after the frame; ended. *)
Inductive AbcPhase : Type :=
| Fresh
| Framed (deferred : bool)
| Idle
| Done.

Definition abc_next (p : AbcPhase) (e : Event) : AbcPhase :=
  match p, e with
  | Fresh, Pull => Framed false
  | Framed _, Pull => Framed true
  | Framed true, Tick => Done
  | Framed false, Tick => Idle
  | Idle, Pull => Done
  | p, _ => p
  end.

Definition abc_run (p : AbcPhase) (evs : list Event) : AbcPhase :=
  fold_left abc_next evs p.

Definition in_phase (p : AbcPhase) (s : FormDataStream) : Prop :=
  match p with
  | Fresh =>
      destroyed s = false /\ ended s = false /\ kOnceResume s = NoWaiter
      /\ iterator s = [("file", Sample.abc_file)]
      /\ kReading s = false /\ task s = Settled /\ kReadNext s = false
  | Framed deferred =>
      destroyed s = false /\ ended s = false /\ kOnceResume s = NoWaiter
      /\ iterator s = []
      /\ kReading s = true /\ task s = Ret AfterField /\ kReadNext s = deferred
  | Idle =>
      destroyed s = false /\ ended s = false /\ kOnceResume s = NoWaiter
      /\ iterator s = []
      /\ kReading s = false /\ task s = Settled
  | Done => ended s = true
  end.

(** ** Predicates on the state of the coroutine *)

(** The coroutine was left by [streamFileField] or by an exception: it
    is neither absent nor waiting for a resume. *)
Definition launched (t : Task) : bool :=
  match t with
  | Rejected _ | Ret _ | WaitEvent _ _ | Drained _ => true
  | Settled | AfterEvent _ _ | Reading _ _ | WaitResume _ _ => false
  end.

(** What the methods keep true of the object: a production is in flight
    whenever a coroutine exists, and a coroutine that waits for a resume
    has its pending entry in [kOnceResume]. *)
Definition consistent (s : FormDataStream) : Prop :=
  (kReading s = false -> task s = Settled)
  /\ (forall id k, task s = WaitResume id k -> kOnceResume s = Pending).

(** The fields no framing function touches, but for a push that destroys
    the stream: that one marks it destroyed and rejects a pending wait. *)
Definition same_control (s s' : FormDataStream) : Prop :=
  kReadNext s' = kReadNext s
  /\ (kOnceResume s <> Pending -> kOnceResume s' = kOnceResume s)
  /\ pulled s' = pulled s
  /\ sources s' = sources s
  /\ boundary s' = boundary s
  /\ ended s' = ended s
  /\ (destroyed s = true -> destroyed s' = true).

(** What framing an entry keeps: the control fields, the iterator and the
    in-flight flag. *)
Definition framing (s s' : FormDataStream) : Prop :=
  same_control s s' /\ iterator s' = iterator s /\ kReading s' = kReading s.

(** From a destroyed stream [s] to [s'] nothing more is delivered: the
    stream stays destroyed, and what it pushed and whether it ended are as
    before. *)
Definition frozen (s s' : FormDataStream) : Prop :=
  destroyed s = true ->
  destroyed s' = true /\ pushed s' = pushed s /\ ended s' = ended s.

Definition is_pull (e : Event) : bool :=
  match e with Pull => true | _ => false end.

Definition is_tick (e : Event) : bool :=
  match e with Tick => true | _ => false end.

Definition is_destroy (e : Event) : bool :=
  match e with Destroy _ => true | _ => false end.

(** Nothing destroys the stream during [evs]. *)
Definition no_destroy (evs : list Event) : bool :=
  forallb (fun e => negb (is_destroy e)) evs.

(** The downstream consumer does not signal ready during [evs]. *)
Definition no_pull (evs : list Event) : bool :=
  forallb (fun e => negb (is_pull e)) evs.

(** The states a stream built by [new FormDataStream] can be in. *)
Definition reachable (rand : nat -> string) (full : nat -> bool)
    (basename : JsVal -> Result JsVal) (s : FormDataStream) : Prop :=
  exists it srcs evs, s = run rand full basename evs (new_FormDataStream rand it srcs).

(** What framing has produced so far: the entries taken, the chunks
    delivered, the text accumulated, the chunks read upstream, and whether
    end-of-stream was signalled. *)
Definition same_output (s s' : FormDataStream) : Prop :=
  iterator s' = iterator s
  /\ pushed s' = pushed s
  /\ kChunkBuffer s' = kChunkBuffer s
  /\ pulled s' = pulled s
  /\ ended s' = ended s.

(** The coroutine is absent, waits for a resume, or has ended by an
    exception. *)
Definition parked (t : Task) : bool :=
  match t with
  | Settled | WaitResume _ _ | Rejected _ => true
  | _ => false
  end.

(** The error [streamFileField] throws for a value that fails both the
    length test and [instanceof Readable]. *)
Definition invalid_source_error (file : JsVal) : JsError :=
  if truthy file then Error ("Received non-Readable stream " ++ ToString file)
  else AssertionError.

(** The error by which the production ended, if it did: the promise
    that [_read] returned to the Readable base class is rejected with it.
    The class hands the error to the stream in no way; it neither calls
    [destroy] nor emits [error] itself. *)
Definition errored (s : FormDataStream) : option JsError :=
  match task s with
  | Rejected e => Some e
  | _ => None
  end.

(** The value a field that is not an array hands to [streamFileField]. *)
Definition payload (content : JsVal) : JsVal :=
  js_or (prop content "source") content.

(** The state in which the next resumption reaches line 116, when the
    coroutine is about to complete its production cycle. *)
Definition completing (full : nat -> bool) (basename : JsVal -> Result JsVal)
    (s : FormDataStream) : option FormDataStream :=
  match task s with
  | Ret AfterField => Some s
  | Ret (InList name subBoundary filenameIndex []) =>
      Some (fst (list_loop full basename name subBoundary filenameIndex [] s))
  | _ => None
  end.

(** ** The nested part of an array field in the words of the specification *)

(** The opening of the field: delimiter, disposition, and the
    [multipart/mixed] content type that names the nested boundary. *)
Definition spec_list_open (boundary name subBoundary : string) : string :=
  "--" ++ boundary ++ lineBreak
  ++ "Content-Disposition: form-data; name=" ++ dquote ++ name ++ dquote ++ lineBreak
  ++ "Content-Type: multipart/mixed; boundary=" ++ subBoundary ++ lineBreak
  ++ lineBreak.

(** The sub-frame of one item. *)
Definition spec_sub_frame (subBoundary filename type payload : string) : string :=
  "--" ++ subBoundary ++ lineBreak
  ++ "Content-Disposition: file; filename=" ++ dquote ++ filename ++ dquote ++ lineBreak
  ++ "Content-Type: " ++ type ++ lineBreak
  ++ lineBreak
  ++ payload ++ lineBreak.

(** A field value that is not an array and is either null or undefined,
    or whose payload fails both shape tests of [streamFileField]. *)
Definition invalid_field (content : JsVal) : bool :=
  negb (isArray content)
  && (is_nullish content
      || (negb (has_length (payload content))
          && negb (instanceof_Readable (payload content)))).

Module Sample2.

(** A stream field followed by a text field. *)
Definition two_fields : list (string * JsVal) :=
  [("f", VObject [("source", VReadable 0 None); ("filename", VStr "f")]);
   ("g", VStr "1")].

(** The stream over [two_fields] once the first chunk of the upstream
    source was pushed into a full downstream buffer. *)
Definition waiting : FormDataStream :=
  run Sample.rand Sample.always_full Sample.basename
      [Pull; SrcReadable 0 ["x"; "y"]; Tick]
      (new_FormDataStream Sample.rand two_fields Sample.fresh).

(** The same stream just before that chunk is read. *)
Definition before_read : FormDataStream :=
  run Sample.rand Sample.always_full Sample.basename
      [Pull; SrcReadable 0 ["x"; "y"]]
      (new_FormDataStream Sample.rand two_fields Sample.fresh).

(** A stream whose only production cycle is about to complete. *)
Definition completing_cycle : FormDataStream :=
  run Sample.rand Sample.never_full Sample.basename [Pull]
      (new_FormDataStream Sample.rand [("g", VStr "1")] Sample.fresh).

End Sample2.

(** ** Further vocabulary for the properties of the whole class *)

(** The frame of a plain text field: delimiter, disposition without
    filename, [text/plain], blank line, payload, line break. *)
Definition spec_text_header (boundary name : string) : string :=
  "--" ++ boundary ++ lineBreak
  ++ "Content-Disposition: form-data; name=" ++ dquote ++ name ++ dquote ++ lineBreak
  ++ "Content-Type: text/plain" ++ lineBreak
  ++ lineBreak.

Definition spec_text_frame (boundary : string) (kv : string * string) : string :=
  spec_text_header boundary (encodeURIComponent (fst kv)) ++ snd kv ++ lineBreak.

(** The body of a mapping of text fields: the frames in order, then the
    closing delimiter. *)
Definition spec_text_body (boundary : string) (pairs : list (string * string)) : string :=
  String.concat EmptyString (map (spec_text_frame boundary) pairs)
  ++ spec_closing boundary.

(** The chunks in which the frame of a text field is pushed. *)
Definition text_chunks (boundary : string) (kv : string * string) : list JsVal :=
  [VStr (spec_text_header boundary (encodeURIComponent (fst kv)));
   VStr (snd kv); VStr lineBreak].

(** Every value of the mapping is a non-empty string. *)
Definition nonempty_values (pairs : list (string * string)) : bool :=
  forallb (fun kv => nonempty (snd kv)) pairs.

(** The states of a stream over the text fields [pairs]: the fields
    [done] are framed and delivered, the fields [rest] are still in the
    iterator, and the scheduler is idle, resuming after a field, or has
    ended the stream. *)
Definition text_states (B : string) (pairs : list (string * string))
    (s : FormDataStream) : Prop :=
  exists done rest,
    pairs = (done ++ rest)%list
    /\ kOnceResume s = NoWaiter /\ kChunkBuffer s = EmptyString /\ boundary s = B
    /\ iterator s = text_entries rest
    /\ pushed s = (flat_map (text_chunks B) done
                   ++ (if ended s then [VStr (spec_closing B)] else []))%list
    /\ (ended s = true -> rest = [])
    /\ ((kReading s = false /\ task s = Settled)
        \/ (kReading s = true /\ task s = Ret AfterField /\ ended s = false)).

(** A destroyed stream delivers nothing more: if it has ended, it ended
    before, with every frame and the closing delimiter. *)
Definition text_inv (B : string) (pairs : list (string * string))
    (s : FormDataStream) : Prop :=
  if destroyed s
  then ended s = true ->
       pushed s = (flat_map (text_chunks B) pairs ++ [VStr (spec_closing B)])%list
  else text_states B pairs s.

(** A consumer that pulls once per field, each pull followed by the
    resumption of the coroutine, and pulls once more. *)
Fixpoint pull_each (n : nat) : list Event :=
  match n with
  | 0 => [Pull]
  | S n' => Pull :: Tick :: pull_each n'
  end.

(** A consumer of a drained source that signals ready exactly after each
    push that reported a full buffer: per chunk the coroutine is resumed,
    and a pull follows when push number [n] is one that reports full. *)
Fixpoint drain_schedule (full : nat -> bool) (n : nat) (chunks : list string)
    : list Event :=
  match chunks with
  | [] => []
  | _ :: rest =>
      if full n then Tick :: Pull :: drain_schedule full (S n) rest
      else Tick :: drain_schedule full (S n) rest
  end.

(** The coroutine is past the flush of [streamFileField]: it delivers a
    payload or is about to return to [readNext]. *)
Definition payload_phase (t : Task) : bool :=
  match t with
  | Ret _ | WaitEvent _ _ | AfterEvent _ _ | Reading _ _ | WaitResume _ _
  | Drained _ => true
  | Settled | Rejected _ => false
  end.

(** The accumulator is empty whenever the coroutine is past a flush. *)
Definition flushed (s : FormDataStream) : Prop :=
  payload_phase (task s) = true -> kChunkBuffer s = EmptyString.

(** From [s] to [s'] chunks were only appended to what was delivered, and
    entries only taken from the front of the iterator. *)
Definition extends (s s' : FormDataStream) : Prop :=
  (exists out, pushed s' = (pushed s ++ out)%list)
  /\ (exists taken, iterator s = (taken ++ iterator s')%list).

(** ** Reading a query string back *)

Fixpoint all_chars (p : ascii -> bool) (s : string) : bool :=
  match s with
  | EmptyString => true
  | String c r => p c && all_chars p r
  end.

(** The characters [encodeURIComponent] can produce: the unreserved ones
    and the percent sign. *)
Definition uri_char (c : ascii) : bool :=
  unreserved c || Ascii.eqb c "%".

Fixpoint index_of (c : ascii) (s : string) : option nat :=
  match s with
  | EmptyString => None
  | String d r =>
      if Ascii.eqb c d then Some 0
      else match index_of c r with
           | Some n => Some (S n)
           | None => None
           end
  end.

Definition hex_value (c : ascii) : option nat :=
  index_of c "0123456789ABCDEF".

(** Percent-decoding: [%XY] with two upper-case hex digits is the byte
    [XY]; everything else stands for itself. *)
Fixpoint percent_decode (s : string) : string :=
  match s with
  | EmptyString => EmptyString
  | String c t =>
      if Ascii.eqb c "%" then
        match t with
        | String h (String l r) =>
            match hex_value h, hex_value l with
            | Some a, Some b => String (ascii_of_nat (16 * a + b)) (percent_decode r)
            | _, _ => String c (percent_decode t)
            end
        | _ => String c (percent_decode t)
        end
      else String c (percent_decode t)
  end.

(** The pieces of [s] between occurrences of [sep]. *)
Fixpoint split_at (sep : ascii) (s : string) : list string :=
  match s with
  | EmptyString => [EmptyString]
  | String c r =>
      if Ascii.eqb c sep then EmptyString :: split_at sep r
      else match split_at sep r with
           | p :: ps => String c p :: ps
           | [] => [String c EmptyString]
           end
  end.

(** [s] up to the first [sep], and what follows it if there is one. *)
Fixpoint split_first (sep : ascii) (s : string) : string * option string :=
  match s with
  | EmptyString => (EmptyString, None)
  | String c r =>
      if Ascii.eqb c sep then (EmptyString, Some r)
      else let (a, b) := split_first sep r in (String c a, b)
  end.

Definition parse_pair (piece : string) : string * string :=
  let (k, v) := split_first "=" piece in
  (percent_decode k,
   percent_decode (match v with Some v => v | None => EmptyString end)).

(** A query-string parser: pairs are separated by [&], key and value by
    the first [=], and both are percent-decoded. *)
Definition parse_query (body : string) : list (string * string) :=
  match body with
  | EmptyString => []
  | _ => map parse_pair (split_at "&" body)
  end.

(** The part of a quoted header parameter that must not occur inside it. *)
Definition breaks_header (c : ascii) : bool :=
  Ascii.eqb c (ascii_of_nat 34) || Ascii.eqb c (ascii_of_nat 13)
  || Ascii.eqb c (ascii_of_nat 10).

(** A pending entry in [kOnceResume] belongs to a coroutine that waits
    for a resume. *)
Definition waiter_owned (s : FormDataStream) : Prop :=
  kOnceResume s = Pending -> exists id k, task s = WaitResume id k.

(** ** An array of text sources *)

(** The item [{source: v}]. *)
Definition text_item (v : string) : JsVal := VObject [("source", VStr v)].

Definition spec_sub_header (subBoundary filename type : string) : string :=
  "--" ++ subBoundary ++ lineBreak
  ++ "Content-Disposition: file; filename=" ++ dquote ++ filename ++ dquote ++ lineBreak
  ++ "Content-Type: " ++ type ++ lineBreak
  ++ lineBreak.

(** The chunks pushed for the items [vs] of the array field [name], the
    first of which carries the text [prefix] that the accumulator held:
    item number [i] is named [name-i]. *)
Fixpoint sub_chunks (name subBoundary : string) (index : nat) (prefix : string)
    (vs : list string) : list JsVal :=
  match vs with
  | [] => []
  | v :: rest =>
      VStr (prefix
            ++ spec_sub_header subBoundary
                 (encodeURIComponent (name ++ "-" ++ decimal index)) "text/plain")
      :: VStr v :: VStr lineBreak
      :: sub_chunks name subBoundary (S index) EmptyString rest
  end.

Definition nonempty_all (vs : list string) : bool := forallb nonempty vs.

(** The sub-frames of the items [vs], numbered from [index]. *)
Fixpoint spec_sub_frames (name subBoundary : string) (index : nat)
    (vs : list string) : string :=
  match vs with
  | [] => EmptyString
  | v :: rest =>
      spec_sub_header subBoundary
        (encodeURIComponent (name ++ "-" ++ decimal index)) "text/plain"
      ++ v ++ lineBreak
      ++ spec_sub_frames name subBoundary (S index) rest
  end.

Module Sample3.

(** Two text fields, one with a key that needs encoding. *)
Definition pairs : list (string * string) := [("a", "1"); ("b c", "x&y")].

(** The two-field stream of [Sample2] waiting for the first event of its
    upstream source. *)
Definition awaiting_source : FormDataStream :=
  run Sample.rand Sample.always_full Sample.basename [Pull]
      (new_FormDataStream Sample.rand Sample2.two_fields Sample.fresh).

(** The same stream after the consumer signalled ready for the second
    chunk. *)
Definition resumed : FormDataStream :=
  run Sample.rand Sample.always_full Sample.basename
      [Pull; SrcReadable 0 ["x"; "y"]; Tick; Pull]
      (new_FormDataStream Sample.rand Sample2.two_fields Sample.fresh).

(** Upstream sources that have ended. *)
Definition ended_sources : nat -> Source := fun _ => mkSource [] false.

(** A stream whose next entry is an array of two text sources. *)
Definition docs : FormDataStream :=
  new_FormDataStream Sample.rand
    [("docs", VArray (map text_item ["a"; "b"]))] Sample.fresh.

End Sample3.
(** ** Strings *)

Lemma append_assoc (a b c : string) : (a ++ b) ++ c = a ++ (b ++ c).
Proof.
  induction a as [|x a IH]; simpl; [reflexivity | now rewrite IH].
Qed.

Lemma js_join_concat (sep : string) (l : list string) :
  js_join sep l = String.concat sep l.
Proof.
  induction l as [|x l IH]; [reflexivity|].
  destruct l as [|y l]; [reflexivity|].
  cbn [js_join String.concat] in *. now rewrite IH.
Qed.

Lemma urlencoded_loop_app (it : list (string * JsVal)) (result : list string) :
  urlencoded_loop it result
  = (result ++ map (fun kv => (encodeURIComponent (fst kv) ++ "="
                               ++ encodeURIComponent (ToString (snd kv)))%string)
                 it)%list.
Proof.
  revert result. induction it as [|[key value] it IH]; intros result; simpl.
  - now rewrite app_nil_r.
  - rewrite IH, <- app_assoc. reflexivity.
Qed.

(** ** The query-string encoding *)

(** C2. For a field mapping whose values are all text, the query-string
    encoding, asked for by name or taken by default, returns the
    percent-encoded [key=value] pairs joined by [&] in iteration order,
    under the header [application/x-www-form-urlencoded; charset=UTF-8],
    and without a warning; the mapping [{a: "1"}] gives the body [a=1]. *)
Theorem urlencoded_text_fields :
  forall (rand : nat -> string) (type_prop : JsVal)
         (pairs : list (string * string)) (srcs : nat -> Source),
    serializeFormData rand (mkFormData type_prop (text_entries pairs))
                      urlencoded_type srcs
    = mkSerialized (BodyString (spec_query_string pairs))
                   "application/x-www-form-urlencoded; charset=UTF-8" false
    /\ serializeFormData rand (mkFormData VUndefined (text_entries pairs))
                         VUndefined srcs
       = mkSerialized (BodyString (spec_query_string pairs))
                      "application/x-www-form-urlencoded; charset=UTF-8" false
    /\ body (serializeFormData rand (mkFormData VUndefined [("a", VStr "1")])
                               urlencoded_type srcs)
       = BodyString "a=1".
Proof.
  intros rand type_prop pairs srcs.
  assert (Hbody : js_join "&" (urlencoded_loop (text_entries pairs) [])
                  = spec_query_string pairs).
  { rewrite js_join_concat, urlencoded_loop_app. simpl.
    unfold spec_query_string, text_entries. rewrite map_map. reflexivity. }
  repeat split; unfold serializeFormData, urlencoded; cbn;
    now rewrite ?Hbody.
Qed.

(** C3. An array-valued field is not flattened by the query-string
    encoding: the array is converted to one string (its items joined by
    commas) and percent-encoded as a single value, so [{a: ["x", "y"]}]
    gives the body [a=x%2Cy], one pair instead of one pair per item. *)
Theorem urlencoded_array_field_single_unit :
  forall (rand : nat -> string) (key : string) (items : list JsVal)
         (srcs : nat -> Source),
    body (serializeFormData rand (mkFormData VUndefined [(key, VArray items)])
                            urlencoded_type srcs)
    = BodyString (encodeURIComponent key ++ "="
                  ++ encodeURIComponent (ToString (VArray items)))
    /\ body (serializeFormData rand
               (mkFormData VUndefined [("a", VArray [VStr "x"; VStr "y"])])
               urlencoded_type srcs)
       = BodyString "a=x%2Cy"
    /\ body (serializeFormData rand
               (mkFormData VUndefined [("obj", VObject [("oh", VStr "gosh")])])
               urlencoded_type srcs)
       = BodyString "obj=%5Bobject%20Object%5D".
Proof.
  intros rand key items srcs. repeat split; reflexivity.
Qed.

(** ** The multipart encoding of one buffer field *)

Ltac str_norm := repeat (progress (cbn; rewrite ?append_assoc)).

Section Multipart.

Variable rand : nat -> string.
Variable full : nat -> bool.
Variable basename : JsVal -> Result JsVal.

Lemma run_invariant (I : FormDataStream -> Prop) :
  (forall e s, I s -> I (step rand full basename e s)) ->
  forall evs s, I s -> I (run rand full basename evs s).
Proof.
  intros Hstep evs. induction evs as [|e evs IH]; intros s Hs; simpl; auto.
Qed.

Lemma run_app (evs1 evs2 : list Event) (s : FormDataStream) :
  run rand full basename (evs1 ++ evs2)%list s
  = run rand full basename evs2 (run rand full basename evs1 s).
Proof.
  revert s. induction evs1 as [|e evs1 IH]; intros s; simpl; auto.
Qed.

(** ** Framing one entry *)

Lemma js_or_falsy (a b : JsVal) : truthy a = false -> js_or a b = b.
Proof. unfold js_or. now intros ->. Qed.

Lemma js_or_truthy (a b : JsVal) : truthy a = true -> js_or a b = a.
Proof. unfold js_or. now intros ->. Qed.

(** A value with a truthy [source] property is an object. *)
Lemma source_object (content : JsVal) :
  truthy (prop content "source") = true ->
  is_nullish content = false /\ instanceof_Readable content = false.
Proof.
  destruct content as [| | | | |id [p|]| |props]; cbn; intros H;
    try discriminate H; split; reflexivity.
Qed.

(** C4, amended. For a field whose value is an object that carries a
    source and a filename and names no content type, on a stream that is
    neither ended nor destroyed, the header block pushed for the field
    (after whatever text the accumulator still held) carries
    [Content-Type: application/octet-stream] when the source is a
    byte-producing stream, and [Content-Type: text/plain] when the source
    is non-empty text or a non-empty buffer, which is then pushed as the
    payload followed by a line break. The filename being given, the
    free identifier [basename] is not evaluated. *)
Theorem named_source_default_content_type :
  forall (s : FormDataStream) (name : string) (content : JsVal),
    ended s = false -> destroyed s = false ->
    truthy (prop content "source") = true ->
    truthy (prop content "filename") = true ->
    truthy (prop content "contentType") = false ->
    let source := prop content "source" in
    let filename := encodeURIComponent (ToString (prop content "filename")) in
    let s' := fst (frame_entry rand full basename name content s) in
    (instanceof_Readable source = true ->
     pushed s' = (pushed s ++
       [VStr (kChunkBuffer s
              ++ spec_file_header (boundary s) (encodeURIComponent name)
                   filename "application/octet-stream")])%list)
    /\ (has_length source = true -> is_chunk source = true ->
        pushed s' = (pushed s ++
          [VStr (kChunkBuffer s
                 ++ spec_file_header (boundary s) (encodeURIComponent name)
                      filename "text/plain");
           source; VStr lineBreak])%list).
Proof.
  intros s name content Hend Hlive Hsrc Hfn Hct source filename s'.
  destruct (source_object content Hsrc) as [Hnn Hnr].
  subst s'. unfold frame_entry, filename_of.
  rewrite Hnn, Hnr, Hsrc, Hfn. cbn [orb].
  rewrite (js_or_truthy _ content Hsrc). fold source.
  cbn [fst]. unfold streamFileField. fold source in Hsrc. rewrite Hsrc. cbn [negb].
  rewrite !(js_or_falsy _ _ Hct).
  destruct s as [it bd rd rn w cb ps en de nb srcs pl tk]; simpl in *. subst en de.
  split.
  - intros Hs. destruct source; try discriminate Hs. cbn [has_length].
    unfold readStream.
    destruct (readable _); unfold filename, spec_file_header, disposition;
      str_norm; reflexivity.
  - intros Hs Hc. rewrite Hs.
    destruct source; try discriminate Hc;
      unfold filename, spec_file_header, disposition; str_norm;
      rewrite <- !app_assoc; reflexivity.
Qed.
(** ** What [push] does *)

Lemma push_destroyed (chunk : JsVal) (s : FormDataStream) :
  destroyed s = true -> push full chunk s = (s, false).
Proof.
  intros H. unfold push, errorOrDestroy. rewrite H.
  destruct (is_chunk chunk), (ended s); reflexivity.
Qed.

Lemma push_live (chunk : JsVal) (s : FormDataStream) :
  is_chunk chunk = true -> ended s = false -> destroyed s = false ->
  push full chunk s
  = (set_pushed (pushed s ++ [chunk])%list s, negb (full (List.length (pushed s)))).
Proof.
  intros Hc He Hd. unfold push. now rewrite Hc, He, Hd.
Qed.

(** ** What the framing functions leave alone *)

Ltac fields :=
  cbn; repeat split; try reflexivity; try (intros; congruence).

Lemma same_control_refl (s : FormDataStream) : same_control s s.
Proof. repeat split; auto. Qed.

Lemma same_control_trans (s1 s2 s3 : FormDataStream) :
  same_control s1 s2 -> same_control s2 s3 -> same_control s1 s3.
Proof.
  unfold same_control.
  intros (? & Hw & ? & ? & ? & ? & ?) (? & Hw' & ? & ? & ? & ? & ?).
  repeat split; try congruence; auto.
  intros Hp. rewrite <- (Hw Hp). apply Hw'. rewrite (Hw Hp). exact Hp.
Qed.

Lemma framing_refl (s : FormDataStream) : framing s s.
Proof. split; [apply same_control_refl | split; reflexivity]. Qed.

Lemma framing_trans (s1 s2 s3 : FormDataStream) :
  framing s1 s2 -> framing s2 s3 -> framing s1 s3.
Proof.
  intros (Hc & Hi & Hr) (Hc' & Hi' & Hr').
  split; [eapply same_control_trans; eassumption | split; congruence].
Qed.

Lemma pushChunk_framing (chunk : string) (s : FormDataStream) :
  framing s (pushChunk chunk s).
Proof. unfold framing, same_control. fields. Qed.

Lemma set_task_framing (t : Task) (s : FormDataStream) :
  framing s (set_task t s).
Proof. unfold framing, same_control. fields. Qed.

Lemma reject_framing (e : JsError) (s : FormDataStream) :
  framing s (reject e s).
Proof. apply set_task_framing. Qed.

Lemma set_kChunkBuffer_framing (v : string) (s : FormDataStream) :
  framing s (set_kChunkBuffer v s).
Proof. unfold framing, same_control. fields. Qed.

Lemma set_nboundaries_framing (n : nat) (s : FormDataStream) :
  framing s (set_nboundaries n s).
Proof. unfold framing, same_control. fields. Qed.

Lemma push_framing (chunk : JsVal) (s : FormDataStream) :
  framing s (fst (push full chunk s)).
Proof.
  destruct s as [it bd rd rn w cb ps en de nb srcs pl tk].
  unfold push, errorOrDestroy, _destroy, reject, framing, same_control.
  destruct (is_chunk chunk), en, de; cbn; try (fields; fail);
    destruct w; try (fields; fail); destruct tk; fields.
Qed.

Lemma flushChunks_framing (s : FormDataStream) : framing s (flushChunks full s).
Proof.
  unfold flushChunks.
  eapply framing_trans; [apply push_framing | apply set_kChunkBuffer_framing].
Qed.

Ltac framing_chain :=
  repeat first
    [ apply framing_refl
    | eapply framing_trans;
      [| first [ apply pushChunk_framing | apply set_task_framing
               | apply reject_framing | apply push_framing
               | apply flushChunks_framing | apply set_nboundaries_framing ] ] ].

Lemma task_set_task (t : Task) (s : FormDataStream) : task (set_task t s) = t.
Proof. reflexivity. Qed.

Lemma kChunkBuffer_set_task (t : Task) (s : FormDataStream) :
  kChunkBuffer (set_task t s) = kChunkBuffer s.
Proof. reflexivity. Qed.

Lemma push_kChunkBuffer (chunk : JsVal) (s : FormDataStream) :
  kChunkBuffer (fst (push full chunk s)) = kChunkBuffer s.
Proof.
  destruct s as [it bd rd rn w cb ps en de nb srcs pl tk].
  unfold push, errorOrDestroy, _destroy, reject.
  destruct (is_chunk chunk), en, de; cbn; try reflexivity;
    destruct w; try reflexivity; destruct tk; reflexivity.
Qed.

Lemma streamFileField_shape (file contentType : JsVal) (k : Cont)
    (s : FormDataStream) :
  let s' := streamFileField full file contentType k s in
  same_control s s' /\ iterator s' = iterator s /\ kReading s' = kReading s
  /\ launched (task s') = true.
Proof.
  cbv zeta.
  assert (H : framing s (streamFileField full file contentType k s)
              /\ launched (task (streamFileField full file contentType k s)) = true).
  { unfold streamFileField.
    destruct (truthy file); cbn [negb]; [|split; [framing_chain | reflexivity]].
    destruct (has_length file); [split; [framing_chain | reflexivity]|].
    destruct file; try (split; [framing_chain | reflexivity]).
    unfold readStream.
    destruct (readable _); (split; [framing_chain | reflexivity]). }
  destruct H as ((Hc & Hi & Hr) & Hl). auto.
Qed.

Lemma list_loop_shape (name subBoundary : string) (filenameIndex : nat)
    (items : list JsVal) (s : FormDataStream) :
  let r := list_loop full basename name subBoundary filenameIndex items s in
  same_control s (fst r) /\ iterator (fst r) = iterator s
  /\ kReading (fst r) = kReading s
  /\ (if snd r then task (fst r) = task s /\ pushed (fst r) = pushed s
      else launched (task (fst r)) = true).
Proof.
  destruct items as [|file rest]; cbn [list_loop].
  - cbn. repeat split; auto.
  - assert (Hpre : forall c1 c2, framing s (pushChunk c2 (pushChunk c1 s)))
      by (intros; framing_chain).
    destruct (instanceof_Readable file).
    + destruct (basename _) as [b|e]; cbn [fst snd].
      * match goal with
        | |- context [streamFileField full ?f ?c ?k ?t] =>
            destruct (streamFileField_shape f c k t) as (Hc & Hi & Hr & Hl);
            assert (Hf : framing s t) by framing_chain
        end.
        destruct Hf as (Hc' & Hi' & Hr').
        repeat split; try congruence.
        all: try apply (same_control_trans _ _ _ Hc' Hc).
      * destruct (Hpre ("--" ++ subBoundary) lineBreak) as (Hc & Hi & Hr).
        cbn. repeat split; try apply Hc; assumption.
    + destruct (is_nullish file); cbn [fst snd].
      * destruct (Hpre ("--" ++ subBoundary) lineBreak) as (Hc & Hi & Hr).
        cbn. repeat split; try apply Hc; assumption.
      * match goal with
        | |- context [streamFileField full ?f ?c ?k ?t] =>
            destruct (streamFileField_shape f c k t) as (Hc & Hi & Hr & Hl);
            assert (Hf : framing s t) by framing_chain
        end.
        destruct Hf as (Hc' & Hi' & Hr').
        repeat split; try congruence.
        all: try apply (same_control_trans _ _ _ Hc' Hc).
Qed.

Lemma frame_entry_shape (name : string) (content : JsVal) (s : FormDataStream) :
  let r := frame_entry rand full basename name content s in
  same_control s (fst r) /\ iterator (fst r) = iterator s
  /\ kReading (fst r) = kReading s
  /\ (if snd r then task (fst r) = task s /\ pushed (fst r) = pushed s
      else launched (task (fst r)) = true).
Proof.
  unfold frame_entry.
  assert (Hrej : forall e t, framing s t ->
            same_control s (reject e t) /\ iterator (reject e t) = iterator s
            /\ kReading (reject e t) = kReading s
            /\ launched (task (reject e t)) = true).
  { intros e t Ht.
    destruct (framing_trans _ _ _ Ht (reject_framing e t)) as (Hc & Hi & Hr).
    auto. }
  assert (Hsff : forall f c k t, framing s t ->
            let s' := streamFileField full f c k t in
            same_control s s' /\ iterator s' = iterator s
            /\ kReading s' = kReading s /\ launched (task s') = true).
  { intros f c k t (Hc' & Hi' & Hr').
    destruct (streamFileField_shape f c k t) as (Hc & Hi & Hr & Hl).
    cbv zeta. repeat split; try congruence.
    all: try apply (same_control_trans _ _ _ Hc' Hc). }
  destruct (is_nullish content); [cbn [fst snd]; apply Hrej; framing_chain|].
  destruct (instanceof_Readable content || truthy (prop content "source")).
  - destruct (filename_of _ _) as [fn|e]; cbn [fst snd].
    + apply Hsff. framing_chain.
    + apply Hrej. framing_chain.
  - destruct content;
      try (cbn [fst snd]; apply Hsff; framing_chain).
    match goal with
    | |- context [list_loop full basename ?n ?b ?i ?l ?t] =>
        pose proof (list_loop_shape n b i l t) as H;
        assert (Hf : framing s t) by framing_chain
    end.
    cbv zeta in H. destruct H as (Hc & Hi & Hr & Hl).
    destruct Hf as (Hc' & Hi' & Hr').
    split; [apply (same_control_trans _ _ _ Hc' Hc)|].
    split; [congruence|]. split; [congruence|].
    destruct (snd _); [|exact Hl].
    destruct Hl as [Ht Hp]. split; [rewrite Ht | rewrite Hp]; reflexivity.
Qed.

(** ** What a call of [readNext] does to the control state *)

Lemma finish_fields (s : FormDataStream) :
  let s' := finish full s in
  kReadNext s' = kReadNext s
  /\ (kOnceResume s <> Pending -> kOnceResume s' = kOnceResume s)
  /\ pulled s' = pulled s
  /\ sources s' = sources s
  /\ boundary s' = boundary s
  /\ iterator s' = iterator s
  /\ kReading s' = false
  /\ task s' = Settled
  /\ kChunkBuffer s' = kChunkBuffer s
  /\ ended s' = (ended s || negb (destroyed s))
  /\ (destroyed s = true -> destroyed s' = true)
  /\ pushed s'
     = (pushed s ++ (if ended s || destroyed s then []
                     else [VStr ("--" ++ boundary s ++ "--")]))%list.
Proof.
  destruct s as [its bd rd rn w cb ps en de nb srcs pl tk].
  unfold finish, push_null, push, errorOrDestroy, _destroy, reject.
  destruct en, de; cbn; rewrite ?app_nil_r; try (fields; fail);
    destruct w; try (fields; fail); destruct tk; fields.
Qed.

Lemma readNext_from_shape (it : list (string * JsVal)) :
  forall s : FormDataStream,
    let s' := readNext_from rand full basename it s in
    kReadNext s' = kReadNext s
    /\ (kOnceResume s <> Pending -> kOnceResume s' = kOnceResume s)
    /\ pulled s' = pulled s
    /\ sources s' = sources s
    /\ boundary s' = boundary s
    /\ (it = [] -> iterator s' = iterator s)
    /\ (forall e it', it = e :: it' ->
          List.length (iterator s') <= List.length it')
    /\ ((kReading s' = true /\ launched (task s') = true)
        \/ (kReading s' = false /\ task s' = Settled)).
Proof.
  induction it as [|[name content] it IH]; intros s s'; subst s'.
  - cbn [readNext_from].
    destruct (finish_fields (set_kReading true s))
      as (Hn & Hw & Hp & Hs & Hb & Hi & Hr & Ht & _).
    split; [exact Hn|]. split; [exact Hw|]. split; [exact Hp|].
    split; [exact Hs|]. split; [exact Hb|]. split; [intros _; exact Hi|].
    split; [discriminate|]. right. split; assumption.
  - cbn [readNext_from].
    pose proof (frame_entry_shape name content
                  (set_iterator it (set_kReading true s))) as H.
    cbv zeta in H.
    destruct (frame_entry rand full basename name content
                (set_iterator it (set_kReading true s))) as [s1 left].
    cbn [fst snd] in H. destruct H as (Hc & Hi & Hr & Hl).
    destruct Hc as (Hn & Hw & Hp & Hs & Hb & He & Hd).
    cbn in Hn, Hw, Hp, Hs, Hb, Hi, Hr.
    assert (Hlen : forall e it', (name, content) :: it = e :: it' -> it' = it)
      by (intros ? ? E; now injection E).
    destruct left.
    + destruct (kReadNext s1) eqn:Hk.
      * specialize (IH s1). cbv zeta in IH.
        destruct IH as (IHn & IHw & IHp & IHs & IHb & IHi & IHl & IHt).
        split; [congruence|]. split.
        { intros Hnp. rewrite <- (Hw Hnp). apply IHw. rewrite (Hw Hnp). exact Hnp. }
        split; [congruence|]. split; [congruence|]. split; [congruence|].
        split; [discriminate|]. split; [|exact IHt].
        intros e it' Heq. rewrite (Hlen _ _ Heq).
        destruct it as [|e' it''].
        -- rewrite (IHi eq_refl), Hi. cbn [List.length]. lia.
        -- specialize (IHl e' it'' eq_refl). cbn [List.length]. lia.
      * unfold idle. cbn.
        split; [congruence|]. split; [exact Hw|].
        split; [congruence|]. split; [congruence|]. split; [congruence|].
        split; [discriminate|]. split; [|right; split; reflexivity].
        intros e it' Heq. rewrite (Hlen _ _ Heq), Hi. lia.
    + split; [congruence|]. split; [exact Hw|].
      split; [congruence|]. split; [congruence|]. split; [congruence|].
      split; [discriminate|]. split; [|left; split; [congruence | exact Hl]].
      intros e it' Heq. rewrite (Hlen _ _ Heq), Hi. lia.
Qed.

Lemma readNext_shape (s : FormDataStream) :
  let s' := readNext rand full basename s in
  kReadNext s' = kReadNext s
  /\ (kOnceResume s <> Pending -> kOnceResume s' = kOnceResume s)
  /\ pulled s' = pulled s
  /\ List.length (iterator s') <= List.length (iterator s)
  /\ ((kReading s' = true /\ launched (task s') = true)
      \/ (kReading s' = false /\ task s' = Settled)).
Proof.
  unfold readNext.
  pose proof (readNext_from_shape (iterator s) s) as H. cbv zeta in H.
  destruct H as (Hn & Hw & Hp & _ & _ & Hi & Hl & Ht).
  repeat split; try assumption.
  destruct (iterator s) as [|e it'].
  - rewrite (Hi eq_refl). lia.
  - specialize (Hl e it' eq_refl). cbn [List.length]. lia.
Qed.

Lemma launched_consistent (s : FormDataStream) :
  (kReading s = true /\ launched (task s) = true)
  \/ (kReading s = false /\ task s = Settled) ->
  consistent s.
Proof.
  intros [[Hr Hl] | [Hr Ht]]; split.
  - congruence.
  - intros id k E. rewrite E in Hl. discriminate.
  - auto.
  - intros id k E. congruence.
Qed.

Lemma after_field_consistent (s : FormDataStream) :
  consistent (after_field rand full basename s).
Proof.
  unfold after_field. destruct (kReadNext s).
  - apply launched_consistent, readNext_shape.
  - apply launched_consistent. right. split; reflexivity.
Qed.

Lemma readChunk_consistent (id : nat) (k : Cont) (s : FormDataStream) :
  kReading s = true -> consistent (readChunk full id k s).
Proof.
  intros Hr.
  unfold readChunk, readStream, onceResume, reject, push, errorOrDestroy, _destroy.
  destruct s as [its bd rd rn w cb ps en de nb srcs pl tk]; cbn in *. subst rd.
  destruct (avail (srcs id)) as [|c rest]; cbn.
  - destruct (readable (srcs id)); split; cbn; congruence.
  - destruct en, de, w, tk; cbn; try destruct (full _); cbn;
      split; cbn; congruence.
Qed.

Lemma consistent_step (e : Event) (s : FormDataStream) :
  consistent s -> consistent (step rand full basename e s).
Proof.
  intros [Hidle Hwait].
  destruct e; cbn [step].
  - (* Pull *)
    unfold _read. destruct (kReading s) eqn:Hr.
    + destruct (kOnceResume s) eqn:Hw.
      * split; cbn; [congruence|].
        intros id k E. specialize (Hwait id k E). congruence.
      * destruct (task s) eqn:Ht; cbn; rewrite ?Ht; split; cbn; congruence.
      * split; cbn; [congruence|].
        intros id k E. specialize (Hwait id k E). congruence.
    + apply launched_consistent, readNext_shape.
  - (* Tick *)
    unfold tick. destruct (task s) as [| |k|id k|id k|id k|id k|k] eqn:Ht;
      try (split; rewrite Ht; assumption).
    + destruct k as [|name sb idx rest]; cbn [resume].
      * apply after_field_consistent.
      * pose proof (list_loop_shape name sb idx rest s) as H. cbv zeta in H.
        destruct (list_loop full basename name sb idx rest s) as [s1 left].
        cbn [fst snd] in H. destruct H as (_ & _ & Hr & Hl).
        destruct left; [apply after_field_consistent|].
        apply launched_consistent. left. split; [|assumption].
        rewrite Hr. destruct (kReading s) eqn:E; [reflexivity|].
        specialize (Hidle eq_refl). congruence.
    + assert (Hr : kReading s = true).
      { destruct (kReading s) eqn:E; [reflexivity|].
        specialize (Hidle eq_refl). congruence. }
      destruct (readable (sources s id)).
      * now apply readChunk_consistent.
      * split; cbn; congruence.
    + apply readChunk_consistent.
      destruct (kReading s) eqn:E; [reflexivity|].
      specialize (Hidle eq_refl). congruence.
    + assert (Hr : kReading s = true).
      { destruct (kReading s) eqn:E; [reflexivity|].
        specialize (Hidle eq_refl). congruence. }
      destruct (push_framing (VStr lineBreak) s) as (_ & _ & Hr').
      split.
      * intros H. change (kReading (fst (push full (VStr lineBreak) s)) = false) in H.
        congruence.
      * intros id' k' E. discriminate E.
  - (* Destroy *)
    unfold _destroy. cbn.
    destruct (kOnceResume s) eqn:Hw.
    + split; cbn; [assumption|]. intros id k E. specialize (Hwait id k E). congruence.
    + destruct (task s) eqn:Ht; cbn; rewrite ?Ht; split; cbn; try congruence;
        intros Hr; specialize (Hidle Hr); congruence.
    + split; cbn; [assumption|]. intros id k E. specialize (Hwait id k E). congruence.
  - (* SrcReadable *)
    unfold notify. cbn.
    destruct (task s) as [| |k|id' k|id' k|id' k|id' k|k] eqn:Ht;
      try (split; cbn; rewrite ?Ht; [assumption | intros ? ? E; try discriminate E; eauto]).
    destruct (Nat.eqb id' id); split; cbn; rewrite ?Ht; try congruence;
      intros Hr; specialize (Hidle Hr); congruence.
  - (* SrcEnd *)
    unfold notify. cbn.
    destruct (task s) as [| |k|id' k|id' k|id' k|id' k|k] eqn:Ht;
      try (split; cbn; rewrite ?Ht; [assumption | intros ? ? E; try discriminate E; eauto]).
    destruct (Nat.eqb id' id); split; cbn; rewrite ?Ht; try congruence;
      intros Hr; specialize (Hidle Hr); congruence.
  - (* SrcError *)
    unfold notify. cbn.
    destruct (task s) as [| |k|id' k|id' k|id' k|id' k|k] eqn:Ht;
      try (split; cbn; rewrite ?Ht; [assumption | intros ? ? E; try discriminate E; eauto]).
    destruct (Nat.eqb id' id); split; cbn; rewrite ?Ht; try congruence;
      intros Hr; specialize (Hidle Hr); congruence.
Qed.
(** ** A destroyed stream delivers nothing more *)

Lemma frozen_refl (s : FormDataStream) : frozen s s.
Proof. intros H. auto. Qed.

Lemma frozen_trans (s1 s2 s3 : FormDataStream) :
  frozen s1 s2 -> frozen s2 s3 -> frozen s1 s3.
Proof.
  intros H12 H23 H1. destruct (H12 H1) as (Hd & Hp & He).
  destruct (H23 Hd) as (Hd' & Hp' & He'). repeat split; congruence.
Qed.

Lemma push_frozen (chunk : JsVal) (s : FormDataStream) :
  frozen s (fst (push full chunk s)).
Proof. intros H. rewrite (push_destroyed chunk s H). auto. Qed.

Lemma pushChunk_frozen (chunk : string) (s : FormDataStream) :
  frozen s (pushChunk chunk s).
Proof. intros H. auto. Qed.

Lemma set_task_frozen (t : Task) (s : FormDataStream) : frozen s (set_task t s).
Proof. intros H. auto. Qed.

Lemma reject_frozen (e : JsError) (s : FormDataStream) : frozen s (reject e s).
Proof. intros H. auto. Qed.

Lemma set_kChunkBuffer_frozen (v : string) (s : FormDataStream) :
  frozen s (set_kChunkBuffer v s).
Proof. intros H. auto. Qed.

Lemma set_nboundaries_frozen (n : nat) (s : FormDataStream) :
  frozen s (set_nboundaries n s).
Proof. intros H. auto. Qed.

Lemma set_iterator_frozen (it : list (string * JsVal)) (s : FormDataStream) :
  frozen s (set_iterator it s).
Proof. intros H. auto. Qed.

Lemma set_kReading_frozen (b : bool) (s : FormDataStream) :
  frozen s (set_kReading b s).
Proof. intros H. auto. Qed.

Lemma set_kReadNext_frozen (b : bool) (s : FormDataStream) :
  frozen s (set_kReadNext b s).
Proof. intros H. auto. Qed.

Lemma set_kOnceResume_frozen (w : Waiter) (s : FormDataStream) :
  frozen s (set_kOnceResume w s).
Proof. intros H. auto. Qed.

Lemma set_sources_frozen (f : nat -> Source) (s : FormDataStream) :
  frozen s (set_sources f s).
Proof. intros H. auto. Qed.

Lemma set_pulled_frozen (n : nat) (s : FormDataStream) :
  frozen s (set_pulled n s).
Proof. intros H. auto. Qed.

Lemma flushChunks_frozen (s : FormDataStream) : frozen s (flushChunks full s).
Proof.
  unfold flushChunks.
  eapply frozen_trans; [apply push_frozen | apply set_kChunkBuffer_frozen].
Qed.

Ltac frozen_chain :=
  repeat first
    [ apply frozen_refl
    | eapply frozen_trans;
      [| first [ apply pushChunk_frozen | apply set_task_frozen
               | apply reject_frozen | apply push_frozen
               | apply flushChunks_frozen | apply set_nboundaries_frozen
               | apply set_iterator_frozen | apply set_kReading_frozen
               | apply set_kReadNext_frozen | apply set_kOnceResume_frozen
               | apply set_sources_frozen | apply set_pulled_frozen ] ] ].

Lemma streamFileField_frozen (file contentType : JsVal) (k : Cont)
    (s : FormDataStream) :
  frozen s (streamFileField full file contentType k s).
Proof.
  unfold streamFileField.
  destruct (truthy file); cbn [negb]; [|frozen_chain].
  destruct (has_length file); [frozen_chain|].
  destruct file; try frozen_chain.
  unfold readStream. destruct (readable _); frozen_chain.
Qed.

Lemma list_loop_frozen (name subBoundary : string) (filenameIndex : nat)
    (items : list JsVal) (s : FormDataStream) :
  frozen s (fst (list_loop full basename name subBoundary filenameIndex items s)).
Proof.
  destruct items as [|file rest]; cbn [list_loop fst]; [frozen_chain|].
  destruct (instanceof_Readable file).
  - destruct (basename _) as [b|e]; cbn [fst]; [|frozen_chain].
    eapply frozen_trans; [|apply streamFileField_frozen]. frozen_chain.
  - destruct (is_nullish file); cbn [fst]; [frozen_chain|].
    eapply frozen_trans; [|apply streamFileField_frozen]. frozen_chain.
Qed.

Lemma frame_entry_frozen (name : string) (content : JsVal) (s : FormDataStream) :
  frozen s (fst (frame_entry rand full basename name content s)).
Proof.
  unfold frame_entry.
  destruct (is_nullish content); cbn [fst]; [frozen_chain|].
  destruct (instanceof_Readable content || truthy (prop content "source")).
  - destruct (filename_of _ _) as [fn|e]; cbn [fst]; [|frozen_chain].
    eapply frozen_trans; [|apply streamFileField_frozen]. frozen_chain.
  - destruct content;
      try (cbn [fst]; eapply frozen_trans; [|apply streamFileField_frozen];
           frozen_chain).
    eapply frozen_trans; [|apply list_loop_frozen]. frozen_chain.
Qed.

Lemma finish_frozen (s : FormDataStream) : frozen s (finish full s).
Proof.
  intros H.
  destruct (finish_fields s) as (_ & _ & _ & _ & _ & _ & _ & _ & _ & He & Hd & Hp).
  rewrite H in He, Hp. rewrite orb_true_r in Hp. rewrite orb_false_r in He.
  rewrite app_nil_r in Hp. auto.
Qed.

Lemma idle_frozen (s : FormDataStream) : frozen s (idle s).
Proof. intros H. auto. Qed.

Lemma readNext_from_frozen (it : list (string * JsVal)) :
  forall s : FormDataStream, frozen s (readNext_from rand full basename it s).
Proof.
  induction it as [|[name content] it IH]; intros s; cbn [readNext_from].
  - eapply frozen_trans; [apply set_kReading_frozen | apply finish_frozen].
  - pose proof (frame_entry_frozen name content
                  (set_iterator it (set_kReading true s))) as H.
    destruct (frame_entry rand full basename name content
                (set_iterator it (set_kReading true s))) as [s1 left].
    cbn [fst] in H.
    assert (H1 : frozen s s1).
    { eapply frozen_trans; [|exact H]. frozen_chain. }
    destruct left; [|exact H1].
    destruct (kReadNext s1).
    + eapply frozen_trans; [exact H1 | apply IH].
    + eapply frozen_trans; [exact H1 | apply idle_frozen].
Qed.

Lemma after_field_frozen (s : FormDataStream) :
  frozen s (after_field rand full basename s).
Proof.
  unfold after_field. destruct (kReadNext s).
  - apply readNext_from_frozen.
  - apply idle_frozen.
Qed.

Lemma onceResume_frozen (id : nat) (k : Cont) (s : FormDataStream) :
  frozen s (onceResume id k s).
Proof. unfold onceResume. destruct (kOnceResume s); frozen_chain. Qed.

Lemma readChunk_frozen (id : nat) (k : Cont) (s : FormDataStream) :
  frozen s (readChunk full id k s).
Proof.
  unfold readChunk. destruct (avail (sources s id)) as [|c rest].
  - unfold readStream. destruct (readable _); frozen_chain.
  - match goal with
    | |- context [push full ?c ?t] =>
        pose proof (push_frozen c t) as H;
        assert (H0 : frozen s t) by frozen_chain;
        destruct (push full c t) as [s1 more]
    end.
    cbn [fst] in H.
    assert (H1 : frozen s s1) by (eapply frozen_trans; eassumption).
    destruct more.
    + eapply frozen_trans; [exact H1 | apply set_task_frozen].
    + eapply frozen_trans; [exact H1 | apply onceResume_frozen].
Qed.

Lemma _destroy_frozen (err : JsError) (s : FormDataStream) :
  frozen s (_destroy err s).
Proof.
  intros H. unfold _destroy, reject.
  destruct s as [its bd rd rn w cb ps en de nb srcs pl tk]; cbn in *.
  destruct w; cbn; auto. destruct tk; cbn; auto.
Qed.

Lemma notify_frozen (id : nat) (next : nat -> Cont -> Task) (s : FormDataStream) :
  frozen s (notify id next s).
Proof.
  unfold notify. destruct (task s); try apply frozen_refl.
  destruct (Nat.eqb _ _); [apply set_task_frozen | apply frozen_refl].
Qed.

Lemma frozen_step (e : Event) (s : FormDataStream) :
  frozen s (step rand full basename e s).
Proof.
  destruct e; cbn [step].
  - unfold _read. destruct (kReading s); [|apply readNext_from_frozen].
    destruct (kOnceResume s); try frozen_chain.
    match goal with
    | |- frozen _ (match task ?t with _ => _ end) =>
        assert (H0 : frozen s t) by frozen_chain; destruct (task t)
    end; exact H0.
  - unfold tick. destruct (task s) as [| |k|id k|id k|id k|id k|k];
      try apply frozen_refl.
    + destruct k as [|name sb idx rest]; cbn [resume].
      * apply after_field_frozen.
      * pose proof (list_loop_frozen name sb idx rest s) as H.
        destruct (list_loop full basename name sb idx rest s) as [s1 left].
        cbn [fst] in H. destruct left; [|exact H].
        eapply frozen_trans; [exact H | apply after_field_frozen].
    + destruct (readable _); [apply readChunk_frozen | apply set_task_frozen].
    + apply readChunk_frozen.
    + frozen_chain.
  - apply _destroy_frozen.
  - eapply frozen_trans; [apply set_sources_frozen | apply notify_frozen].
  - eapply frozen_trans; [apply set_sources_frozen | apply notify_frozen].
  - eapply frozen_trans; [apply set_sources_frozen | apply notify_frozen].
Qed.

Lemma frozen_run (evs : list Event) :
  forall s : FormDataStream, frozen s (run rand full basename evs s).
Proof.
  induction evs as [|e evs IH]; intros s; cbn [run].
  - apply frozen_refl.
  - eapply frozen_trans; [apply frozen_step | apply IH].
Qed.

(** ** End-of-stream is never taken back *)

Lemma readNext_from_ended (it : list (string * JsVal)) :
  forall s : FormDataStream,
    ended s = true -> ended (readNext_from rand full basename it s) = true.
Proof.
  induction it as [|[name content] it IH]; intros s He; cbn [readNext_from].
  - destruct (finish_fields (set_kReading true s))
      as (_ & _ & _ & _ & _ & _ & _ & _ & _ & He' & _).
    rewrite He'. cbn. rewrite He. reflexivity.
  - pose proof (frame_entry_shape name content
                  (set_iterator it (set_kReading true s))) as H.
    cbv zeta in H.
    destruct (frame_entry rand full basename name content
                (set_iterator it (set_kReading true s))) as [s1 left].
    cbn [fst snd] in H. destruct H as ((_ & _ & _ & _ & _ & He1 & _) & _).
    cbn in He1. rewrite He in He1.
    destruct left; [|exact He1].
    destruct (kReadNext s1); [now apply IH | exact He1].
Qed.

Lemma readChunk_ended (id : nat) (k : Cont) (s : FormDataStream) :
  ended (readChunk full id k s) = ended s.
Proof.
  unfold readChunk, readStream, onceResume, reject, push, errorOrDestroy, _destroy.
  destruct s as [its bd rd rn w cb ps en de nb srcs pl tk]; cbn.
  destruct (avail (srcs id)) as [|c rest]; cbn.
  - destruct (readable (srcs id)); reflexivity.
  - destruct en, de, w, tk; cbn; try destruct (full _); reflexivity.
Qed.

Lemma ended_step (e : Event) (s : FormDataStream) :
  ended s = true -> ended (step rand full basename e s) = true.
Proof.
  intros He. destruct e; cbn [step].
  - unfold _read. destruct (kReading s); [|now apply readNext_from_ended].
    destruct (kOnceResume s); cbn; auto. destruct (task s); cbn; auto.
  - unfold tick. destruct (task s) as [| |k|id k|id k|id k|id k|k]; auto.
    + assert (Haf : forall t, ended t = true ->
                ended (after_field rand full basename t) = true).
      { intros t Ht. unfold after_field.
        destruct (kReadNext t); [now apply readNext_from_ended | exact Ht]. }
      destruct k as [|name sb idx rest]; cbn [resume]; [now apply Haf|].
      pose proof (list_loop_shape name sb idx rest s) as H. cbv zeta in H.
      destruct (list_loop full basename name sb idx rest s) as [s1 left].
      cbn [fst snd] in H. destruct H as ((_ & _ & _ & _ & _ & He1 & _) & _).
      rewrite He in He1. destruct left; [now apply Haf | exact He1].
    + destruct (readable _); [rewrite readChunk_ended|]; exact He.
    + rewrite readChunk_ended. exact He.
    + destruct (push_framing (VStr lineBreak) s) as ((_ & _ & _ & _ & _ & He1 & _) & _).
      change (ended (fst (push full (VStr lineBreak) s)) = true). congruence.
  - unfold _destroy. cbn. destruct (kOnceResume s); cbn; auto.
    destruct (task s); cbn; auto.
  - unfold notify. cbn. destruct (task s); cbn; auto.
    destruct (Nat.eqb _ _); auto.
  - unfold notify. cbn. destruct (task s); cbn; auto.
    destruct (Nat.eqb _ _); auto.
  - unfold notify. cbn. destruct (task s); cbn; auto.
    destruct (Nat.eqb _ _); auto.
Qed.

Lemma ended_run (evs : list Event) :
  forall s : FormDataStream,
    ended s = true -> ended (run rand full basename evs s) = true.
Proof.
  induction evs as [|e evs IH]; intros s He; cbn [run]; [exact He|].
  apply IH. now apply ended_step.
Qed.
(** ** The multipart encoding of one buffer field *)

Lemma abc_live_step (e : Event) (s : FormDataStream) :
  destroyed s = false ->
  abc_live (generateBoundary rand 0) s ->
  abc_states (generateBoundary rand 0) (step rand full basename e s).
Proof.
  intros Hd (Hw & Hb & HB & H).
  destruct s as [it bd rd rn w cb ps en de nb srcs pl tk]; simpl in *.
  subst w cb bd de.
  destruct H as [(-> & -> & -> & -> & ->) | [(-> & -> & -> & -> & ->)
                | [(-> & -> & -> & -> & ->) | (-> & -> & -> & -> & ->)]]];
    destruct rn; destruct e; unfold abc_states, abc_live; str_norm;
    first [ intros H; first [discriminate H | reflexivity]
          | (split; [reflexivity|]); (split; [reflexivity|]); (split; [reflexivity|]);
            first [ left; repeat split; reflexivity
                  | right; left; repeat split; reflexivity
                  | right; right; left; repeat split; reflexivity
                  | right; right; right; repeat split; reflexivity ] ].
Qed.

Lemma abc_states_step (e : Event) (s : FormDataStream) :
  abc_states (generateBoundary rand 0) s ->
  abc_states (generateBoundary rand 0) (step rand full basename e s).
Proof.
  unfold abc_states at 1. destruct (destroyed s) eqn:Hd; intros H.
  - destruct (frozen_step e s Hd) as (Hd' & Hp & He).
    unfold abc_states. rewrite Hd', Hp, He. exact H.
  - now apply abc_live_step.
Qed.

(** The stream over the single entry follows the automaton as long as
    nothing destroys it. *)
Lemma in_phase_step (p : AbcPhase) (e : Event) (s : FormDataStream) :
  is_destroy e = false -> in_phase p s ->
  in_phase (abc_next p e) (step rand full basename e s).
Proof.
  intros He H. destruct p as [|d| |].
  - destruct H as (Hd & Hn & Hw & Hi & Hr & Ht & Hk).
    destruct s as [it bd rd rn w cb ps en de nb srcs pl tk]; simpl in *.
    subst de en w it rd tk rn.
    destruct e; try discriminate He; cbn; repeat split.
  - destruct H as (Hd & Hn & Hw & Hi & Hr & Ht & Hk).
    destruct s as [it bd rd rn w cb ps en de nb srcs pl tk]; simpl in *.
    subst de en w it rd tk rn.
    destruct e; try discriminate He; destruct d; cbn; repeat split.
  - destruct H as (Hd & Hn & Hw & Hi & Hr & Ht).
    destruct s as [it bd rd rn w cb ps en de nb srcs pl tk]; simpl in *.
    subst de en w it rd tk.
    destruct e; try discriminate He; cbn; repeat split.
  - assert (E : abc_next Done e = Done) by (destruct e; reflexivity).
    rewrite E. cbn [in_phase] in *. now apply ended_step.
Qed.

Lemma in_phase_run (evs : list Event) :
  forall (p : AbcPhase) (s : FormDataStream),
    no_destroy evs = true -> in_phase p s ->
    in_phase (abc_run p evs) (run rand full basename evs s).
Proof.
  induction evs as [|e evs IH]; intros p s Hev H; [exact H|].
  unfold no_destroy in Hev. cbn [forallb] in Hev.
  apply andb_true_iff in Hev as [He Hev]. apply negb_true_iff in He.
  cbn [run abc_run fold_left]. apply IH; [exact Hev|].
  now apply in_phase_step.
Qed.

Lemma abc_run_done (evs : list Event) : abc_run Done evs = Done.
Proof.
  induction evs as [|e evs IH]; [reflexivity|].
  cbn [abc_run fold_left]. destruct e; exact IH.
Qed.

Lemma abc_run_idle (evs : list Event) :
  existsb is_pull evs = true -> abc_run Idle evs = Done.
Proof.
  induction evs as [|e evs IH]; [discriminate|].
  cbn [existsb abc_run fold_left]. destruct e; cbn [is_pull orb abc_next];
    intros H; try exact (IH H).
  apply abc_run_done.
Qed.

Lemma abc_run_framed (evs : list Event) :
  forall d : bool,
    d || existsb is_pull evs = true -> existsb is_tick evs = true ->
    abc_run (Framed d) evs = Done.
Proof.
  induction evs as [|e evs IH]; intros d Hp Ht; [discriminate Ht|].
  cbn [existsb abc_run fold_left] in *.
  destruct e, d; cbn [is_pull is_tick orb abc_next] in *;
    first [ apply abc_run_done
          | apply abc_run_idle; exact Hp
          | apply (IH true); [reflexivity | exact Ht]
          | apply (IH false); assumption ].
Qed.

Lemma abc_run_fresh (pre rest : list Event) :
  no_pull pre = true ->
  existsb is_pull rest = true -> existsb is_tick rest = true ->
  abc_run Fresh (pre ++ Pull :: rest) = Done.
Proof.
  intros Hpre Hp Ht. unfold abc_run. rewrite fold_left_app.
  assert (E : fold_left abc_next pre Fresh = Fresh).
  { clear Hp Ht. induction pre as [|e pre IH]; [reflexivity|].
    unfold no_pull in Hpre. cbn [forallb] in Hpre.
    apply andb_true_iff in Hpre as [He Hpre].
    destruct e; try discriminate He; cbn [fold_left abc_next]; exact (IH Hpre). }
  rewrite E. cbn [fold_left abc_next].
  apply (abc_run_framed rest false); assumption.
Qed.

(** C1. For [{file: {source: <abc>, filename: "f.txt", contentType:
    "text/plain"}}] the multipart encoding returns the header
    [multipart/form-data; boundary=B; charset=UTF-8] and a stream with the
    same boundary [B]. The stream ends on every schedule on which nothing
    destroys it and the first pull is followed, in whatever order and
    among whatever else, by a resumption of the coroutine and by a second
    pull; and whenever it has ended, on any schedule at all, its bytes
    are exactly one field frame followed by [--B--]. *)
Theorem multipart_single_buffer_field :
  forall (type_prop : JsVal) (srcs : nat -> Source),
    let B := generateBoundary rand 0 in
    let r := serializeFormData rand
               (mkFormData type_prop [("file", Sample.abc_file)])
               multipart_type srcs in
    content_type r = "multipart/form-data; boundary=" ++ B ++ "; charset=UTF-8"
    /\ exists s0,
         body r = BodyStream s0
         /\ boundary s0 = B
         /\ (forall pre rest : list Event,
               no_pull pre = true ->
               no_destroy (pre ++ Pull :: rest) = true ->
               existsb is_pull rest = true ->
               existsb is_tick rest = true ->
               ended (run rand full basename (pre ++ Pull :: rest) s0) = true)
         /\ (forall evs : list Event,
               ended (run rand full basename evs s0) = true ->
               body_bytes (run rand full basename evs s0)
               = spec_file_frame B "file" "f.txt" "text/plain" "abc"
                 ++ spec_closing B).
Proof.
  intros type_prop srcs B r. split; [reflexivity|].
  exists (new_FormDataStream rand [("file", Sample.abc_file)] srcs).
  split; [reflexivity|]. split; [reflexivity|]. split.
  - intros pre rest Hpre Hnd Hp Ht.
    pose proof (in_phase_run (pre ++ Pull :: rest) Fresh
                  (new_FormDataStream rand [("file", Sample.abc_file)] srcs) Hnd)
      as H.
    rewrite (abc_run_fresh pre rest Hpre Hp Ht) in H.
    apply H. cbn. repeat split.
  - intros evs Hend.
    assert (Hinv : abc_states B
              (run rand full basename evs
                 (new_FormDataStream rand [("file", Sample.abc_file)] srcs))).
    { apply run_invariant; [intros e s; apply abc_states_step|].
      unfold abc_states, abc_live. simpl. repeat split. left. repeat split. }
    assert (Hp : pushed (run rand full basename evs
                   (new_FormDataStream rand [("file", Sample.abc_file)] srcs))
                 = (abc_frame B ++ [VStr (spec_closing B)])%list).
    { unfold abc_states in Hinv. destruct (destroyed _); [exact (Hinv Hend)|].
      destruct Hinv as (_ & _ & _ & [H | [H | [H | H]]]);
        destruct H as (_ & Hp & _ & _ & He); congruence. }
    unfold body_bytes. rewrite Hp. unfold B.
    unfold spec_file_frame, spec_closing, abc_frame, spec_file_header.
    str_norm. reflexivity.
Qed.

(** ** Reachable states are consistent *)

Lemma same_output_refl (s : FormDataStream) : same_output s s.
Proof. repeat split. Qed.

Lemma same_output_trans (s1 s2 s3 : FormDataStream) :
  same_output s1 s2 -> same_output s2 s3 -> same_output s1 s3.
Proof.
  unfold same_output.
  intros (? & ? & ? & ? & ?) (? & ? & ? & ? & ?). repeat split; congruence.
Qed.

Lemma reachable_consistent (s : FormDataStream) :
  reachable rand full basename s -> consistent s.
Proof.
  intros (it & srcs & evs & ->).
  apply run_invariant; [intros e s; apply consistent_step|].
  split; [reflexivity | discriminate].
Qed.

Lemma reachable_step (e : Event) (s : FormDataStream) :
  reachable rand full basename s ->
  reachable rand full basename (step rand full basename e s).
Proof.
  intros (it & srcs & evs & ->).
  exists it, srcs, (evs ++ [e])%list. now rewrite run_app.
Qed.

(** ** A coroutine that ended by an exception stays ended *)

Lemma rejected_step (err : JsError) (e : Event) (s : FormDataStream) :
  task s = Rejected err -> kReading s = true ->
  let s' := step rand full basename e s in
  task s' = Rejected err /\ kReading s' = true /\ same_output s s'.
Proof.
  intros Ht Hr.
  destruct s as [its bd rd rn w cb ps en de nb srcs pl tk]; cbn in *.
  subst tk rd.
  destruct e; cbn; unfold same_output; cbn;
    try (destruct w; cbn; repeat split; fail);
    repeat split.
Qed.

Lemma rejected_run (err : JsError) (evs : list Event) :
  forall s : FormDataStream,
    task s = Rejected err -> kReading s = true ->
    let s' := run rand full basename evs s in
    task s' = Rejected err /\ kReading s' = true /\ same_output s s'.
Proof.
  induction evs as [|e evs IH]; intros s Ht Hr; cbn [run].
  - repeat split; assumption.
  - destruct (rejected_step err e s Ht Hr) as (Ht1 & Hr1 & Ho1).
    destruct (IH _ Ht1 Hr1) as (Ht2 & Hr2 & Ho2).
    repeat split; try assumption.
    all: eapply same_output_trans; eassumption.
Qed.

(** ** A parked coroutine moves only by a pull *)

Lemma parked_step (e : Event) (s : FormDataStream) :
  parked (task s) = true -> is_pull e = false ->
  let s' := step rand full basename e s in
  parked (task s') = true /\ kReading s' = kReading s /\ same_output s s'.
Proof.
  intros Hp He.
  destruct s as [its bd rd rn w cb ps en de nb srcs pl tk]; cbn in *.
  destruct tk; try discriminate Hp;
    destruct e; try discriminate He; cbn; unfold same_output; cbn;
    try (destruct w; cbn; repeat split; fail);
    repeat split.
Qed.

Lemma parked_run (evs : list Event) :
  forall s : FormDataStream,
    parked (task s) = true -> no_pull evs = true ->
    let s' := run rand full basename evs s in
    parked (task s') = true /\ kReading s' = kReading s /\ same_output s s'.
Proof.
  induction evs as [|e evs IH]; intros s Hp Hev; cbn [run].
  - split; [assumption | split; [reflexivity | apply same_output_refl]].
  - unfold no_pull in Hev. cbn [forallb] in Hev.
    apply andb_true_iff in Hev as [He Hev].
    apply negb_true_iff in He.
    destruct (parked_step e s Hp He) as (Hp1 & Hr1 & Ho1).
    destruct (IH _ Hp1 Hev) as (Hp2 & Hr2 & Ho2).
    split; [assumption | split; [congruence|]].
    eapply same_output_trans; eassumption.
Qed.

(** ** Backpressure and cancellation *)

(** C7. When the coroutine reads a chunk from the upstream source and
    the push of that chunk reports the downstream buffer as full, then as
    long as no pull arrives (whatever else happens: resumptions,
    upstream events, destruction) no further chunk is read from the
    source and nothing more is pushed, however many chunks the source
    holds or receives. The chunk read is delivered, unless the stream was
    destroyed before: then the base class drops it and answers as for a
    full buffer, and the coroutine waits all the same. *)
Theorem backpressure_stops_upstream_reads :
  forall (s : FormDataStream) (id : nat) (k : Cont) (chunk : string)
         (rest : list string) (evs : list Event),
    task s = Reading id k
    \/ (task s = AfterEvent id k /\ readable (sources s id) = true) ->
    avail (sources s id) = chunk :: rest ->
    ended s = false ->
    full (List.length (pushed s)) = true ->
    no_pull evs = true ->
    let s1 := step rand full basename Tick s in
    let s2 := run rand full basename evs s1 in
    pulled s1 = S (pulled s)
    /\ pushed s1 = (if destroyed s then pushed s
                    else pushed s ++ [VBuffer chunk])%list
    /\ pulled s2 = S (pulled s)
    /\ pushed s2 = (if destroyed s then pushed s
                    else pushed s ++ [VBuffer chunk])%list.
Proof.
  intros s id k chunk rest evs Ht Hav Hend Hfull Hev s1 s2.
  assert (Hs1 : s1 = readChunk full id k s).
  { subst s1. cbn [step]. unfold tick.
    destruct Ht as [-> | [-> ->]]; reflexivity. }
  assert (H1 : pulled s1 = S (pulled s)
               /\ pushed s1 = (if destroyed s then pushed s
                               else pushed s ++ [VBuffer chunk])%list
               /\ parked (task s1) = true).
  { rewrite Hs1. unfold readChunk, push, errorOrDestroy, onceResume, reject.
    rewrite Hav.
    destruct s as [its bd rd rn w cb ps en de nb srcs pl tk]; cbn in *.
    subst en. destruct de; cbn; rewrite ?Hfull; cbn;
      destruct w; cbn; repeat split. }
  destruct H1 as (Hp1 & Hq1 & Hpark).
  destruct (parked_run evs s1 Hpark Hev) as (_ & _ & Ho).
  destruct Ho as (_ & Hq2 & _ & Hp2 & _).
  fold s2 in Hq2, Hp2.
  repeat split; congruence.
Qed.

(** C8. In every reachable state in which the coroutine is suspended on
    a backpressure wait, destroying the stream rejects that wait, the
    coroutine ends by the rejection, and whatever happens afterwards no
    entry is taken from the iterator, nothing is pushed or accumulated,
    and no chunk is read upstream. *)
Theorem destroy_rejects_backpressure_wait :
  forall (s : FormDataStream) (id : nat) (k : Cont) (err : JsVal)
         (evs : list Event),
    reachable rand full basename s ->
    task s = WaitResume id k ->
    let s1 := step rand full basename (Destroy err) s in
    let s2 := run rand full basename evs s1 in
    kOnceResume s = Pending
    /\ kOnceResume s1 = WRejected (Thrown err)
    /\ task s1 = Rejected (Thrown err)
    /\ task s2 = Rejected (Thrown err)
    /\ same_output s s2.
Proof.
  intros s id k err evs Hreach Ht s1 s2.
  destruct (reachable_consistent s Hreach) as [Hidle Hwait].
  pose proof (Hwait id k Ht) as Hw.
  assert (Hr : kReading s = true).
  { destruct (kReading s) eqn:E; [reflexivity|].
    specialize (Hidle eq_refl). congruence. }
  assert (H1 : kOnceResume s1 = WRejected (Thrown err)
               /\ task s1 = Rejected (Thrown err)
               /\ kReading s1 = true /\ same_output s s1).
  { subst s1. cbn [step]. unfold _destroy, reject.
    destruct s as [its bd rd rn w cb ps en de nb srcs pl tk]; cbn in *.
    subst w tk rd. cbn. repeat split. }
  destruct H1 as (Hw1 & Ht1 & Hr1 & Ho1).
  destruct (rejected_run (Thrown err) evs s1 Ht1 Hr1) as (Ht2 & _ & Ho2).
  repeat split; try assumption.
  all: eapply same_output_trans; eassumption.
Qed.

(** ** The pull scheduler *)

Lemma readChunk_kReadNext (id : nat) (k : Cont) (s : FormDataStream) :
  kReadNext (readChunk full id k s) = kReadNext s.
Proof.
  unfold readChunk, readStream, onceResume, reject, push, errorOrDestroy, _destroy.
  destruct s as [its bd rd rn w cb ps en de nb srcs pl tk]; cbn.
  destruct (avail (srcs id)); cbn.
  - destruct (readable (srcs id)); reflexivity.
  - destruct en, de, w, tk; cbn; try destruct (full _); reflexivity.
Qed.

Lemma after_field_kReadNext (s : FormDataStream) :
  kReadNext (after_field rand full basename s) = kReadNext s.
Proof.
  unfold after_field. destruct (kReadNext s) eqn:E.
  - rewrite (proj1 (readNext_shape s)). exact E.
  - exact E.
Qed.

(** Nothing in the class clears [kReadNext]: a deferred pull, once
    recorded, stays recorded. *)
Lemma kReadNext_stays_set (e : Event) (s : FormDataStream) :
  kReadNext s = true -> kReadNext (step rand full basename e s) = true.
Proof.
  intros Hn. destruct e; cbn [step].
  - unfold _read. destruct (kReading s).
    + destruct (kOnceResume s); cbn; auto.
      destruct (task s); cbn; auto.
    + rewrite (proj1 (readNext_shape s)). exact Hn.
  - unfold tick. destruct (task s) as [| |k|id k|id k|id k|id k|k]; auto.
    + destruct k as [|name sb idx rest]; cbn [resume].
      * rewrite after_field_kReadNext. exact Hn.
      * pose proof (list_loop_shape name sb idx rest s) as H. cbv zeta in H.
        destruct (list_loop full basename name sb idx rest s) as [s1 left].
        cbn [fst snd] in H. destruct H as ((Hk & _) & _).
        destruct left; [rewrite after_field_kReadNext|]; congruence.
    + destruct (readable (sources s id)); [|exact Hn].
      rewrite readChunk_kReadNext. exact Hn.
    + rewrite readChunk_kReadNext. exact Hn.
    + destruct (push_framing (VStr lineBreak) s) as ((Hk & _) & _).
      change (kReadNext (fst (push full (VStr lineBreak) s)) = true). congruence.
  - unfold _destroy. cbn. destruct (kOnceResume s); cbn; auto.
    destruct (task s); cbn; auto.
  - unfold notify. cbn. destruct (task s); cbn; auto.
    destruct (Nat.eqb _ _); auto.
  - unfold notify. cbn. destruct (task s); cbn; auto.
    destruct (Nat.eqb _ _); auto.
  - unfold notify. cbn. destruct (task s); cbn; auto.
    destruct (Nat.eqb _ _); auto.
Qed.

(** C6, amended. A pull that arrives while a production cycle is in
    flight starts no second production (no entry is taken, nothing is
    pushed). It records a deferred request when [kOnceResume] holds no
    entry; when a backpressure wait is pending it resumes the waiting
    coroutine and records nothing; and when the entry is a wait that a
    destruction rejected it only clears the entry and records nothing.
    When a cycle completes with a deferred request recorded, the next
    cycle starts at once (the next entry is taken or, when none is left,
    the stream ends unless it was destroyed); with none recorded the
    scheduler becomes idle and produces nothing until a pull arrives. *)
Theorem pull_in_flight_and_cycle_completion :
  forall s : FormDataStream,
    (kReading s = true ->
     let s' := step rand full basename Pull s in
     same_output s s' /\ kReading s' = true
     /\ (kOnceResume s = NoWaiter -> kReadNext s' = true /\ task s' = task s)
     /\ (kOnceResume s = Pending ->
         kReadNext s' = kReadNext s /\ kOnceResume s' = NoWaiter
         /\ forall id k, task s = WaitResume id k -> task s' = Reading id k)
     /\ (forall e, kOnceResume s = WRejected e ->
         kReadNext s' = kReadNext s /\ kOnceResume s' = NoWaiter
         /\ task s' = task s))
    /\ (forall c, completing full basename s = Some c ->
        (kReadNext s = true ->
         step rand full basename Tick s = readNext rand full basename c
         /\ (forall e rest, iterator s = e :: rest ->
               List.length (iterator (step rand full basename Tick s))
               <= List.length rest)
         /\ (iterator s = [] ->
               ended (step rand full basename Tick s)
               = (ended s || negb (destroyed s))))
        /\ (kReadNext s = false ->
            forall evs, no_pull evs = true ->
            let s' := step rand full basename Tick s in
            kReading s' = false /\ task s' = Settled
            /\ same_output c (run rand full basename evs s')
            /\ kReading (run rand full basename evs s') = false)).
Proof.
  intros s. split.
  - intros Hr s'. subst s'. cbn [step]. unfold _read. rewrite Hr.
    destruct s as [its bd rd rn w cb ps en de nb srcs pl tk]; cbn in *. subst rd.
    destruct w; cbn.
    + repeat split; discriminate.
    + destruct tk; cbn; repeat split; try discriminate.
      intros id' k' E. injection E as -> ->. reflexivity.
    + repeat split; discriminate.
  - intros c Hc.
    assert (Hstep : step rand full basename Tick s = after_field rand full basename c
                    /\ iterator c = iterator s /\ kReadNext c = kReadNext s
                    /\ ended c = ended s /\ destroyed c = destroyed s).
    { unfold completing in Hc. cbn [step]. unfold tick.
      destruct (task s) as [| |k|id k|id k|id k|id k|k]; try discriminate Hc.
      destruct k as [|name sb idx rest].
      - injection Hc as <-. repeat split.
      - destruct rest; [|discriminate Hc]. injection Hc as <-.
        cbn. repeat split. }
    destruct Hstep as (Hstep & Hit & Hkn & Hen & Hde).
    rewrite Hstep. unfold after_field. rewrite Hkn. split; intros Hn; rewrite Hn.
    + split; [reflexivity|]. split.
      * intros e rest E. unfold readNext. rewrite Hit, E.
        pose proof (readNext_from_shape (e :: rest) c) as H. cbv zeta in H.
        destruct H as (_ & _ & _ & _ & _ & _ & Hl & _).
        exact (Hl e rest eq_refl).
      * intros E. unfold readNext. rewrite Hit, E. cbn [readNext_from].
        destruct (finish_fields (set_kReading true c))
          as (_ & _ & _ & _ & _ & _ & _ & _ & _ & He' & _).
        rewrite He'. cbn. now rewrite Hen, Hde.
    + intros evs Hev.
      assert (Hpark : parked (task (idle c)) = true) by reflexivity.
      destruct (parked_run evs (idle c) Hpark Hev) as (_ & Hr2 & Ho2).
      cbv zeta. split; [reflexivity|]. split; [reflexivity|]. split.
      * destruct Ho2 as (? & ? & ? & ? & ?). repeat split; assumption.
      * rewrite Hr2. reflexivity.
Qed.

(** ** Values that are neither text, buffer nor stream *)

Lemma streamFileField_invalid (file contentType : JsVal) (k : Cont)
    (s : FormDataStream) :
  has_length file = false -> instanceof_Readable file = false ->
  streamFileField full file contentType k s
  = reject (invalid_source_error file) s.
Proof.
  intros Hl Hr. unfold streamFileField, invalid_source_error.
  destruct (truthy file); cbn [negb]; [|reflexivity].
  rewrite Hl. destruct file; try reflexivity. discriminate Hr.
Qed.

Lemma frame_entry_invalid (name : string) (content : JsVal) (s : FormDataStream) :
  invalid_field content = true ->
  exists e s',
    frame_entry rand full basename name content s = (s', false)
    /\ task s' = Rejected e
    /\ pushed s' = pushed s /\ iterator s' = iterator s
    /\ kReading s' = kReading s /\ ended s' = ended s
    /\ destroyed s' = destroyed s
    /\ (is_nullish content = true -> e = TypeError "source")
    /\ (is_nullish content = false ->
        e = invalid_source_error (payload content)
        \/ (truthy (prop content "source") = true
            /\ filename_of basename content name = Throw e)).
Proof.
  unfold invalid_field. intros H.
  apply andb_true_iff in H as [Harr H]. apply negb_true_iff in Harr.
  unfold frame_entry.
  destruct (is_nullish content) eqn:Hnull.
  - eexists; eexists; split; [reflexivity|].
    cbn. repeat split. discriminate.
  - cbn [orb] in H. apply andb_true_iff in H as [Hl Hr].
    apply negb_true_iff in Hl. apply negb_true_iff in Hr.
    destruct (instanceof_Readable content || truthy (prop content "source")) eqn:Hn.
    + fold (payload content).
      destruct (filename_of basename content name) as [fn|e] eqn:Hfn.
      * rewrite (streamFileField_invalid _ _ _ _ Hl Hr).
        eexists; eexists; split; [reflexivity|].
        cbn. repeat split; try discriminate. intros _. left. reflexivity.
      * eexists; eexists; split; [reflexivity|].
        cbn. repeat split; try discriminate. intros _. right.
        split; [|reflexivity].
        destruct (instanceof_Readable content) eqn:Hir; [|exact Hn].
        destruct content; try discriminate Hir.
        unfold payload in Hr. cbn in Hr.
        destruct path; cbn in Hr; discriminate Hr.
    + apply orb_false_iff in Hn as [Hnr Hns].
      assert (Hp : payload content = content).
      { unfold payload. now apply js_or_falsy. }
      rewrite Hp in Hl, Hr. rewrite Hp.
      destruct content; try discriminate Harr;
        rewrite (streamFileField_invalid _ _ _ _ Hl Hr);
        (eexists; eexists; split; [reflexivity|]);
        cbn; repeat split; try discriminate; intros _; left; reflexivity.
Qed.

Lemma rejected_run_live (err : JsError) (evs : list Event) :
  forall s : FormDataStream,
    task s = Rejected err -> kReading s = true -> no_destroy evs = true ->
    destroyed (run rand full basename evs s) = destroyed s.
Proof.
  induction evs as [|e evs IH]; intros s Ht Hr Hev; [reflexivity|].
  unfold no_destroy in Hev. cbn [forallb] in Hev.
  apply andb_true_iff in Hev as [He Hev]. apply negb_true_iff in He.
  destruct (rejected_step err e s Ht Hr) as (Ht1 & Hr1 & _).
  cbn [run]. rewrite (IH _ Ht1 Hr1 Hev).
  destruct s as [its bd rd rn w cb ps en de nb srcs pl tk]; cbn in *.
  subst tk rd.
  destruct e; try discriminate He; cbn; try reflexivity;
    destruct w; reflexivity.
Qed.

(** C9, as the code has it. When the next entry of the iterator is a
    field whose value is neither text or buffer by the length test nor a
    stream (or is null or undefined), the production cycle that frames
    it, started by a pull on the idle stream or chained to the previous
    cycle, ends by an exception before any byte of the field is pushed.
    The exception only rejects the promise that [_read] returned: the
    class catches it nowhere and hands it to the stream nowhere, so the
    stream is not destroyed by it, and whatever happens afterwards
    nothing more is pushed, no further entry is taken from the iterator,
    end-of-stream is never signalled, and as long as nothing outside
    destroys the stream it stays undestroyed: the consumer is told
    neither an error nor the end. The exception is the TypeError of
    reading [source] from null or undefined, the assertion failure or
    the non-Readable error of [streamFileField], unless the value carries
    a source and resolving its filename already threw. *)
Theorem invalid_source_stream_not_errored :
  forall (s : FormDataStream) (name : string) (content : JsVal)
         (rest : list (string * JsVal)) (evs : list Event),
    iterator s = (name, content) :: rest ->
    invalid_field content = true ->
    let s1 := readNext rand full basename s in
    let s2 := run rand full basename evs s1 in
    exists e,
      task s1 = Rejected e
      /\ pushed s1 = pushed s
      /\ destroyed s1 = destroyed s
      /\ task s2 = Rejected e
      /\ pushed s2 = pushed s
      /\ iterator s2 = rest
      /\ ended s2 = ended s
      /\ (no_destroy evs = true -> destroyed s2 = destroyed s)
      /\ (kReading s = false -> step rand full basename Pull s = s1)
      /\ (is_nullish content = true -> e = TypeError "source")
      /\ (is_nullish content = false ->
          e = invalid_source_error (payload content)
          \/ (truthy (prop content "source") = true
              /\ filename_of basename content name = Throw e)).
Proof.
  intros s name content rest evs Hit Hinv s1 s2.
  destruct (frame_entry_invalid name content
              (set_iterator rest (set_kReading true s)) Hinv)
    as (e & s' & Hfe & Ht & Hp & Hi & Hr & He & Hd & Hnull & Herr).
  assert (Hs1 : s1 = s').
  { subst s1. unfold readNext. rewrite Hit. cbn [readNext_from].
    rewrite Hfe. reflexivity. }
  cbn in Hp, Hi, Hr, He, Hd.
  destruct (rejected_run e evs s') as (Ht2 & _ & Ho2); [assumption..|].
  destruct Ho2 as (Hi2 & Hp2 & _ & _ & He2).
  exists e. subst s2. rewrite Hs1.
  repeat split; try congruence.
  - intros Hev. rewrite (rejected_run_live e evs s' Ht Hr Hev). exact Hd.
  - intros Hidle. rewrite <- Hs1. subst s1. cbn [step]. unfold _read.
    now rewrite Hidle.
  - exact Hnull.
  - exact Herr.
Qed.

(** C10. A payload that is the empty string or a zero-length buffer
    fails the length test of [streamFileField]: the empty string fails the
    assertion and the empty buffer is rejected as non-Readable. So a
    field whose value, or whose [source], is empty ends the production
    cycle by an exception with nothing pushed, at top level and as an
    item of an array alike. *)
Theorem empty_payload_rejected :
  (forall (contentType : JsVal) (k : Cont) (s : FormDataStream),
      streamFileField full (VStr EmptyString) contentType k s
      = reject AssertionError s
      /\ streamFileField full (VBuffer EmptyString) contentType k s
         = reject (Error "Received non-Readable stream ") s)
  /\ (forall (s : FormDataStream) (name : string) (content : JsVal),
        content = VStr EmptyString \/ content = VBuffer EmptyString
        \/ prop content "source" = VBuffer EmptyString
        \/ (prop content "source" = VStr EmptyString /\ has_length content = false) ->
        let r := frame_entry rand full basename name content s in
        exists e, task (fst r) = Rejected e /\ snd r = false
                  /\ pushed (fst r) = pushed s)
  /\ (forall (s : FormDataStream) (name subBoundary : string) (index : nat)
             (file : JsVal) (rest : list JsVal),
        prop file "source" = VStr EmptyString
        \/ prop file "source" = VBuffer EmptyString ->
        let r := list_loop full basename name subBoundary index (file :: rest) s in
        exists e, task (fst r) = Rejected e /\ snd r = false
                  /\ pushed (fst r) = pushed s).
Proof.
  split; [|split].
  - intros contentType k s. split; reflexivity.
  - intros s name content H r.
    assert (Hinv : invalid_field content = true).
    { destruct H as [-> | [-> | [H | [H Hl]]]]; try reflexivity.
      - destruct content as [| | | | |id [p|]| |props];
          cbn in H; try discriminate H.
        unfold invalid_field, payload. cbn. rewrite H. reflexivity.
      - destruct content as [| | | | |id [p|]| |props];
          cbn in H; try discriminate H.
        unfold invalid_field, payload. cbn [prop]. rewrite H.
        cbn. cbn in Hl. rewrite Hl. reflexivity. }
    destruct (frame_entry_invalid name content s Hinv)
      as (e & s' & Hfe & Ht & Hp & _).
    exists e. subst r. rewrite Hfe. cbn. auto.
  - intros s name sb idx file rest H r. subst r. cbn [list_loop].
    assert (Hobj : instanceof_Readable file = false /\ is_nullish file = false).
    { destruct H as [H | H];
        destruct file as [| | | | |id [p|]| |props];
        cbn in H; try discriminate H; split; reflexivity. }
    destruct Hobj as [-> ->].
    destruct H as [-> | ->].
    + eexists. cbn. repeat split.
    + eexists. cbn. repeat split.
Qed.

(** ** An array field *)

(** C5. For the single field [docs: [{source: "abc"}]] the stream,
    pulled to its end, has delivered the opening of the nested part, the
    sub-frame of the item and the closing delimiter of the body, but not
    the closing delimiter of the nested part: that text is still in the
    accumulator when end-of-stream is signalled. And an item that is a
    bare string, as in [docs: ["abc"]], fails the assertion of
    [streamFileField], which receives its absent [source]. *)
Theorem list_field_nested_closing_not_delivered :
  forall srcs : nat -> Source,
    let B := generateBoundary rand 0 in
    let S := generateBoundary rand 1 in
    let s := run rand full basename [Pull; Tick; Pull]
               (new_FormDataStream rand
                  [("docs", VArray [VObject [("source", VStr "abc")]])] srcs) in
    ended s = true
    /\ body_bytes s
       = spec_list_open B "docs" S
         ++ spec_sub_frame S "docs-0" "text/plain" "abc"
         ++ spec_closing B
    /\ kChunkBuffer s = spec_closing S ++ lineBreak
    /\ task (run rand full basename [Pull]
               (new_FormDataStream rand [("docs", VArray [VStr "abc"])] srcs))
       = Rejected AssertionError.
Proof.
  intros srcs B S s. subst s B S.
  unfold body_bytes, spec_list_open, spec_sub_frame, spec_closing.
  repeat split; str_norm; reflexivity.
Qed.

(** ** A mapping of text fields, on every schedule *)
Lemma append_empty_r (a : string) : a ++ EmptyString = a.
Proof.
  induction a as [|x a IH]; simpl; [reflexivity | now rewrite IH].
Qed.

Lemma concat_empty_cons (x : string) (l : list string) :
  String.concat EmptyString (x :: l) = x ++ String.concat EmptyString l.
Proof.
  destruct l as [|y l]; cbn [String.concat].
  - now rewrite append_empty_r.
  - reflexivity.
Qed.

Lemma concat_empty_app (l1 l2 : list string) :
  String.concat EmptyString (l1 ++ l2)
  = String.concat EmptyString l1 ++ String.concat EmptyString l2.
Proof.
  induction l1 as [|x l1 IH].
  - reflexivity.
  - rewrite <- app_comm_cons, !concat_empty_cons, IH, append_assoc. reflexivity.
Qed.

Lemma readNext_text (n v : string) (c : ascii) (it : list (string * JsVal))
    (s : FormDataStream) :
  iterator s = (n, VStr (String c v)) :: it ->
  ended s = false -> destroyed s = false -> kChunkBuffer s = EmptyString ->
  let s' := readNext rand full basename s in
  iterator s' = it
  /\ pushed s' = (pushed s ++ text_chunks (boundary s) (n, String c v))%list
  /\ kReading s' = true /\ task s' = Ret AfterField
  /\ kChunkBuffer s' = EmptyString /\ ended s' = false
  /\ kOnceResume s' = kOnceResume s /\ boundary s' = boundary s
  /\ destroyed s' = false.
Proof.
  intros Hit Hend Hlive Hbuf.
  destruct s as [its bd rd rn w cb ps en de nb srcs pl tk]; cbn in *.
  subst its en de cb. unfold readNext. cbn [iterator readNext_from].
  unfold text_chunks, spec_text_header. str_norm.
  rewrite <- !app_assoc. repeat split.
Qed.

(** [readNext] on the exhausted iterator of a stream that is not
    destroyed: the closing delimiter and end-of-stream, or, when the
    stream has ended already, its destruction by the refused push. *)
Lemma finish_live (s : FormDataStream) :
  destroyed s = false ->
  let s' := finish full (set_kReading true s) in
  iterator s' = iterator s /\ kReading s' = false /\ task s' = Settled
  /\ kChunkBuffer s' = kChunkBuffer s
  /\ (kOnceResume s <> Pending -> kOnceResume s' = kOnceResume s)
  /\ boundary s' = boundary s
  /\ ended s' = true
  /\ destroyed s' = ended s
  /\ pushed s' = (pushed s ++ (if ended s then []
                               else [VStr (spec_closing (boundary s))]))%list.
Proof.
  intros Hd.
  destruct s as [its bd rd rn w cb ps en de nb srcs pl tk]; cbn in *. subst de.
  unfold finish, push_null, push, errorOrDestroy, _destroy, reject, spec_closing.
  destruct en; cbn; rewrite ?app_nil_r; try (fields; fail);
    destruct w; try (fields; fail); destruct tk; fields.
Qed.

(** What [readNext] does in a state in which the scheduler is between two
    text fields. *)
Lemma readNext_text_states (pairs : list (string * string)) (s : FormDataStream) :
  nonempty_values pairs = true ->
  destroyed s = false ->
  (exists done rest,
    pairs = (done ++ rest)%list
    /\ kOnceResume s = NoWaiter /\ kChunkBuffer s = EmptyString
    /\ boundary s = generateBoundary rand 0
    /\ iterator s = text_entries rest
    /\ pushed s = (flat_map (text_chunks (generateBoundary rand 0)) done
                   ++ (if ended s then [VStr (spec_closing (generateBoundary rand 0))] else []))%list
    /\ (ended s = true -> rest = [])) ->
  text_inv (generateBoundary rand 0) pairs (readNext rand full basename s).
Proof.
  intros Hne Hlive (done & rest & Hp & Hw & Hb & HB & Hit & Hpu & Hend).
  assert (Hnp : kOnceResume s <> Pending) by (rewrite Hw; discriminate).
  destruct rest as [|[n v] rest].
  - unfold readNext. rewrite Hit. cbn [text_entries map readNext_from].
    destruct (finish_live s Hlive) as (Hi & Hr & Ht & Hc & Hw' & HB' & He & Hd & Hpu').
    rewrite app_nil_r in Hp. subst done.
    unfold text_inv. rewrite Hd. destruct (ended s) eqn:Hes.
    + intros _. rewrite Hpu', Hpu, app_nil_r. reflexivity.
    + exists pairs, []. rewrite He.
      split; [now rewrite app_nil_r|]. split; [rewrite (Hw' Hnp); exact Hw|].
      split; [congruence|]. split; [congruence|]. split; [congruence|].
      split; [rewrite Hpu', Hpu, HB, app_nil_r; reflexivity|].
      split; [reflexivity|]. left. split; assumption.
  - assert (Hv : nonempty v = true).
    { subst pairs. unfold nonempty_values in Hne. rewrite forallb_app in Hne.
      apply andb_true_iff in Hne as [_ Hne]. cbn in Hne.
      now apply andb_true_iff in Hne as [Hne _]. }
    destruct v as [|c v]; [discriminate Hv|].
    assert (He : ended s = false).
    { destruct (ended s); [|reflexivity]. specialize (Hend eq_refl). discriminate. }
    destruct (readNext_text n v c (text_entries rest) s Hit He Hlive Hb)
      as (Hi & Hpu' & Hr & Ht & Hc & He' & Hw' & HB' & Hd').
    unfold text_inv. rewrite Hd'.
    exists (done ++ [(n, String c v)])%list, rest. rewrite He'.
    repeat split; try congruence.
    + rewrite Hp, <- app_assoc. reflexivity.
    + rewrite Hpu', Hpu, He, HB, flat_map_app. cbn [flat_map].
      rewrite !app_nil_r. reflexivity.
    + right. repeat split; assumption.
Qed.

Lemma text_live_step (pairs : list (string * string)) (e : Event)
    (s : FormDataStream) :
  nonempty_values pairs = true ->
  destroyed s = false ->
  text_states (generateBoundary rand 0) pairs s ->
  text_inv (generateBoundary rand 0) pairs (step rand full basename e s).
Proof.
  intros Hne Hlive (done & rest & Hp & Hw & Hb & HB & Hit & Hpu & Hend & Hph).
  assert (Hcore : exists done rest,
    pairs = (done ++ rest)%list
    /\ kOnceResume s = NoWaiter /\ kChunkBuffer s = EmptyString
    /\ boundary s = generateBoundary rand 0
    /\ iterator s = text_entries rest
    /\ pushed s = (flat_map (text_chunks (generateBoundary rand 0)) done
                   ++ (if ended s then [VStr (spec_closing (generateBoundary rand 0))] else []))%list
    /\ (ended s = true -> rest = [])).
  { exists done, rest. repeat split; assumption. }
  assert (Hsame : forall s', destroyed s' = false ->
            kOnceResume s' = NoWaiter -> kChunkBuffer s' = EmptyString ->
            boundary s' = boundary s -> iterator s' = iterator s ->
            pushed s' = pushed s -> ended s' = ended s ->
            ((kReading s' = false /\ task s' = Settled)
             \/ (kReading s' = true /\ task s' = Ret AfterField /\ ended s' = false)) ->
            text_inv (generateBoundary rand 0) pairs s').
  { intros s' Hd' Hw' Hb' HB' Hi' Hp' He' Hph'. unfold text_inv. rewrite Hd'.
    exists done, rest. split; [exact Hp|]. split; [exact Hw'|].
    split; [exact Hb'|]. split; [congruence|]. split; [congruence|].
    split; [rewrite Hp', He'; exact Hpu|]. split; [rewrite He'; exact Hend|].
    exact Hph'. }
  destruct e; cbn [step].
  - (* Pull *)
    unfold _read. destruct Hph as [[Hr Ht] | (Hr & Ht & He)]; rewrite Hr.
    + now apply readNext_text_states.
    + rewrite Hw. apply Hsame; try assumption; try reflexivity.
      right. repeat split; assumption.
  - (* Tick *)
    unfold tick. destruct Hph as [[Hr Ht] | (Hr & Ht & He)]; rewrite Ht.
    + apply Hsame; try assumption; try reflexivity. left. split; assumption.
    + cbn [resume]. unfold after_field. destruct (kReadNext s).
      * now apply readNext_text_states.
      * apply Hsame; try assumption; try reflexivity.
        left. split; reflexivity.
  - (* Destroy *)
    unfold text_inv, _destroy. cbn. rewrite Hw. cbn.
    intros He. rewrite (Hend He), app_nil_r in Hp. subst done.
    rewrite Hpu, He. reflexivity.
  - unfold notify. cbn.
    assert (Ht : task s = Settled \/ task s = Ret AfterField)
      by (destruct Hph as [[_ Ht] | (_ & Ht & _)]; auto).
    destruct Ht as [Ht | Ht]; rewrite Ht; apply Hsame; try assumption;
      try reflexivity; cbn; rewrite ?Ht; exact Hph.
  - unfold notify. cbn.
    assert (Ht : task s = Settled \/ task s = Ret AfterField)
      by (destruct Hph as [[_ Ht] | (_ & Ht & _)]; auto).
    destruct Ht as [Ht | Ht]; rewrite Ht; apply Hsame; try assumption;
      try reflexivity; cbn; rewrite ?Ht; exact Hph.
  - unfold notify. cbn.
    assert (Ht : task s = Settled \/ task s = Ret AfterField)
      by (destruct Hph as [[_ Ht] | (_ & Ht & _)]; auto).
    destruct Ht as [Ht | Ht]; rewrite Ht; apply Hsame; try assumption;
      try reflexivity; cbn; rewrite ?Ht; exact Hph.
Qed.

Lemma text_inv_step (pairs : list (string * string)) (e : Event)
    (s : FormDataStream) :
  nonempty_values pairs = true ->
  text_inv (generateBoundary rand 0) pairs s ->
  text_inv (generateBoundary rand 0) pairs (step rand full basename e s).
Proof.
  intros Hne. unfold text_inv at 1. destruct (destroyed s) eqn:Hd; intros H.
  - destruct (frozen_step e s Hd) as (Hd' & Hp & He).
    unfold text_inv. rewrite Hd', Hp, He. exact H.
  - now apply text_live_step.
Qed.

Lemma text_chunks_bytes (B : string) (l : list (string * string)) :
  String.concat EmptyString (map chunk_bytes (flat_map (text_chunks B) l))
  = String.concat EmptyString (map (spec_text_frame B) l).
Proof.
  induction l as [|kv l IH]; [reflexivity|].
  cbn [flat_map map]. rewrite map_app, concat_empty_app, IH.
  rewrite (concat_empty_cons (spec_text_frame B kv)).
  f_equal.
Qed.

Lemma pull_each_ends (rest : list (string * string)) :
  forall s : FormDataStream,
    nonempty_values rest = true ->
    iterator s = text_entries rest ->
    kReading s = false -> kReadNext s = false -> ended s = false ->
    destroyed s = false ->
    kChunkBuffer s = EmptyString ->
    ended (run rand full basename (pull_each (List.length rest)) s) = true.
Proof.
  induction rest as [|[n v] rest IH]; intros s Hne Hit Hr Hn He Hd Hb.
  - cbn [List.length pull_each run step]. unfold _read, readNext.
    rewrite Hr, Hit. cbn [text_entries map readNext_from].
    apply (finish_live s Hd).
  - cbn in Hne. apply andb_true_iff in Hne as [Hv Hne].
    destruct v as [|c v]; [discriminate Hv|].
    cbn [List.length pull_each run step]. unfold _read at 1. rewrite Hr.
    destruct (readNext_text n v c (text_entries rest) s Hit He Hd Hb)
      as (Hi & _ & Hr' & Ht & Hc & He' & _ & _ & Hd').
    pose proof (proj1 (readNext_shape s)) as Hn'. cbv zeta in Hn'.
    unfold tick. rewrite Ht. cbn [resume]. unfold after_field.
    rewrite Hn', Hn.
    apply IH; try exact Hne; unfold idle; cbn; congruence.
Qed.

Lemma text_body_when_ended (pairs : list (string * string))
    (srcs : nat -> Source) (evs : list Event) :
  nonempty_values pairs = true ->
  let s := run rand full basename evs
             (new_FormDataStream rand (text_entries pairs) srcs) in
  ended s = true ->
  body_bytes s = spec_text_body (generateBoundary rand 0) pairs.
Proof.
  intros Hne s Hend.
  assert (Hinv : text_inv (generateBoundary rand 0) pairs s).
  { apply run_invariant; [intros e t; now apply text_inv_step|].
    unfold text_inv. cbn [destroyed new_FormDataStream].
    exists [], pairs. cbn. repeat split; try discriminate.
    left. split; reflexivity. }
  assert (Hpu : pushed s
                = (flat_map (text_chunks (generateBoundary rand 0)) pairs
                   ++ [VStr (spec_closing (generateBoundary rand 0))])%list).
  { unfold text_inv in Hinv. destruct (destroyed s); [exact (Hinv Hend)|].
    destruct Hinv as (done & rest & Hp & _ & _ & _ & _ & Hpu & Hrest & _).
    rewrite (Hrest Hend), app_nil_r in Hp. subst done.
    rewrite Hpu, Hend. reflexivity. }
  unfold body_bytes, spec_text_body. rewrite Hpu, map_app, concat_empty_app.
  rewrite text_chunks_bytes. cbn [map chunk_bytes String.concat]. reflexivity.
Qed.

(** X1. For every mapping whose values are non-empty strings, the
    multipart stream ends when it is pulled once per field and once more
    (each pull followed by the resumption of the coroutine), and whenever
    it has ended, on whatever schedule of pulls, resumptions, destruction
    and upstream events, its bytes are the frames of the fields in
    iteration order followed by the closing delimiter. *)
Theorem text_fields_multipart_body :
  forall (pairs : list (string * string)) (srcs : nat -> Source)
         (evs : list Event),
    nonempty_values pairs = true ->
    let s0 := new_FormDataStream rand (text_entries pairs) srcs in
    ended (run rand full basename (pull_each (List.length pairs)) s0) = true
    /\ (ended (run rand full basename evs s0) = true ->
        body_bytes (run rand full basename evs s0)
        = spec_text_body (generateBoundary rand 0) pairs).
Proof.
  intros pairs srcs evs Hne s0. split.
  - apply pull_each_ends; try assumption; reflexivity.
  - now apply text_body_when_ended.
Qed.

Lemma ticks_end (rest : list (string * string)) :
  forall s : FormDataStream,
    nonempty_values rest = true ->
    iterator s = text_entries rest ->
    kReading s = true -> task s = Ret AfterField -> kReadNext s = true ->
    ended s = false -> destroyed s = false -> kChunkBuffer s = EmptyString ->
    ended (run rand full basename (repeat Tick (S (List.length rest))) s) = true.
Proof.
  induction rest as [|[n v] rest IH]; intros s Hne Hit Hr Ht Hn He Hd Hb.
  - cbn [List.length repeat run step]. unfold tick. rewrite Ht.
    cbn [resume]. unfold after_field, readNext. rewrite Hn, Hit.
    cbn [text_entries map readNext_from]. apply (finish_live s Hd).
  - cbn in Hne. apply andb_true_iff in Hne as [Hv Hne].
    destruct v as [|c v]; [discriminate Hv|].
    cbn [List.length].
    change (repeat Tick (S (S (List.length rest))))
      with (Tick :: repeat Tick (S (List.length rest))).
    cbn [run step]. unfold tick at 1. rewrite Ht.
    cbn [resume]. unfold after_field. rewrite Hn.
    destruct (readNext_text n v c (text_entries rest) s Hit He Hd Hb)
      as (Hi & _ & Hr' & Ht' & Hc & He' & _ & _ & Hd').
    pose proof (proj1 (readNext_shape s)) as Hn'. cbv zeta in Hn'.
    apply IH; try exact Hne; congruence.
Qed.


Lemma two_pulls_then_ticks (n v : string) (c : ascii) (rest : list (string * string))
    (s0 : FormDataStream) :
  nonempty_values rest = true ->
  iterator s0 = (n, VStr (String c v)) :: text_entries rest ->
  ended s0 = false -> destroyed s0 = false -> kChunkBuffer s0 = EmptyString ->
  kReading s0 = false -> kOnceResume s0 = NoWaiter ->
  ended (run rand full basename
           (Pull :: Pull :: repeat Tick (S (List.length rest))) s0) = true.
Proof.
  intros Hne Hit0 He0 Hd0 Hb0 Hr0 Hw0.
  cbn [run step].
  destruct (readNext_text n v c (text_entries rest) s0 Hit0 He0 Hd0 Hb0)
    as (Hi & _ & Hr' & Ht' & Hc & He' & Hw & _ & Hd').
  unfold _read at 2. rewrite Hr0.
  remember (readNext rand full basename s0) as s1 eqn:Hs1. clear Hs1.
  unfold _read. rewrite Hr', Hw, Hw0.
  apply ticks_end; try exact Hne; cbn; first [assumption | reflexivity].
Qed.

Lemma deferred_pull_ends (pairs : list (string * string)) (srcs : nat -> Source) :
    nonempty_values pairs = true ->
    ended (run rand full basename
               (Pull :: Pull :: repeat Tick (List.length pairs))
               (new_FormDataStream rand (text_entries pairs) srcs)) = true.
Proof.
  intros Hne.
  destruct pairs as [|[n v] rest]; [reflexivity|].
  cbn in Hne. apply andb_true_iff in Hne as [Hv Hne].
  destruct v as [|c v]; [discriminate Hv|].
  apply (two_pulls_then_ticks n v c rest); try exact Hne; reflexivity.
Qed.

(** X8. One deferred pull is enough for the rest of a text mapping: when
    a second pull arrives while the first field is in flight, the
    scheduler needs no further pull; resumptions alone frame every
    remaining field and end the stream with the complete body. *)
Theorem deferred_pull_runs_to_the_end :
  forall (pairs : list (string * string)) (srcs : nat -> Source),
    nonempty_values pairs = true ->
    let s := run rand full basename
               (Pull :: Pull :: repeat Tick (List.length pairs))
               (new_FormDataStream rand (text_entries pairs) srcs) in
    ended s = true
    /\ body_bytes s = spec_text_body (generateBoundary rand 0) pairs.
Proof.
  intros pairs srcs Hne s.
  pose proof (deferred_pull_ends pairs srcs Hne) as Hend.
  split; [exact Hend|].
  exact (text_body_when_ended pairs srcs _ Hne Hend).
Qed.

(** ** Laziness, upstream failure, draining *)

(** X2. A stream does nothing before it is pulled: whatever happens
    after construction short of a pull (resumptions, upstream events,
    destruction), no entry is taken from the iterator, nothing is pushed,
    no chunk is read upstream and the stream is not ended. *)
Theorem nothing_before_first_pull :
  forall (it : list (string * JsVal)) (srcs : nat -> Source) (evs : list Event),
    no_pull evs = true ->
    let s := run rand full basename evs (new_FormDataStream rand it srcs) in
    iterator s = it /\ pushed s = [] /\ kChunkBuffer s = EmptyString
    /\ pulled s = 0 /\ ended s = false /\ kReading s = false.
Proof.
  intros it srcs evs Hev s.
  destruct (parked_run evs (new_FormDataStream rand it srcs) eq_refl Hev)
    as (_ & Hr & Hi & Hp & Hb & Hpl & He).
  repeat split; assumption.
Qed.

(** X3. When the upstream source being drained emits an error while the
    coroutine waits for its next event, the production ends by that error:
    the stream has failed with the reason the source gave, and whatever
    happens afterwards the field gets no further byte (not even its
    trailing line break), no later entry is taken and end-of-stream is not
    signalled. *)
Theorem upstream_error_aborts_production :
  forall (s : FormDataStream) (id : nat) (k : Cont) (err : JsVal)
         (evs : list Event),
    reachable rand full basename s ->
    task s = WaitEvent id k ->
    let s1 := step rand full basename (SrcError id err) s in
    let s2 := run rand full basename evs s1 in
    errored s1 = Some (Thrown err)
    /\ errored s2 = Some (Thrown err)
    /\ same_output s s2.
Proof.
  intros s id k err evs Hreach Ht s1 s2.
  destruct (reachable_consistent s Hreach) as [Hidle _].
  assert (Hr : kReading s = true).
  { destruct (kReading s) eqn:E; [reflexivity|].
    specialize (Hidle eq_refl). congruence. }
  assert (H1 : task s1 = Rejected (Thrown err) /\ kReading s1 = true
               /\ same_output s s1).
  { subst s1. cbn [step]. unfold notify.
    destruct s as [its bd rd rn w cb ps en de nb srcs pl tk]; cbn in *.
    subst tk rd. cbn. rewrite Nat.eqb_refl. cbn. repeat split. }
  destruct H1 as (Ht1 & Hr1 & Ho1).
  destruct (rejected_run (Thrown err) evs s1 Ht1 Hr1) as (Ht2 & _ & Ho2).
  unfold errored. fold s2 in Ht2. rewrite Ht1, Ht2.
  split; [reflexivity|]. split; [reflexivity|].
  eapply same_output_trans; eassumption.
Qed.

Lemma upd_same (f : nat -> Source) (id : nat) (x : Source) : upd f id x id = x.
Proof. unfold upd. now rewrite Nat.eqb_refl. Qed.

(** X4. Backpressure loses and duplicates nothing. When the coroutine
    of a stream that is neither ended nor destroyed is about to read from
    a source that has buffered [chunks], and the consumer signals ready
    exactly after each push that reported a full buffer, every chunk is
    read once and pushed in order, whichever pushes report full; the
    coroutine is then again about to read, the source is empty, and no
    entry was taken nor text accumulated meanwhile. *)
Theorem drain_forwards_every_chunk :
  forall (chunks : list string) (s : FormDataStream) (id : nat) (k : Cont),
    task s = Reading id k ->
    avail (sources s id) = chunks ->
    ended s = false ->
    destroyed s = false ->
    kReading s = true ->
    kOnceResume s = NoWaiter ->
    let s' := run rand full basename
                (drain_schedule full (List.length (pushed s)) chunks) s in
    pushed s' = (pushed s ++ map VBuffer chunks)%list
    /\ pulled s' = pulled s + List.length chunks
    /\ avail (sources s' id) = []
    /\ task s' = Reading id k
    /\ kOnceResume s' = NoWaiter
    /\ iterator s' = iterator s
    /\ kChunkBuffer s' = kChunkBuffer s.
Proof.
  induction chunks as [|c chunks IH]; intros s id k Ht Hav He Hd Hr Hw.
  - cbn. rewrite app_nil_r, Nat.add_0_r. repeat split; assumption.
  - cbn [drain_schedule].
    set (s1 := readChunk full id k s).
    assert (H1 : pushed s1 = (pushed s ++ [VBuffer c])%list
                 /\ pulled s1 = S (pulled s)
                 /\ avail (sources s1 id) = chunks
                 /\ ended s1 = false /\ destroyed s1 = false /\ kReading s1 = true
                 /\ iterator s1 = iterator s /\ kChunkBuffer s1 = kChunkBuffer s
                 /\ (if full (List.length (pushed s))
                     then task s1 = WaitResume id k /\ kOnceResume s1 = Pending
                     else task s1 = Reading id k /\ kOnceResume s1 = NoWaiter)).
    { subst s1. unfold readChunk, push, onceResume. rewrite Hav.
      destruct s as [its bd rd rn w cb ps en de nb srcs pl tk]; cbn in *.
      subst en de rd w. cbn.
      destruct (full (List.length ps)); cbn; rewrite upd_same; repeat split. }
    destruct H1 as (Hp1 & Hl1 & Ha1 & He1 & Hd1 & Hr1 & Hi1 & Hb1 & Hf).
    assert (Hlen : List.length (pushed s1) = S (List.length (pushed s))).
    { rewrite Hp1, length_app. cbn. lia. }
    destruct (full (List.length (pushed s))) eqn:Hfull.
    + destruct Hf as [Ht1 Hw1].
      set (s2 := _read rand full basename s1).
      assert (H2 : task s2 = Reading id k /\ kOnceResume s2 = NoWaiter
                   /\ pushed s2 = pushed s1 /\ pulled s2 = pulled s1
                   /\ sources s2 = sources s1 /\ ended s2 = false
                   /\ destroyed s2 = false
                   /\ kReading s2 = true /\ iterator s2 = iterator s1
                   /\ kChunkBuffer s2 = kChunkBuffer s1).
      { subst s2. unfold _read. rewrite Hr1, Hw1.
        destruct s1 as [its bd rd rn w cb ps en de nb srcs pl tk]; cbn in *.
        subst tk. cbn. repeat split; assumption. }
      destruct H2 as (Ht2 & Hw2 & Hp2 & Hl2 & Hs2 & He2 & Hd2 & Hr2 & Hi2 & Hb2).
      assert (Ha2 : avail (sources s2 id) = chunks) by (rewrite Hs2; exact Ha1).
      specialize (IH s2 id k Ht2 Ha2 He2 Hd2 Hr2 Hw2). cbv zeta in IH.
      rewrite Hp2, Hlen in IH.
      cbv zeta. cbn [run step].
      replace (tick rand full basename s) with s1
        by (unfold tick; rewrite Ht; reflexivity).
      change (_read rand full basename s1) with s2.
      destruct IH as (IHp & IHl & IHa & IHt & IHw & IHi & IHb).
      split; [rewrite IHp, Hp1, <- app_assoc; reflexivity|].
      split; [rewrite IHl, Hl2, Hl1; cbn [List.length]; lia|].
      repeat split; congruence.

    + destruct Hf as [Ht1 Hw1].
      specialize (IH s1 id k Ht1 Ha1 He1 Hd1 Hr1 Hw1). cbv zeta in IH.
      rewrite Hlen in IH.
      cbv zeta. cbn [run step].
      replace (tick rand full basename s) with s1
        by (unfold tick; rewrite Ht; reflexivity).
      destruct IH as (IHp & IHl & IHa & IHt & IHw & IHi & IHb).
      split; [rewrite IHp, Hp1, <- app_assoc; reflexivity|].
      split; [rewrite IHl, Hl1; cbn [List.length]; lia|].
      repeat split; congruence.
Qed.

(** X5. A stream under [source] that is no longer readable when its
    field is framed (an ended stream, or one already drained by an
    earlier field) is not an error: with a filename given, on a stream
    that is neither ended nor destroyed, the field gets its header and an
    empty payload, the line break alone, without any read from the
    source. *)
Theorem unreadable_stream_gives_empty_payload :
  forall (s : FormDataStream) (name : string) (content : JsVal) (id : nat)
         (path : option string),
    ended s = false -> destroyed s = false ->
    prop content "source" = VReadable id path ->
    truthy (prop content "filename") = true ->
    readable (sources s id) = false ->
    let type := ToString (js_or (prop content "contentType")
                                (VStr defaultStreamContentType)) in
    let s1 := fst (frame_entry rand full basename name content s) in
    let s2 := step rand full basename Tick s1 in
    pushed s2 = (pushed s ++
      [VStr (kChunkBuffer s
             ++ spec_file_header (boundary s) (encodeURIComponent name)
                  (encodeURIComponent (ToString (prop content "filename")))
                  type);
       VStr lineBreak])%list
    /\ task s2 = Ret AfterField
    /\ pulled s2 = pulled s.
Proof.
  intros s name content id path He Hd Hsrc Hfn Hrd type s1 s2. subst s2 s1.
  assert (Ht : truthy (prop content "source") = true) by (now rewrite Hsrc).
  destruct (source_object content Ht) as [Hnn Hnr].
  unfold frame_entry, filename_of. rewrite Hnn, Hnr, Ht, Hfn. cbn [orb].
  rewrite (js_or_truthy _ content Ht), Hsrc. cbn [fst]. unfold streamFileField.
  cbn [truthy negb has_length]. fold type.
  destruct s as [its bd rd rn w cb ps en de nb srcs pl tk]; cbn in *.
  subst en de.
  unfold readStream. cbn. rewrite Hrd. cbn.
  unfold spec_file_header, disposition. str_norm.
  rewrite <- !app_assoc. repeat split.
Qed.

(** ** Headers are flushed before payloads *)

Lemma streamFileField_flushed (file contentType : JsVal) (k : Cont)
    (s : FormDataStream) :
  flushed (streamFileField full file contentType k s).
Proof.
  unfold flushed, streamFileField.
  destruct (truthy file); cbn [negb]; [|cbn; discriminate].
  destruct (has_length file).
  - intros _. rewrite kChunkBuffer_set_task, !push_kChunkBuffer. reflexivity.
  - destruct file; try (cbn; discriminate).
    intros _. unfold readStream.
    destruct (readable _); rewrite kChunkBuffer_set_task; reflexivity.
Qed.

Lemma list_loop_flushed (name subBoundary : string) (filenameIndex : nat)
    (items : list JsVal) (s : FormDataStream) :
  let r := list_loop full basename name subBoundary filenameIndex items s in
  snd r = false -> flushed (fst r).
Proof.
  destruct items as [|file rest]; cbn [list_loop]; [cbn; discriminate|].
  destruct (instanceof_Readable file).
  - destruct (basename _) as [b|e]; cbn [fst snd]; intros _.
    + apply streamFileField_flushed.
    + unfold flushed. cbn. discriminate.
  - destruct (is_nullish file); cbn [fst snd]; intros _.
    + unfold flushed. cbn. discriminate.
    + apply streamFileField_flushed.
Qed.

Lemma frame_entry_flushed (name : string) (content : JsVal) (s : FormDataStream) :
  let r := frame_entry rand full basename name content s in
  snd r = false -> flushed (fst r).
Proof.
  unfold frame_entry.
  destruct (is_nullish content); [unfold flushed; cbn; discriminate|].
  destruct (instanceof_Readable content || truthy (prop content "source")).
  - destruct (filename_of _ _) as [fn|e]; cbn [fst snd]; intros _.
    + apply streamFileField_flushed.
    + unfold flushed. cbn. discriminate.
  - destruct content;
      try (cbn [fst snd]; intros _; apply streamFileField_flushed).
    apply list_loop_flushed.
Qed.

Lemma readNext_from_flushed (it : list (string * JsVal)) :
  forall s : FormDataStream, flushed (readNext_from rand full basename it s).
Proof.
  induction it as [|[name content] it IH]; intros s; cbn [readNext_from].
  - unfold flushed, finish. cbn. discriminate.
  - pose proof (frame_entry_flushed name content
                  (set_iterator it (set_kReading true s))) as H.
    cbv zeta in H.
    destruct (frame_entry rand full basename name content
                (set_iterator it (set_kReading true s))) as [s1 left].
    cbn [fst snd] in H. destruct left.
    + destruct (kReadNext s1); [apply IH|].
      unfold flushed, idle. cbn. discriminate.
    + now apply H.
Qed.

Lemma after_field_flushed (s : FormDataStream) :
  flushed (after_field rand full basename s).
Proof.
  unfold after_field. destruct (kReadNext s).
  - apply readNext_from_flushed.
  - unfold flushed, idle. cbn. discriminate.
Qed.

Lemma readChunk_flushed (id : nat) (k : Cont) (s : FormDataStream) :
  kChunkBuffer s = EmptyString -> flushed (readChunk full id k s).
Proof.
  intros Hb _.
  unfold readChunk, readStream, onceResume, reject, push, errorOrDestroy, _destroy.
  destruct s as [its bd rd rn w cb ps en de nb srcs pl tk]; cbn in *.
  destruct (avail (srcs id)); cbn.
  - destruct (readable (srcs id)); exact Hb.
  - destruct en, de, w, tk; cbn; try destruct (full _); exact Hb.
Qed.

Lemma flushed_step (e : Event) (s : FormDataStream) :
  flushed s -> flushed (step rand full basename e s).
Proof.
  intros Hf. destruct e; cbn [step].
  - unfold _read. destruct (kReading s); [|apply readNext_from_flushed].
    unfold flushed in *.
    destruct s as [its bd rd rn w cb ps en de nb srcs pl tk]; cbn in *.
    destruct w; cbn; auto.
    destruct tk; cbn in *; auto.
  - unfold tick. destruct (task s) as [| |k|id k|id k|id k|id k|k] eqn:Ht;
      try exact Hf.
    + destruct k as [|name sb idx rest]; cbn [resume].
      * apply after_field_flushed.
      * pose proof (list_loop_flushed name sb idx rest s) as H. cbv zeta in H.
        destruct (list_loop full basename name sb idx rest s) as [s1 left].
        cbn [fst snd] in H. destruct left; [apply after_field_flushed | now apply H].
    + assert (Hb : kChunkBuffer s = EmptyString)
        by (apply Hf; rewrite Ht; reflexivity).
      destruct (readable (sources s id)); [now apply readChunk_flushed|].
      intros _. exact Hb.
    + apply readChunk_flushed. apply Hf. rewrite Ht. reflexivity.
    + assert (Hb : kChunkBuffer s = EmptyString)
        by (apply Hf; rewrite Ht; reflexivity).
      intros _. rewrite kChunkBuffer_set_task, push_kChunkBuffer. exact Hb.
  - unfold _destroy, flushed in *.
    destruct s as [its bd rd rn w cb ps en de nb srcs pl tk]; cbn in *.
    destruct w; cbn; auto.
    destruct tk; cbn in *; auto; try discriminate.
  - unfold notify, flushed in *.
    destruct s as [its bd rd rn w cb ps en de nb srcs pl tk]; cbn in *.
    destruct tk; cbn in *; auto.
    destruct (Nat.eqb _ _); cbn; auto.
  - unfold notify, flushed in *.
    destruct s as [its bd rd rn w cb ps en de nb srcs pl tk]; cbn in *.
    destruct tk; cbn in *; auto.
    destruct (Nat.eqb _ _); cbn; auto.
  - unfold notify, flushed in *.
    destruct s as [its bd rd rn w cb ps en de nb srcs pl tk]; cbn in *.
    destruct tk; cbn in *; auto.
    destruct (Nat.eqb _ _); cbn; auto; try discriminate.
Qed.

(** X6. Framing text never waits behind a payload: in every reachable
    state in which the coroutine delivers a payload or is about to return
    from it (waiting for the source, reading, waiting for a resume, about
    to push the trailing line break, or back in [readNext]), the
    accumulator is empty, so the whole header of the field was pushed
    before the first byte of its payload. *)
Theorem accumulator_empty_during_payload :
  forall s : FormDataStream,
    reachable rand full basename s ->
    payload_phase (task s) = true ->
    kChunkBuffer s = EmptyString.
Proof.
  intros s (it & srcs & evs & ->).
  apply (run_invariant flushed); [intros e s; apply flushed_step|].
  unfold flushed. cbn. discriminate.
Qed.

(** ** Nothing delivered is retracted, no entry is taken twice *)

Lemma extends_refl (s : FormDataStream) : extends s s.
Proof. split; [exists []; now rewrite app_nil_r | exists []; reflexivity]. Qed.

Lemma extends_trans (s1 s2 s3 : FormDataStream) :
  extends s1 s2 -> extends s2 s3 -> extends s1 s3.
Proof.
  intros [[o1 Ho1] [t1 Ht1]] [[o2 Ho2] [t2 Ht2]]. split.
  - exists (o1 ++ o2)%list. now rewrite Ho2, Ho1, app_assoc.
  - exists (t1 ++ t2)%list. now rewrite Ht1, Ht2, app_assoc.
Qed.

(** The same iterator and a longer list of delivered chunks. *)
Lemma extends_pushed (s s' : FormDataStream) (out : list JsVal) :
  iterator s' = iterator s -> pushed s' = (pushed s ++ out)%list -> extends s s'.
Proof.
  intros Hi Hp. split; [exists out; exact Hp | exists []; now rewrite Hi].
Qed.

Lemma extends_same (s s' : FormDataStream) :
  iterator s' = iterator s -> pushed s' = pushed s -> extends s s'.
Proof.
  intros Hi Hp. split; [exists []; now rewrite app_nil_r | exists []; now rewrite Hi].
Qed.

Lemma push_extends (chunk : JsVal) (s : FormDataStream) :
  extends s (fst (push full chunk s)).
Proof.
  destruct s as [its bd rd rn w cb ps en de nb srcs pl tk].
  unfold push, errorOrDestroy, _destroy, reject.
  destruct (is_chunk chunk), en, de; cbn;
    try (apply extends_same; reflexivity);
    try (eapply extends_pushed; [reflexivity | cbn; reflexivity]);
    destruct w; try (apply extends_same; reflexivity);
    destruct tk; apply extends_same; reflexivity.
Qed.

Lemma set_task_extends (t : Task) (s : FormDataStream) : extends s (set_task t s).
Proof. apply extends_same; reflexivity. Qed.

Lemma flushChunks_extends (s : FormDataStream) : extends s (flushChunks full s).
Proof.
  unfold flushChunks. eapply extends_trans; [apply push_extends|].
  apply extends_same; reflexivity.
Qed.

Lemma pushChunk_extends (chunk : string) (s : FormDataStream) :
  extends s (pushChunk chunk s).
Proof. (apply extends_same; reflexivity). Qed.

Ltac extends_chain :=
  repeat first
    [ apply extends_refl
    | eapply extends_trans;
      [| first [ apply pushChunk_extends | apply set_task_extends
               | apply push_extends | apply flushChunks_extends ] ] ].

Lemma streamFileField_extends (file contentType : JsVal) (k : Cont)
    (s : FormDataStream) :
  extends s (streamFileField full file contentType k s).
Proof.
  unfold streamFileField.
  destruct (truthy file); cbn [negb]; [|(apply extends_same; reflexivity)].
  destruct (has_length file); [extends_chain|].
  destruct file; try (apply extends_same; reflexivity).
  unfold readStream. destruct (readable _); extends_chain.
Qed.

Lemma list_loop_extends (name subBoundary : string) (filenameIndex : nat)
    (items : list JsVal) (s : FormDataStream) :
  extends s (fst (list_loop full basename name subBoundary filenameIndex items s)).
Proof.
  destruct items as [|file rest]; cbn [list_loop]; [(apply extends_same; reflexivity)|].
  destruct (instanceof_Readable file).
  - destruct (basename _) as [b|e]; cbn [fst]; [|(apply extends_same; reflexivity)].
    eapply extends_trans; [|apply streamFileField_extends]. (apply extends_same; reflexivity).
  - destruct (is_nullish file); cbn [fst]; [(apply extends_same; reflexivity)|].
    eapply extends_trans; [|apply streamFileField_extends]. (apply extends_same; reflexivity).
Qed.

Lemma frame_entry_extends (name : string) (content : JsVal) (s : FormDataStream) :
  extends s (fst (frame_entry rand full basename name content s)).
Proof.
  unfold frame_entry.
  destruct (is_nullish content); [(apply extends_same; reflexivity)|].
  destruct (instanceof_Readable content || truthy (prop content "source")).
  - destruct (filename_of _ _) as [fn|e]; cbn [fst]; [|(apply extends_same; reflexivity)].
    eapply extends_trans; [|apply streamFileField_extends]. (apply extends_same; reflexivity).
  - destruct content;
      try (cbn [fst]; eapply extends_trans; [|apply streamFileField_extends];
           (apply extends_same; reflexivity)).
    eapply extends_trans; [|apply list_loop_extends]. (apply extends_same; reflexivity).
Qed.

Lemma finish_extends (s : FormDataStream) : extends s (finish full s).
Proof.
  destruct (finish_fields s) as (_ & _ & _ & _ & _ & Hi & _ & _ & _ & _ & _ & Hp).
  eapply extends_pushed; eassumption.
Qed.

Lemma readNext_from_extends (it : list (string * JsVal)) :
  forall s : FormDataStream,
    iterator s = it -> extends s (readNext_from rand full basename it s).
Proof.
  induction it as [|[name content] it IH]; intros s Hit; cbn [readNext_from].
  - eapply extends_trans; [|apply finish_extends]. (apply extends_same; reflexivity).
  - pose proof (frame_entry_extends name content
                  (set_iterator it (set_kReading true s))) as He.
    pose proof (frame_entry_shape name content
                  (set_iterator it (set_kReading true s))) as Hs.
    cbv zeta in Hs.
    destruct (frame_entry rand full basename name content
                (set_iterator it (set_kReading true s))) as [s1 left].
    cbn [fst snd] in He, Hs. destruct Hs as (_ & Hi & _).
    assert (Hstep : extends s s1).
    { destruct He as [[out Ho] _]. split.
      - exists out. exact Ho.
      - exists [(name, content)]. rewrite Hit, Hi. reflexivity. }
    destruct left; [|exact Hstep].
    destruct (kReadNext s1).
    + eapply extends_trans; [exact Hstep|]. apply IH. exact Hi.
    + eapply extends_trans; [exact Hstep|]. (apply extends_same; reflexivity).
Qed.

Lemma after_field_extends (s : FormDataStream) :
  extends s (after_field rand full basename s).
Proof.
  unfold after_field. destruct (kReadNext s).
  - now apply readNext_from_extends.
  - (apply extends_same; reflexivity).
Qed.

Lemma readChunk_extends (id : nat) (k : Cont) (s : FormDataStream) :
  extends s (readChunk full id k s).
Proof.
  unfold readChunk, readStream, onceResume, reject, push, errorOrDestroy, _destroy.
  destruct s as [its bd rd rn w cb ps en de nb srcs pl tk]; cbn.
  destruct (avail (srcs id)); cbn.
  - destruct (readable (srcs id)); (apply extends_same; reflexivity).
  - destruct en, de, w, tk; cbn; try destruct (full _); cbn;
      first [ apply extends_same; reflexivity
            | eapply extends_pushed; [reflexivity | cbn; reflexivity] ].
Qed.

Lemma extends_step (e : Event) (s : FormDataStream) :
  extends s (step rand full basename e s).
Proof.
  destruct e; cbn [step].
  - unfold _read. destruct (kReading s); [|now apply readNext_from_extends].
    destruct (kOnceResume s); try (apply extends_same; reflexivity).
    destruct (task s) eqn:Ht; cbn; rewrite ?Ht; (apply extends_same; reflexivity).
  - unfold tick. destruct (task s) as [| |k|id k|id k|id k|id k|k];
      try (apply extends_same; reflexivity).
    + destruct k as [|name sb idx rest]; cbn [resume].
      * apply after_field_extends.
      * pose proof (list_loop_extends name sb idx rest s) as H.
        destruct (list_loop full basename name sb idx rest s) as [s1 left].
        cbn [fst] in H. destruct left; [|exact H].
        eapply extends_trans; [exact H | apply after_field_extends].
    + destruct (readable (sources s id)); [apply readChunk_extends|].
      (apply extends_same; reflexivity).
    + apply readChunk_extends.
    + extends_chain.
  - unfold _destroy. cbn.
    destruct s as [its bd rd rn w cb ps en de nb srcs pl tk]; cbn.
    destruct w; try (apply extends_same; reflexivity). destruct tk; (apply extends_same; reflexivity).
  - unfold notify.
    destruct s as [its bd rd rn w cb ps en de nb srcs pl tk]; cbn.
    destruct tk; try (apply extends_same; reflexivity).
    destruct (Nat.eqb _ _); (apply extends_same; reflexivity).
  - unfold notify.
    destruct s as [its bd rd rn w cb ps en de nb srcs pl tk]; cbn.
    destruct tk; try (apply extends_same; reflexivity).
    destruct (Nat.eqb _ _); (apply extends_same; reflexivity).
  - unfold notify.
    destruct s as [its bd rd rn w cb ps en de nb srcs pl tk]; cbn.
    destruct tk; try (apply extends_same; reflexivity).
    destruct (Nat.eqb _ _); (apply extends_same; reflexivity).
Qed.

(** X7. Output only grows and the iterator only shrinks: whatever
    happens to a stream, the chunks it has delivered remain a prefix of
    the chunks delivered later (nothing is retracted or reordered), and
    the entries still in the iterator are a suffix of the entries it held
    before (no entry is framed twice or skipped back to). *)
Theorem run_extends :
  forall (evs : list Event) (s : FormDataStream),
    exists out taken,
      pushed (run rand full basename evs s) = (pushed s ++ out)%list
      /\ iterator s = (taken ++ iterator (run rand full basename evs s))%list.
Proof.
  intros evs s.
  assert (H : extends s (run rand full basename evs s)).
  { revert s. induction evs as [|e evs IH]; intros s; cbn [run].
    - apply extends_refl.
    - eapply extends_trans; [apply extends_step | apply IH]. }
  destruct H as [[out Ho] [taken Ht]]. exists out, taken. split; assumption.
Qed.

(** ** The single slot of [kOnceResume], and the boundary *)

Lemma after_field_control (s : FormDataStream) :
  (kOnceResume s <> Pending ->
   kOnceResume (after_field rand full basename s) = kOnceResume s)
  /\ boundary (after_field rand full basename s) = boundary s.
Proof.
  unfold after_field. destruct (kReadNext s); [|split; reflexivity].
  unfold readNext.
  pose proof (readNext_from_shape (iterator s) s) as H. cbv zeta in H.
  destruct H as (_ & Hw & _ & _ & Hb & _). split; assumption.
Qed.

Lemma resume_control (k : Cont) (s : FormDataStream) :
  (kOnceResume s <> Pending ->
   kOnceResume (resume rand full basename k s) = kOnceResume s)
  /\ boundary (resume rand full basename k s) = boundary s.
Proof.
  destruct k as [|name sb idx rest]; cbn [resume]; [apply after_field_control|].
  pose proof (list_loop_shape name sb idx rest s) as H. cbv zeta in H.
  destruct (list_loop full basename name sb idx rest s) as [s1 left].
  cbn [fst snd] in H. destruct H as ((_ & Hw & _ & _ & Hb & _) & _).
  destruct left; [|split; assumption].
  destruct (after_field_control s1) as [Hw' Hb']. split; [|congruence].
  intros Hnp. rewrite <- (Hw Hnp). apply Hw'. rewrite (Hw Hnp). exact Hnp.
Qed.

Lemma readChunk_control (id : nat) (k : Cont) (s : FormDataStream) :
  kOnceResume s <> Pending ->
  let s' := readChunk full id k s in
  (kOnceResume s' = Pending -> exists id' k', task s' = WaitResume id' k')
  /\ boundary s' = boundary s.
Proof.
  intros Hnp.
  destruct s as [its bd rd rn w cb ps en de nb srcs pl tk]; cbn in *.
  unfold readChunk, readStream, onceResume, reject, push, errorOrDestroy, _destroy;
    cbn.
  destruct (avail (srcs id)); cbn.
  - destruct (readable (srcs id)); cbn; split; try reflexivity;
      intros Hp; congruence.
  - destruct w; [ | exfalso; now apply Hnp | ];
      destruct en, de; cbn; try destruct (full _); cbn;
      (split; [|reflexivity]); eauto; intros Hp; congruence.
Qed.

Lemma waiter_owned_step (e : Event) (s : FormDataStream) :
  consistent s -> waiter_owned s ->
  waiter_owned (step rand full basename e s).
Proof.
  intros [Hidle Hwait] Ho. unfold waiter_owned in *.
  destruct e; cbn [step].
  - unfold _read. destruct (kReading s) eqn:Hr.
    + destruct s as [its bd rd rn w cb ps en de nb srcs pl tk]; cbn in *.
      destruct w; cbn; try discriminate. destruct tk; cbn; discriminate.
    + specialize (Hidle eq_refl).
      assert (Hnp : kOnceResume s <> Pending).
      { intros Hp. destruct (Ho Hp) as (? & ? & E). congruence. }
      rewrite (proj1 (proj2 (readNext_shape s)) Hnp).
      intros Hp. contradiction.
  - unfold tick. destruct (task s) as [| |k|id k|id k|id k|id k|k] eqn:Ht.
    + rewrite Ht. exact Ho.
    + rewrite Ht. exact Ho.
    + assert (Hnp : kOnceResume s <> Pending).
      { intros Hp. destruct (Ho Hp) as (? & ? & E). discriminate E. }
      rewrite (proj1 (resume_control k s) Hnp).
      intros Hp. contradiction.
    + rewrite Ht. exact Ho.
    + assert (Hnp : kOnceResume s <> Pending).
      { intros Hp. destruct (Ho Hp) as (? & ? & E). discriminate E. }
      destruct (readable (sources s id)).
      * apply (readChunk_control id k s Hnp).
      * cbn. intros Hp. contradiction.
    + assert (Hnp : kOnceResume s <> Pending).
      { intros Hp. destruct (Ho Hp) as (? & ? & E). discriminate E. }
      apply (readChunk_control id k s Hnp).
    + rewrite Ht. exact Ho.
    + assert (Hnp : kOnceResume s <> Pending).
      { intros Hp. destruct (Ho Hp) as (? & ? & E). discriminate E. }
      destruct (push_framing (VStr lineBreak) s) as ((_ & Hw & _) & _).
      change (kOnceResume (fst (push full (VStr lineBreak) s)) = Pending ->
              exists id k0, Ret k = WaitResume id k0).
      rewrite (Hw Hnp). intros Hp. contradiction.
  - unfold _destroy.
    destruct s as [its bd rd rn w cb ps en de nb srcs pl tk]; cbn in *.
    destruct w; cbn; try discriminate. destruct tk; cbn; discriminate.
  - assert (Hnp : forall id k, task s = WaitEvent id k -> kOnceResume s <> Pending).
    { intros id' k' E Hp. destruct (Ho Hp) as (? & ? & E'). congruence. }
    unfold notify.
    destruct s as [its bd rd rn w cb ps en de nb srcs pl tk]; cbn in *.
    destruct tk; cbn; try exact Ho.
    specialize (Hnp _ _ eq_refl).
    destruct (Nat.eqb _ _); cbn; intros Hp; congruence.
  - assert (Hnp : forall id k, task s = WaitEvent id k -> kOnceResume s <> Pending).
    { intros id' k' E Hp. destruct (Ho Hp) as (? & ? & E'). congruence. }
    unfold notify.
    destruct s as [its bd rd rn w cb ps en de nb srcs pl tk]; cbn in *.
    destruct tk; cbn; try exact Ho.
    specialize (Hnp _ _ eq_refl).
    destruct (Nat.eqb _ _); cbn; intros Hp; congruence.
  - assert (Hnp : forall id k, task s = WaitEvent id k -> kOnceResume s <> Pending).
    { intros id' k' E Hp. destruct (Ho Hp) as (? & ? & E'). congruence. }
    unfold notify.
    destruct s as [its bd rd rn w cb ps en de nb srcs pl tk]; cbn in *.
    destruct tk; cbn; try exact Ho.
    specialize (Hnp _ _ eq_refl).
    destruct (Nat.eqb _ _); cbn; intros Hp; congruence.
Qed.

(** X11. The backpressure slot is a single slot in step with the
    coroutine: in every reachable state [kOnceResume] holds a pending
    entry exactly when the coroutine is suspended on a backpressure wait,
    so a waiter is never left behind and a suspended coroutine is never
    without the entry that a pull or a destruction settles. *)
Theorem pending_waiter_iff_suspended :
  forall s : FormDataStream,
    reachable rand full basename s ->
    (kOnceResume s = Pending <-> exists id k, task s = WaitResume id k).
Proof.
  intros s Hreach. split.
  - revert Hreach. intros (it & srcs & evs & ->).
    assert (H : consistent (run rand full basename evs
                              (new_FormDataStream rand it srcs))
                /\ waiter_owned (run rand full basename evs
                                   (new_FormDataStream rand it srcs))).
    { apply (run_invariant (fun s => consistent s /\ waiter_owned s)).
      - intros e s [Hc Ho]. split; [now apply consistent_step|].
        now apply waiter_owned_step.
      - split; [split; [reflexivity | discriminate]|]. discriminate. }
    apply H.
  - intros (id & k & E).
    apply (proj2 (reachable_consistent s Hreach) id k E).
Qed.

Lemma readChunk_boundary (id : nat) (k : Cont) (s : FormDataStream) :
  boundary (readChunk full id k s) = boundary s.
Proof.
  destruct s as [its bd rd rn w cb ps en de nb srcs pl tk]; cbn.
  unfold readChunk, readStream, onceResume, reject, push, errorOrDestroy, _destroy;
    cbn.
  destruct (avail (srcs id)); cbn.
  - destruct (readable (srcs id)); reflexivity.
  - destruct en, de, w, tk; cbn; try destruct (full _); reflexivity.
Qed.

Lemma boundary_step (e : Event) (s : FormDataStream) :
  boundary (step rand full basename e s) = boundary s.
Proof.
  destruct e; cbn [step].
  - unfold _read. destruct (kReading s).
    + destruct s as [its bd rd rn w cb ps en de nb srcs pl tk]; cbn.
      destruct w; cbn; try reflexivity. destruct tk; reflexivity.
    + unfold readNext.
      pose proof (readNext_from_shape (iterator s) s) as H. cbv zeta in H.
      apply H.
  - unfold tick. destruct (task s) as [| |k|id k|id k|id k|id k|k] eqn:Ht;
      try reflexivity.
    + apply resume_control.
    + destruct (readable (sources s id)); [apply readChunk_boundary | reflexivity].
    + apply readChunk_boundary.
    + destruct (push_framing (VStr lineBreak) s) as ((_ & _ & _ & _ & Hb & _) & _).
      exact Hb.
  - unfold _destroy.
    destruct s as [its bd rd rn w cb ps en de nb srcs pl tk]; cbn.
    destruct w; cbn; try reflexivity. destruct tk; reflexivity.
  - unfold notify.
    destruct s as [its bd rd rn w cb ps en de nb srcs pl tk]; cbn.
    destruct tk; cbn; try reflexivity. destruct (Nat.eqb _ _); reflexivity.
  - unfold notify.
    destruct s as [its bd rd rn w cb ps en de nb srcs pl tk]; cbn.
    destruct tk; cbn; try reflexivity. destruct (Nat.eqb _ _); reflexivity.
  - unfold notify.
    destruct s as [its bd rd rn w cb ps en de nb srcs pl tk]; cbn.
    destruct tk; cbn; try reflexivity. destruct (Nat.eqb _ _); reflexivity.
Qed.

(** X12. The boundary announced in the header stays the boundary of the
    stream: whatever is pulled, resumed, destroyed or received upstream
    after [serializeFormData] returned, the stream keeps the token that
    the returned [Content-Type] header names. *)
Theorem header_boundary_is_kept :
  forall (formData : FormData) (srcs : nat -> Source) (evs : list Event),
    exists s0,
      body (serializeFormData rand formData multipart_type srcs) = BodyStream s0
      /\ content_type (serializeFormData rand formData multipart_type srcs)
         = "multipart/form-data; boundary="
           ++ boundary (run rand full basename evs s0) ++ "; charset=UTF-8".
Proof.
  intros formData srcs evs.
  exists (new_FormDataStream rand (entries formData) srcs).
  split; [reflexivity|].
  assert (H : boundary (run rand full basename evs
                          (new_FormDataStream rand (entries formData) srcs))
              = generateBoundary rand 0).
  { apply (run_invariant (fun s => boundary s = generateBoundary rand 0)).
    - intros e s Hs. now rewrite boundary_step.
    - reflexivity. }
  rewrite H. reflexivity.
Qed.

(** ** An array of text sources *)

(** ** The methods on an explicit object state *)

Lemma pushChunk_mk chunk it bd rd rn w cb ps en de nb srcs pl tk :
  pushChunk chunk (mkStream it bd rd rn w cb ps en de nb srcs pl tk)
  = mkStream it bd rd rn w (cb ++ chunk) ps en de nb srcs pl tk.
Proof. reflexivity. Qed.

Lemma push_mk c it bd rd rn w cb ps nb srcs pl tk :
  push full (VStr c) (mkStream it bd rd rn w cb ps false false nb srcs pl tk)
  = (mkStream it bd rd rn w cb (ps ++ [VStr c])%list false false nb srcs pl tk,
     negb (full (List.length ps))).
Proof. reflexivity. Qed.

Lemma flushChunks_mk it bd rd rn w cb ps nb srcs pl tk :
  flushChunks full (mkStream it bd rd rn w cb ps false false nb srcs pl tk)
  = mkStream it bd rd rn w EmptyString (ps ++ [VStr cb])%list false false nb srcs pl tk.
Proof. reflexivity. Qed.


Lemma set_iterator_mk v it bd rd rn w cb ps en de nb srcs pl tk :
  set_iterator v (mkStream it bd rd rn w cb ps en de nb srcs pl tk)
  = mkStream v bd rd rn w cb ps en de nb srcs pl tk.
Proof. reflexivity. Qed.

Lemma set_kReading_mk v it bd rd rn w cb ps en de nb srcs pl tk :
  set_kReading v (mkStream it bd rd rn w cb ps en de nb srcs pl tk)
  = mkStream it bd v rn w cb ps en de nb srcs pl tk.
Proof. reflexivity. Qed.

Lemma set_nboundaries_mk v it bd rd rn w cb ps en de nb srcs pl tk :
  set_nboundaries v (mkStream it bd rd rn w cb ps en de nb srcs pl tk)
  = mkStream it bd rd rn w cb ps en de v srcs pl tk.
Proof. reflexivity. Qed.

Lemma set_task_mk v it bd rd rn w cb ps en de nb srcs pl tk :
  set_task v (mkStream it bd rd rn w cb ps en de nb srcs pl tk)
  = mkStream it bd rd rn w cb ps en de nb srcs pl v.
Proof. reflexivity. Qed.

Lemma set_ended_mk v it bd rd rn w cb ps en de nb srcs pl tk :
  set_ended v (mkStream it bd rd rn w cb ps en de nb srcs pl tk)
  = mkStream it bd rd rn w cb ps v de nb srcs pl tk.
Proof. reflexivity. Qed.

Ltac exec :=
  repeat first
    [ rewrite pushChunk_mk
    | rewrite flushChunks_mk
    | rewrite push_mk
    | rewrite set_iterator_mk
    | rewrite set_kReading_mk
    | rewrite set_nboundaries_mk
    | rewrite set_task_mk
    | rewrite set_ended_mk
    | progress cbn [fst snd iterator boundary kReading kReadNext kOnceResume
                    kChunkBuffer pushed ended destroyed nboundaries sources pulled
                    task] ].

Lemma list_loop_text_item (name sb : string) (idx : nat) (c : ascii) (v : string)
    (rest : list JsVal) (s : FormDataStream) :
  ended s = false -> destroyed s = false ->
  let r := list_loop full basename name sb idx (text_item (String c v) :: rest) s in
  snd r = false
  /\ pushed (fst r)
     = (pushed s ++
        [VStr (kChunkBuffer s
               ++ spec_sub_header sb
                    (encodeURIComponent (name ++ "-" ++ decimal idx)) "text/plain");
         VStr (String c v); VStr lineBreak])%list
  /\ task (fst r) = Ret (InList name sb (S idx) rest)
  /\ kChunkBuffer (fst r) = EmptyString
  /\ kReading (fst r) = kReading s /\ kReadNext (fst r) = kReadNext s
  /\ iterator (fst r) = iterator s /\ ended (fst r) = false
  /\ destroyed (fst r) = false.
Proof.
  intros He Hd r. subst r.
  destruct s as [its bd rd rn w cb ps en de nb srcs pl tk]; cbn in He, Hd.
  subst en de.
  unfold list_loop, text_item.
  cbn [instanceof_Readable is_nullish prop lookup String.eqb Ascii.eqb Bool.eqb
       truthy js_or].
  unfold streamFileField. cbn [truthy nonempty negb has_length js_or ToString].
  cbv zeta. exec.
  unfold spec_sub_header, disposition, defaultContentType.
  cbn [ToString]. rewrite <- ?app_assoc, !append_assoc. cbn [app append].
  repeat split.
Qed.

Lemma readNext_array_first (name : string) (c : ascii) (v : string)
    (items : list JsVal) (it : list (string * JsVal)) (s : FormDataStream) :
  iterator s = (name, VArray (text_item (String c v) :: items)) :: it ->
  ended s = false -> destroyed s = false -> kChunkBuffer s = EmptyString ->
  let sb := generateBoundary rand (nboundaries s) in
  let s1 := readNext rand full basename s in
  pushed s1
  = (pushed s ++
     [VStr (spec_list_open (boundary s) (encodeURIComponent name) sb
            ++ spec_sub_header sb
                 (encodeURIComponent (name ++ "-" ++ decimal 0)) "text/plain");
      VStr (String c v); VStr lineBreak])%list
  /\ task s1 = Ret (InList name sb 1 items)
  /\ kChunkBuffer s1 = EmptyString
  /\ kReading s1 = true /\ kReadNext s1 = kReadNext s
  /\ iterator s1 = it /\ ended s1 = false /\ destroyed s1 = false.
Proof.
  intros Hit He Hd Hb sb s1. subst s1 sb.
  unfold readNext. rewrite Hit. cbn [readNext_from].
  destruct s as [its bd rd rn w cb ps en de nb srcs pl tk]; cbn in He, Hd, Hb.
  subst en de cb. exec.
  unfold frame_entry.
  cbn [is_nullish instanceof_Readable prop truthy orb].
  cbv zeta. exec.
  unfold list_loop, text_item.
  cbn [instanceof_Readable is_nullish prop lookup String.eqb Ascii.eqb Bool.eqb
       truthy js_or].
  unfold streamFileField. cbn [truthy nonempty negb has_length js_or ToString].
  cbv zeta. exec.
  unfold spec_list_open, spec_sub_header, disposition, defaultContentType.
  cbn [ToString]. rewrite <- ?app_assoc, !append_assoc. cbn [app append].
  repeat split.
Qed.

Lemma readNext_empty_array (name : string) (it : list (string * JsVal))
    (s : FormDataStream) :
  iterator s = (name, VArray []) :: it ->
  kReadNext s = false -> ended s = false -> destroyed s = false ->
  kChunkBuffer s = EmptyString ->
  let sb := generateBoundary rand (nboundaries s) in
  let s1 := readNext rand full basename s in
  pushed s1 = pushed s
  /\ kChunkBuffer s1
     = spec_list_open (boundary s) (encodeURIComponent name) sb
       ++ spec_closing sb ++ lineBreak
  /\ kReading s1 = false /\ task s1 = Settled
  /\ iterator s1 = it /\ ended s1 = false /\ kReadNext s1 = false
  /\ destroyed s1 = false.
Proof.
  intros Hit Hn He Hd Hb sb s1. subst s1 sb.
  unfold readNext. rewrite Hit. cbn [readNext_from].
  destruct s as [its bd rd rn w cb ps en de nb srcs pl tk]; cbn in Hn, He, Hd, Hb.
  subst en de cb rn. exec.
  unfold frame_entry.
  cbn [is_nullish instanceof_Readable prop truthy orb].
  cbv zeta. exec.
  unfold list_loop. cbv zeta. exec. unfold idle. exec.
  unfold spec_list_open, spec_closing.
  rewrite !append_assoc. cbn [append].
  repeat split.
Qed.

Lemma items_loop (name sb : string) (vs : list string) :
  forall (s : FormDataStream) (idx : nat),
    nonempty_all vs = true ->
    task s = Ret (InList name sb idx (map text_item vs)) ->
    kReading s = true -> kReadNext s = false -> ended s = false ->
    destroyed s = false ->
    let s' := run rand full basename (repeat Tick (S (List.length vs))) s in
    pushed s' = (pushed s ++ sub_chunks name sb idx (kChunkBuffer s) vs)%list
    /\ kChunkBuffer s'
       = (match vs with [] => kChunkBuffer s | _ :: _ => EmptyString end)
         ++ spec_closing sb ++ lineBreak
    /\ kReading s' = false /\ task s' = Settled
    /\ iterator s' = iterator s /\ ended s' = false /\ kReadNext s' = false
    /\ destroyed s' = false.
Proof.
  induction vs as [|v vs IH]; intros s idx Hne Ht Hr Hn He Hd.
  - cbn [List.length repeat run step map]. unfold tick. rewrite Ht.
    cbn [map resume list_loop]. unfold after_field.
    destruct s as [its bd rd rn w cb ps en de nb srcs pl tk]; cbn in *.
    subst rn. unfold spec_closing. rewrite ?app_nil_r. str_norm.
    rewrite ?app_nil_r. repeat split; first [assumption | reflexivity].
  - cbn in Hne. apply andb_true_iff in Hne as [Hv Hne].
    destruct v as [|c v]; [discriminate Hv|].
    cbn [List.length map].
    change (repeat Tick (S (S (List.length vs))))
      with (Tick :: repeat Tick (S (List.length vs))).
    pose proof (list_loop_text_item name sb idx c v (map text_item vs) s He Hd) as H.
    cbv zeta in H.
    assert (Hstep : step rand full basename Tick s
                    = fst (list_loop full basename name sb idx
                             (text_item (String c v) :: map text_item vs) s)).
    { cbn [step]. unfold tick. rewrite Ht. cbn [resume map].
      destruct (list_loop full basename name sb idx
                  (text_item (String c v) :: map text_item vs) s) as [s1 left].
      cbn [fst snd] in *. destruct H as (-> & _). reflexivity. }
    cbn [run]. rewrite Hstep.
    set (s1 := fst (list_loop full basename name sb idx
                      (text_item (String c v) :: map text_item vs) s)) in *.
    clearbody s1. clear Hstep.
    destruct H as (_ & Hp1 & Ht1 & Hb1 & Hr1 & Hn1 & Hi1 & He1 & Hd1).
    assert (Hr1' : kReading s1 = true) by congruence.
    assert (Hn1' : kReadNext s1 = false) by congruence.
    specialize (IH s1 (S idx) Hne Ht1 Hr1' Hn1' He1 Hd1). cbv zeta in IH.
    destruct IH as (IHp & IHb & IHr & IHt & IHi & IHe & IHn & IHd).
    split; [|split; [|repeat split; congruence]].
    + rewrite IHp, Hp1, Hb1, <- app_assoc. reflexivity.
    + rewrite IHb, Hb1. destruct vs; reflexivity.
Qed.

Lemma text_array_cycle (s : FormDataStream) (name : string) (vs : list string)
    (it : list (string * JsVal)) :
  nonempty_all vs = true ->
  iterator s = (name, VArray (map text_item vs)) :: it ->
  kReading s = false -> kReadNext s = false -> ended s = false ->
  destroyed s = false ->
  kChunkBuffer s = EmptyString ->
  let sb := generateBoundary rand (nboundaries s) in
  let opening := spec_list_open (boundary s) (encodeURIComponent name) sb in
  let s' := run rand full basename (Pull :: repeat Tick (List.length vs)) s in
  pushed s' = (pushed s ++ sub_chunks name sb 0 opening vs)%list
  /\ kChunkBuffer s'
     = (match vs with [] => opening | _ :: _ => EmptyString end)
       ++ spec_closing sb ++ lineBreak
  /\ kReading s' = false /\ task s' = Settled
  /\ iterator s' = it /\ ended s' = false /\ kReadNext s' = false
  /\ destroyed s' = false.
Proof.
  intros Hne Hit Hr Hn He Hd Hb sb opening s'. subst s'.
  assert (Hstep : step rand full basename Pull s = readNext rand full basename s).
  { cbn [step]. unfold _read. now rewrite Hr. }
  cbn [run]. rewrite Hstep. clear Hstep.
  destruct vs as [|v vs].
  - cbn [map] in Hit. cbn [List.length repeat run sub_chunks].
    destruct (readNext_empty_array name it s Hit Hn He Hd Hb)
      as (Hp & Hbuf & Hr1 & Ht1 & Hi1 & He1 & Hn1 & Hd1).
    rewrite app_nil_r. repeat split; assumption.
  - cbn in Hne. apply andb_true_iff in Hne as [Hv Hne].
    destruct v as [|c v]; [discriminate Hv|].
    cbn [map] in Hit.
    destruct (readNext_array_first name c v (map text_item vs) it s Hit He Hd Hb)
      as (Hp1 & Ht1 & Hb1 & Hr1 & Hn1 & Hi1 & He1 & Hd1).
    fold sb in Hp1, Ht1. fold opening in Hp1.
    set (s1 := readNext rand full basename s) in *. clearbody s1.
    assert (Hn1' : kReadNext s1 = false) by congruence.
    destruct (items_loop name sb vs s1 1 Hne Ht1 Hr1 Hn1' He1 Hd1)
      as (IHp & IHb & IHr & IHt & IHi & IHe & IHn & IHd).
    cbn [List.length sub_chunks].
    split; [|split; [|repeat split; congruence]].
    + rewrite IHp, Hp1, Hb1, <- app_assoc. reflexivity.
    + rewrite IHb, Hb1. destruct vs; reflexivity.
Qed.

Lemma sub_chunks_bytes (name sb : string) (vs : list string) :
  forall (idx : nat) (prefix : string),
    String.concat EmptyString (map chunk_bytes (sub_chunks name sb idx prefix vs))
    = (match vs with [] => EmptyString | _ :: _ => prefix end)
      ++ spec_sub_frames name sb idx vs.
Proof.
  induction vs as [|v vs IH]; intros idx prefix; [reflexivity|].
  cbn [sub_chunks map chunk_bytes spec_sub_frames].
  rewrite !concat_empty_cons, IH.
  destruct vs; cbn [append]; now rewrite !append_assoc.
Qed.

(** X13. An array of text sources is framed item by item, in order, and
    named by position: for a field [name: [{source: v0}, {source: v1}, ...]]
    of non-empty strings on a stream that is neither ended nor destroyed,
    one pull and one resumption per item deliver the
    opening of the nested part and, for item number [i], a sub-frame with
    the generated filename [name-i], [text/plain], the text and a line
    break. Afterwards the scheduler is idle with the next entry still in
    the iterator, and the closing delimiter of the nested part is in the
    accumulator, not yet delivered. *)
Theorem text_array_field_framing :
  forall (s : FormDataStream) (name : string) (v : string) (vs : list string)
         (it : list (string * JsVal)),
    nonempty_all (v :: vs) = true ->
    iterator s = (name, VArray (map text_item (v :: vs))) :: it ->
    kReading s = false -> kReadNext s = false -> ended s = false ->
    destroyed s = false ->
    kChunkBuffer s = EmptyString ->
    let sb := generateBoundary rand (nboundaries s) in
    let s' := run rand full basename
                (Pull :: repeat Tick (List.length (v :: vs))) s in
    body_bytes s'
    = body_bytes s
      ++ spec_list_open (boundary s) (encodeURIComponent name) sb
      ++ spec_sub_frames name sb 0 (v :: vs)
    /\ kChunkBuffer s' = spec_closing sb ++ lineBreak
    /\ kReading s' = false
    /\ iterator s' = it /\ ended s' = false.
Proof.
  intros s name v vs it Hne Hit Hr Hn He Hd Hb sb s'.
  destruct (text_array_cycle s name (v :: vs) it Hne Hit Hr Hn He Hd Hb)
    as (Hp & Hbuf & Hr' & _ & Hi & He' & _).
  fold sb in Hp, Hbuf. fold s' in Hp, Hbuf, Hr', Hi, He'.
  repeat split; try assumption.
  unfold body_bytes. rewrite Hp, map_app, concat_empty_app, sub_chunks_bytes.
  reflexivity.
Qed.

Lemma readNext_text_buffered (n v : string) (c : ascii)
    (it : list (string * JsVal)) (s : FormDataStream) :
  iterator s = (n, VStr (String c v)) :: it ->
  ended s = false -> destroyed s = false ->
  let s' := readNext rand full basename s in
  pushed s'
  = (pushed s ++
     [VStr (kChunkBuffer s ++ spec_text_header (boundary s) (encodeURIComponent n));
      VStr (String c v); VStr lineBreak])%list
  /\ iterator s' = it /\ kReading s' = true /\ task s' = Ret AfterField
  /\ kChunkBuffer s' = EmptyString /\ ended s' = false
  /\ kReadNext s' = kReadNext s /\ boundary s' = boundary s
  /\ destroyed s' = false.
Proof.
  intros Hit He Hd s'. subst s'.
  unfold readNext. rewrite Hit. cbn [readNext_from].
  destruct s as [its bd rd rn w cb ps en de nb srcs pl tk]; cbn in He, Hd.
  subst en de. exec.
  unfold frame_entry.
  cbn [is_nullish instanceof_Readable prop truthy orb].
  cbv zeta. exec.
  unfold streamFileField. cbn [truthy nonempty negb has_length js_or ToString].
  cbv zeta. exec.
  unfold spec_text_header, defaultContentType.
  rewrite <- ?app_assoc, !append_assoc. cbn [app append].
  repeat split.
Qed.

(** X14. When a text field follows an array field, nothing of the nested
    part is lost: the accumulator text left by the array (the closing
    delimiter of the nested part, or the whole empty nested part) is
    delivered in front of the header of the next field, and the stream
    pulled to its end carries the opening of the nested part, the
    sub-frames of the items, the nested closing delimiter and a line
    break, the frame of the text field, and the closing delimiter. *)
Theorem array_then_text_body :
  forall (name : string) (vs : list string) (n2 : string) (c2 : ascii)
         (v2 : string) (srcs : nat -> Source),
    nonempty_all vs = true ->
    let B := generateBoundary rand 0 in
    let sb := generateBoundary rand 1 in
    let s := run rand full basename
               ((Pull :: repeat Tick (List.length vs)) ++ [Pull; Tick; Pull])
               (new_FormDataStream rand
                  [(name, VArray (map text_item vs)); (n2, VStr (String c2 v2))]
                  srcs) in
    ended s = true
    /\ body_bytes s
       = spec_list_open B (encodeURIComponent name) sb
         ++ spec_sub_frames name sb 0 vs
         ++ spec_closing sb ++ lineBreak
         ++ spec_text_frame B (n2, String c2 v2)
         ++ spec_closing B.
Proof.
  intros name vs n2 c2 v2 srcs Hne B sb s. subst s. rewrite run_app.
  set (s0 := new_FormDataStream rand
               [(name, VArray (map text_item vs)); (n2, VStr (String c2 v2))] srcs).
  destruct (text_array_cycle s0 name vs [(n2, VStr (String c2 v2))] Hne
              eq_refl eq_refl eq_refl eq_refl eq_refl eq_refl)
    as (Hp & Hbuf & Hr & Ht & Hi & He & Hn & Hd).
  change (generateBoundary rand (nboundaries s0)) with sb in Hp, Hbuf.
  change (boundary s0) with B in Hp, Hbuf.
  change (pushed s0) with (@nil JsVal) in Hp. cbn [app] in Hp.
  assert (HB1 : boundary (run rand full basename
                            (Pull :: repeat Tick (List.length vs)) s0) = B).
  { apply (run_invariant (fun t => boundary t = B)).
    - intros e t Hs. now rewrite boundary_step.
    - reflexivity. }
  set (s1 := run rand full basename (Pull :: repeat Tick (List.length vs)) s0) in *.
  clearbody s1. clear s0.
  cbn [run].
  assert (H2 : step rand full basename Pull s1 = readNext rand full basename s1).
  { cbn [step]. unfold _read. now rewrite Hr. }
  rewrite H2. clear H2.
  destruct (readNext_text_buffered n2 v2 c2 [] s1 Hi He Hd)
    as (Hp2 & Hi2 & Hr2 & Ht2 & Hb2 & He2 & Hn2 & HB2 & Hd2).
  set (s2 := readNext rand full basename s1) in *. clearbody s2.
  assert (H3 : step rand full basename Tick s2 = idle s2).
  { cbn [step]. unfold tick. rewrite Ht2. cbn [resume]. unfold after_field.
    now rewrite Hn2, Hn. }
  rewrite H3. clear H3.
  assert (H4 : step rand full basename Pull (idle s2)
               = finish full (set_kReading true (idle s2))).
  { cbn [step]. unfold _read. change (kReading (idle s2)) with false. cbv iota.
    unfold readNext. change (iterator (idle s2)) with (iterator s2).
    rewrite Hi2. reflexivity. }
  rewrite H4. clear H4.
  destruct (finish_live (idle s2) Hd2)
    as (_ & _ & _ & _ & _ & _ & Hend & _ & Hp4).
  split; [exact Hend|].
  change (ended (idle s2)) with (ended s2) in Hp4.
  change (pushed (idle s2)) with (pushed s2) in Hp4.
  change (boundary (idle s2)) with (boundary s2) in Hp4.
  rewrite He2, Hp2, Hp, HB2, HB1, Hbuf in Hp4.
  unfold body_bytes. rewrite Hp4.
  rewrite !map_app, !concat_empty_app, sub_chunks_bytes.
  cbn [map chunk_bytes]. rewrite !concat_empty_cons. cbn [String.concat].
  unfold spec_text_frame, spec_closing. cbn [fst snd].
  destruct vs;
    repeat first [ rewrite append_assoc | progress cbn [append spec_sub_frames] ];
    reflexivity.
Qed.

(** ** Sources the class cannot frame *)

Lemma named_source_readNext (s : FormDataStream) (name : string)
    (content : JsVal) (rest : list (string * JsVal)) :
  iterator s = (name, content) :: rest ->
  is_nullish content = false ->
  instanceof_Readable content || truthy (prop content "source") = true ->
  let s0 := pushChunk ("Content-Disposition: form-data; name="
                       ++ dquote ++ encodeURIComponent name ++ dquote)
              (pushChunk lineBreak
                 (pushChunk ("--" ++ boundary s)
                    (set_iterator rest (set_kReading true s)))) in
  readNext rand full basename s
  = match filename_of basename content name with
    | Throw e => reject e s0
    | Ok filename =>
        streamFileField full (js_or (prop content "source") content)
          (prop content "contentType") AfterField
          (pushChunk lineBreak (pushChunk (disposition "; filename=" filename) s0))
    end.
Proof.
  intros Hit Hnn Hnamed s0. subst s0.
  unfold readNext. rewrite Hit. cbn [readNext_from]. unfold frame_entry.
  rewrite Hnn, Hnamed.
  destruct (filename_of basename content name) as [fn|e]; reflexivity.
Qed.

(** X15. Where the free identifier [basename] is bound to nothing, as
    in Node, every path through lines 62 and 88 that evaluates it ends
    the production by the error of that evaluation: a stream passed
    directly as the value of a field, a value that carries a source but
    no filename, and a stream among the items of an array. Nothing of
    such a field is pushed and nothing is read from the stream; and
    whatever happens afterwards nothing more is pushed, no further entry
    is taken and end-of-stream is never signalled. *)
Theorem unbound_basename_ends_production :
  forall (err : JsError),
    (forall p : JsVal, basename p = Throw err) ->
    (forall (s : FormDataStream) (name : string) (content : JsVal)
            (rest : list (string * JsVal)) (evs : list Event),
        iterator s = (name, content) :: rest ->
        instanceof_Readable content = true
        \/ (truthy (prop content "source") = true
            /\ truthy (prop content "filename") = false) ->
        let s1 := readNext rand full basename s in
        let s2 := run rand full basename evs s1 in
        task s1 = Rejected err
        /\ pushed s1 = pushed s /\ pulled s1 = pulled s
        /\ destroyed s1 = destroyed s
        /\ task s2 = Rejected err
        /\ pushed s2 = pushed s /\ pulled s2 = pulled s
        /\ iterator s2 = rest /\ ended s2 = ended s)
    /\ (forall (s : FormDataStream) (name subBoundary : string) (index id : nat)
               (path : option string) (items : list JsVal),
          let r := list_loop full basename name subBoundary index
                     (VReadable id path :: items) s in
          task (fst r) = Rejected err /\ snd r = false
          /\ pushed (fst r) = pushed s /\ pulled (fst r) = pulled s).
Proof.
  intros err Hb. split.
  - intros s name content rest evs Hit Hc s1 s2.
    assert (Hshape : is_nullish content = false
                     /\ instanceof_Readable content
                        || truthy (prop content "source") = true
                     /\ truthy (prop content "filename") = false).
    { destruct Hc as [Hr | [Hs Hf]].
      - destruct content as [| | | | |id [p|]| |props]; try discriminate Hr;
          repeat split.
      - destruct (source_object content Hs) as [Hnn Hnr].
        rewrite Hnn, Hs, orb_true_r. repeat split. exact Hf. }
    destruct Hshape as (Hnn & Hnamed & Hfn).
    assert (Hs1 : task s1 = Rejected err /\ kReading s1 = true
                  /\ pushed s1 = pushed s /\ pulled s1 = pulled s
                  /\ destroyed s1 = destroyed s /\ iterator s1 = rest
                  /\ ended s1 = ended s).
    { subst s1. rewrite (named_source_readNext s name content rest Hit Hnn Hnamed).
      unfold filename_of. rewrite Hfn, Hb. repeat split. }
    destruct Hs1 as (Ht1 & Hr1 & Hp1 & Hl1 & Hd1 & Hi1 & He1).
    destruct (rejected_run err evs s1 Ht1 Hr1) as (Ht2 & _ & Ho2).
    destruct Ho2 as (Hi2 & Hp2 & _ & Hl2 & He2).
    fold s2 in Ht2, Hi2, Hp2, Hl2, He2.
    repeat split; congruence.
  - intros s name sb idx id path items r. subst r.
    cbn [list_loop instanceof_Readable]. rewrite Hb. repeat split.
Qed.

Lemma _destroy_fields (err : JsError) (s : FormDataStream) :
  destroyed (_destroy err s) = true
  /\ pushed (_destroy err s) = pushed s
  /\ ended (_destroy err s) = ended s.
Proof.
  unfold _destroy, reject.
  destruct s as [its bd rd rn w cb ps en de nb srcs pl tk]; cbn.
  destruct w; cbn; auto. destruct tk; cbn; auto.
Qed.

Lemma flushChunks_live (s : FormDataStream) :
  ended s = false -> destroyed s = false ->
  pushed (flushChunks full s) = (pushed s ++ [VStr (kChunkBuffer s)])%list
  /\ ended (flushChunks full s) = false
  /\ destroyed (flushChunks full s) = false.
Proof.
  intros He Hd. unfold flushChunks.
  rewrite (push_live (VStr (kChunkBuffer s)) s eq_refl He Hd).
  cbn. auto.
Qed.

(** X16. A source that passes the length test of [streamFileField] but
    is neither a string nor a Buffer (an array, or an object that has a
    length) is not rejected by the class: with a filename given, on a
    stream that is neither ended nor destroyed, the header of the field
    is delivered as for text, and the push of the source itself is what
    fails. The base class refuses the chunk and destroys the stream, so
    whatever happens afterwards nothing more is delivered and the stream
    never ends. *)
Theorem unpushable_source_destroys_stream :
  forall (s : FormDataStream) (name : string) (content : JsVal)
         (rest : list (string * JsVal)) (evs : list Event),
    iterator s = (name, content) :: rest ->
    ended s = false -> destroyed s = false ->
    truthy (prop content "source") = true ->
    truthy (prop content "filename") = true ->
    has_length (prop content "source") = true ->
    is_chunk (prop content "source") = false ->
    let type := ToString (js_or (prop content "contentType")
                                (VStr defaultContentType)) in
    let s1 := readNext rand full basename s in
    let s2 := run rand full basename evs s1 in
    destroyed s1 = true
    /\ pushed s1 = (pushed s ++
         [VStr (kChunkBuffer s
                ++ spec_file_header (boundary s) (encodeURIComponent name)
                     (encodeURIComponent (ToString (prop content "filename")))
                     type)])%list
    /\ pushed s2 = pushed s1
    /\ ended s2 = false.
Proof.
  intros s name content rest evs Hit He Hd Hsrc Hfn Hlen Hchunk type s1 s2.
  destruct (source_object content Hsrc) as [Hnn Hnr].
  assert (Hnamed : instanceof_Readable content
                   || truthy (prop content "source") = true)
    by (now rewrite Hsrc, orb_true_r).
  assert (Hs1 : destroyed s1 = true
                /\ pushed s1 = (pushed s ++
                     [VStr (kChunkBuffer s
                            ++ spec_file_header (boundary s) (encodeURIComponent name)
                                 (encodeURIComponent (ToString (prop content "filename")))
                                 type)])%list
                /\ ended s1 = false).
  { subst s1. rewrite (named_source_readNext s name content rest Hit Hnn Hnamed).
    unfold filename_of. rewrite Hfn, (js_or_truthy _ content Hsrc).
    unfold streamFileField. rewrite Hsrc, Hlen. cbn [negb]. fold type.
    match goal with
    | |- context [flushChunks full ?t] =>
        destruct (flushChunks_live t) as (Hp0 & He0 & Hd0);
        [exact He | exact Hd |]; set (y := flushChunks full t) in *
    end.
    clearbody y.
    assert (Hx : fst (push full (prop content "source") y)
                 = _destroy (ERR_INVALID_ARG_TYPE (prop content "source")) y).
    { unfold push, errorOrDestroy. now rewrite Hchunk, Hd0. }
    rewrite Hx.
    destruct (_destroy_fields (ERR_INVALID_ARG_TYPE (prop content "source")) y)
      as (Hd1 & Hp1 & He1).
    set (x := _destroy (ERR_INVALID_ARG_TYPE (prop content "source")) y) in *.
    clearbody x.
    assert (Hf : frozen x (set_task (Ret AfterField)
                             (fst (push full (VStr lineBreak) x)))).
    { eapply frozen_trans; [apply push_frozen | apply set_task_frozen]. }
    destruct (Hf Hd1) as (Hd2 & Hp2 & He2).
    split; [exact Hd2|]. split; [|congruence].
    rewrite Hp2, Hp1, Hp0. clear.
    destruct s as [its bd rd rn w cb ps en de nb srcs pl tk].
    unfold spec_file_header, disposition. str_norm. reflexivity. }
  destruct Hs1 as (Hd1 & Hp1 & He1).
  destruct (frozen_run evs s1 Hd1) as (_ & Hp2 & He2). fold s2 in Hp2, He2.
  repeat split; congruence.
Qed.
End Multipart.


(** ** What percent-encoding guarantees *)

Lemma all_chars_app (p : ascii -> bool) (a b : string) :
  all_chars p (a ++ b) = all_chars p a && all_chars p b.
Proof.
  induction a as [|c a IH]; cbn; [reflexivity|]. now rewrite IH, andb_assoc.
Qed.

Lemma all_chars_impl (p q : ascii -> bool) (s : string) :
  (forall c, p c = true -> q c = true) ->
  all_chars p s = true -> all_chars q s = true.
Proof.
  intros Hpq. induction s as [|c s IH]; cbn; [reflexivity|].
  intros H. apply andb_true_iff in H as [Hc Hs].
  now rewrite (Hpq c Hc), (IH Hs).
Qed.

Lemma encode_char_uri (c : ascii) :
  all_chars uri_char (if unreserved c then String c EmptyString else percent c)
  = true.
Proof.
  destruct c as [[] [] [] [] [] [] [] []]; reflexivity.
Qed.

Lemma encodeURIComponent_uri (s : string) :
  all_chars uri_char (encodeURIComponent s) = true.
Proof.
  induction s as [|c s IH]; [reflexivity|].
  cbn [encodeURIComponent]. now rewrite all_chars_app, encode_char_uri, IH.
Qed.

Lemma decode_encode_char (c : ascii) (r : string) :
  percent_decode ((if unreserved c then String c EmptyString else percent c) ++ r)
  = String c (percent_decode r).
Proof.
  destruct c as [[] [] [] [] [] [] [] []]; reflexivity.
Qed.

Lemma decode_encode (s : string) :
  percent_decode (encodeURIComponent s) = s.
Proof.
  induction s as [|c s IH]; [reflexivity|].
  cbn [encodeURIComponent]. now rewrite decode_encode_char, IH.
Qed.

Lemma split_at_piece (sep : ascii) (a b : string) :
  all_chars (fun c => negb (Ascii.eqb c sep)) a = true ->
  split_at sep (a ++ String sep b) = a :: split_at sep b.
Proof.
  induction a as [|c a IH]; cbn; intros H.
  - now rewrite Ascii.eqb_refl.
  - apply andb_true_iff in H as [Hc Ha]. apply negb_true_iff in Hc.
    now rewrite Hc, (IH Ha).
Qed.

Lemma split_at_last (sep : ascii) (a : string) :
  all_chars (fun c => negb (Ascii.eqb c sep)) a = true ->
  split_at sep a = [a].
Proof.
  induction a as [|c a IH]; cbn; intros H; [reflexivity|].
  apply andb_true_iff in H as [Hc Ha]. apply negb_true_iff in Hc.
  now rewrite Hc, (IH Ha).
Qed.

Lemma split_first_piece (sep : ascii) (a b : string) :
  all_chars (fun c => negb (Ascii.eqb c sep)) a = true ->
  split_first sep (a ++ String sep b) = (a, Some b).
Proof.
  induction a as [|c a IH]; cbn; intros H.
  - now rewrite Ascii.eqb_refl.
  - apply andb_true_iff in H as [Hc Ha]. apply negb_true_iff in Hc.
    now rewrite Hc, (IH Ha).
Qed.

Lemma uri_char_not (sep : ascii) :
  uri_char sep = false ->
  forall c, uri_char c = true -> negb (Ascii.eqb c sep) = true.
Proof.
  intros Hsep c Hc. apply negb_true_iff. destruct (Ascii.eqb_spec c sep); [|reflexivity].
  congruence.
Qed.

Lemma pair_no_amp (k v : string) :
  all_chars (fun c => negb (Ascii.eqb c "&"))
            (encodeURIComponent k ++ "=" ++ encodeURIComponent v) = true.
Proof.
  rewrite all_chars_app. cbn [append all_chars].
  rewrite !(all_chars_impl uri_char _ _ (uri_char_not "&" eq_refl)
              (encodeURIComponent_uri _)).
  reflexivity.
Qed.

Lemma parse_pair_encoded (k v : string) :
  parse_pair (encodeURIComponent k ++ "=" ++ encodeURIComponent v) = (k, v).
Proof.
  unfold parse_pair. cbn [append].
  rewrite split_first_piece.
  - now rewrite !decode_encode.
  - exact (all_chars_impl uri_char _ _ (uri_char_not "=" eq_refl)
             (encodeURIComponent_uri k)).
Qed.

Lemma split_pairs (p : string * string) (rest : list (string * string)) :
  map parse_pair
    (split_at "&"
       (String.concat "&"
          (map (fun kv => encodeURIComponent (fst kv) ++ "="
                          ++ encodeURIComponent (snd kv)) (p :: rest))))
  = p :: rest.
Proof.
  revert p. induction rest as [|q rest IH]; intros [k v].
  - cbn [map String.concat fst snd].
    rewrite (split_at_last _ _ (pair_no_amp k v)). cbn [map].
    now rewrite parse_pair_encoded.
  - cbn [map String.concat fst snd] in *.
    change ("&" ++ ?x) with (String "&" x).
    rewrite (split_at_piece _ _ _ (pair_no_amp k v)). cbn [map].
    rewrite parse_pair_encoded. f_equal. apply (IH q).
Qed.

(** X9. The query string can be read back: for every mapping of text
    values, splitting the body at [&], each piece at its first [=], and
    percent-decoding key and value gives the pairs of the mapping, in
    iteration order, whatever characters the keys and values contain. *)
Theorem urlencoded_body_parses_back :
  forall (rand : nat -> string) (type_prop : JsVal)
         (pairs : list (string * string)) (srcs : nat -> Source),
    exists b,
      body (serializeFormData rand (mkFormData type_prop (text_entries pairs))
                              urlencoded_type srcs)
      = BodyString b
      /\ parse_query b = pairs.
Proof.
  intros rand type_prop pairs srcs.
  eexists. split; [reflexivity|].
  cbn [entries]. rewrite js_join_concat, urlencoded_loop_app. cbn [app].
  unfold text_entries. rewrite map_map. cbn [fst snd ToString].
  destruct pairs as [|[k v] rest]; [reflexivity|].
  unfold parse_query.
  rewrite <- (split_pairs (k, v) rest) at 2.
  cbn [map String.concat fst snd].
  destruct rest; destruct (encodeURIComponent k); reflexivity.
Qed.

(** X10. A filename cannot break out of its header: the quoted value
    that [Content-Disposition] gets from a filename consists of unreserved
    characters and percent signs only, so it contains no double quote and
    no line break, whatever the filename is. *)
Theorem disposition_value_is_safe :
  forall (kind : string) (filename : JsVal),
    exists value,
      disposition kind filename = kind ++ dquote ++ value ++ dquote
      /\ all_chars uri_char value = true
      /\ all_chars (fun c => negb (breaks_header c)) value = true.
Proof.
  intros kind filename. exists (encodeURIComponent (ToString filename)).
  split; [reflexivity|]. split; [apply encodeURIComponent_uri|].
  apply (all_chars_impl uri_char); [|apply encodeURIComponent_uri].
  intros c. destruct c as [[] [] [] [] [] [] [] []]; vm_compute; intros H;
    first [reflexivity | discriminate H].
Qed.
(** On the sample boundary and a downstream that is never full, with
    the second pull arriving before the coroutine is resumed: the deferred
    pull ends the stream at the first resumption, with the frame and the
    closing delimiter. *)
Lemma multipart_single_buffer_field_witness :
  let s := run Sample.rand Sample.never_full Sample.basename
             [Pull; Pull; Tick; Tick]
             (new_FormDataStream Sample.rand [("file", Sample.abc_file)]
                                 Sample.fresh) in
  ended s = true
  /\ body_bytes s
     = spec_file_frame Sample.top "file" "f.txt" "text/plain" "abc"
       ++ spec_closing Sample.top.
Proof.
  destruct (multipart_single_buffer_field Sample.rand Sample.never_full
              Sample.basename VUndefined Sample.fresh)
    as (_ & s0 & Hbody & _ & Hends & Hbytes).
  injection Hbody as <-.
  pose proof (Hends [] [Pull; Tick; Tick] eq_refl eq_refl eq_refl eq_refl) as Hend.
  split; [exact Hend|].
  apply (Hbytes [Pull; Pull; Tick; Tick]). exact Hend.
Defined.

(** A stream passed under [source] without a content type, on the
    sample boundary. *)
Lemma named_source_default_content_type_witness :
  pushed (fst (frame_entry Sample.rand Sample.never_full Sample.basename "file"
                 (VObject [("source", VReadable 0 None); ("filename", VStr "f.txt")])
                 (new_FormDataStream Sample.rand [] Sample.fresh)))
  = [VStr (spec_file_header Sample.top "file" "f.txt" "application/octet-stream")].
Proof.
  apply (proj1 (named_source_default_content_type
                  Sample.rand Sample.never_full Sample.basename
                  (new_FormDataStream Sample.rand [] Sample.fresh) "file"
                  (VObject [("source", VReadable 0 None); ("filename", VStr "f.txt")])
                  eq_refl eq_refl eq_refl eq_refl eq_refl));
    reflexivity.
Defined.

(** C4 as stated fails: a buffer passed under [source] without a content
    type is framed with [Content-Type: text/plain], not
    [application/octet-stream]. *)
Lemma named_source_octet_stream_counterexample :
  let s := run Sample.rand Sample.never_full Sample.basename [Pull]
             (new_FormDataStream Sample.rand
                [("file", VObject [("source", VBuffer "abc"); ("filename", VStr "f.txt")])]
                Sample.fresh) in
  pushed s = [VStr (spec_file_header Sample.top "file" "f.txt" "text/plain");
              VBuffer "abc"; VStr lineBreak]
  /\ pushed s <> [VStr (spec_file_header Sample.top "file" "f.txt"
                          "application/octet-stream");
                  VBuffer "abc"; VStr lineBreak].
Proof.
  split; [reflexivity | discriminate].
Qed.

(** ** Instances on the sample two-field stream *)

Lemma waiting_reachable :
  reachable Sample.rand Sample.always_full Sample.basename Sample2.waiting.
Proof.
  exists Sample2.two_fields, Sample.fresh, [Pull; SrcReadable 0 ["x"; "y"]; Tick].
  reflexivity.
Qed.

(** The first chunk was pushed into a full buffer; the upstream source
    still holds a second chunk and receives a third, the stream is
    destroyed, and no chunk beyond the first is read. *)
Lemma backpressure_stops_upstream_reads_witness :
  pulled (run Sample.rand Sample.always_full Sample.basename
            [Tick; SrcReadable 0 ["z"]; Tick; Destroy VNull; Tick]
            (step Sample.rand Sample.always_full Sample.basename Tick
                  Sample2.before_read))
  = 1.
Proof.
  apply (backpressure_stops_upstream_reads
           Sample.rand Sample.always_full Sample.basename
           Sample2.before_read 0 AfterField "x" ["y"]
           [Tick; SrcReadable 0 ["z"]; Tick; Destroy VNull; Tick]);
    try reflexivity.
  right. split; reflexivity.
Defined.

(** Destroying the waiting stream rejects the wait; later pulls and
    resumptions take no entry and push nothing. *)
Lemma destroy_rejects_backpressure_wait_witness :
  task (run Sample.rand Sample.always_full Sample.basename [Pull; Tick; Pull; Tick]
          (step Sample.rand Sample.always_full Sample.basename (Destroy VNull)
                Sample2.waiting))
  = Rejected (Thrown VNull).
Proof.
  apply (destroy_rejects_backpressure_wait
           Sample.rand Sample.always_full Sample.basename
           Sample2.waiting 0 AfterField VNull [Pull; Tick; Pull; Tick]
           waiting_reachable eq_refl).
Defined.

(** A pull during the completing cycle of a one-field stream records the
    deferred request. *)
Lemma pull_in_flight_and_cycle_completion_witness :
  kReadNext (step Sample.rand Sample.never_full Sample.basename Pull
               Sample2.completing_cycle)
  = true.
Proof.
  destruct (proj1 (pull_in_flight_and_cycle_completion
                     Sample.rand Sample.never_full Sample.basename
                     Sample2.completing_cycle) eq_refl)
    as (_ & _ & H & _).
  apply H. reflexivity.
Defined.

(** C6 as stated fails: a pull that arrives while the coroutine is
    suspended on a backpressure wait resumes it and records no deferred
    request (here for both chunks of the source), and when that cycle
    completes the scheduler becomes idle with an entry still in the
    iterator. *)
Lemma pull_during_backpressure_wait_counterexample :
  let R := run Sample.rand Sample.always_full Sample.basename in
  let s := Sample2.waiting in
  let s' := step Sample.rand Sample.always_full Sample.basename Pull s in
  let s_end := R [Tick; Pull; Tick; SrcEnd 0; Tick; Tick; Tick] s' in
  kReading s = true
  /\ kReadNext s' = false
  /\ task s' = Reading 0 AfterField
  /\ kReading s_end = false /\ task s_end = Settled
  /\ iterator s_end = [("g", VStr "1")]
  /\ ~ (forall t : FormDataStream,
          reachable Sample.rand Sample.always_full Sample.basename t ->
          kReading t = true ->
          kReadNext (step Sample.rand Sample.always_full Sample.basename Pull t)
          = true).
Proof.
  repeat split.
  intros H. specialize (H Sample2.waiting waiting_reachable eq_refl).
  discriminate H.
Qed.

(** A field whose value is a plain object without a source, neither
    text, buffer nor stream: the cycle is rejected, the following field
    is never framed, and the stream is neither destroyed nor ended. *)
Lemma invalid_source_stream_not_errored_witness :
  let s := run Sample.rand Sample.never_full Sample.basename [Pull; Tick; Pull]
             (readNext Sample.rand Sample.never_full Sample.basename
                (new_FormDataStream Sample.rand
                   [("obj", VObject [("oh", VStr "gosh")]); ("g", VStr "1")]
                   Sample.fresh)) in
  task s = Rejected (Error "Received non-Readable stream [object Object]")
  /\ pushed s = [] /\ iterator s = [("g", VStr "1")]
  /\ ended s = false /\ destroyed s = false.
Proof.
  destruct (invalid_source_stream_not_errored
              Sample.rand Sample.never_full Sample.basename
              (new_FormDataStream Sample.rand
                 [("obj", VObject [("oh", VStr "gosh")]); ("g", VStr "1")]
                 Sample.fresh)
              "obj" (VObject [("oh", VStr "gosh")]) [("g", VStr "1")]
              [Pull; Tick; Pull] eq_refl eq_refl)
    as (e & _ & _ & _ & H & Hp & Hi & He & Hd & _ & _ & Herr).
  destruct (Herr eq_refl) as [-> | [Hf _]]; [|discriminate Hf].
  split; [exact H|]. split; [exact Hp|]. split; [exact Hi|].
  split; [exact He|]. exact (Hd eq_refl).
Defined.

(** An empty buffer under [source]. *)
Lemma empty_payload_rejected_witness :
  exists e,
    task (fst (frame_entry Sample.rand Sample.never_full Sample.basename "file"
                 (VObject [("source", VBuffer EmptyString); ("filename", VStr "f.txt")])
                 (new_FormDataStream Sample.rand [] Sample.fresh)))
    = Rejected e.
Proof.
  destruct (proj1 (proj2 (empty_payload_rejected
                            Sample.rand Sample.never_full Sample.basename))
              (new_FormDataStream Sample.rand [] Sample.fresh) "file"
              (VObject [("source", VBuffer EmptyString); ("filename", VStr "f.txt")])
              (or_intror (or_intror (or_introl eq_refl))))
    as (e & H & _).
  exists e. exact H.
Defined.

(** ** Instances of the further properties *)

Lemma text_fields_multipart_body_witness :
  body_bytes (run Sample.rand Sample.never_full Sample.basename (pull_each 2)
                (new_FormDataStream Sample.rand (text_entries Sample3.pairs)
                   Sample.fresh))
  = spec_text_body Sample.top Sample3.pairs.
Proof.
  apply (proj2 (text_fields_multipart_body
                  Sample.rand Sample.never_full Sample.basename
                  Sample3.pairs Sample.fresh (pull_each 2) eq_refl)).
  reflexivity.
Defined.

Lemma deferred_pull_runs_to_the_end_witness :
  ended (run Sample.rand Sample.never_full Sample.basename
           [Pull; Pull; Tick; Tick]
           (new_FormDataStream Sample.rand (text_entries Sample3.pairs)
              Sample.fresh))
  = true.
Proof.
  apply (proj1 (deferred_pull_runs_to_the_end
                  Sample.rand Sample.never_full Sample.basename
                  Sample3.pairs Sample.fresh eq_refl)).
Defined.

Lemma nothing_before_first_pull_witness :
  pushed (run Sample.rand Sample.never_full Sample.basename
            [Tick; SrcEnd 0; Destroy VNull; Tick]
            (new_FormDataStream Sample.rand Sample2.two_fields Sample.fresh))
  = [].
Proof.
  apply (nothing_before_first_pull
           Sample.rand Sample.never_full Sample.basename
           Sample2.two_fields Sample.fresh
           [Tick; SrcEnd 0; Destroy VNull; Tick] eq_refl).
Defined.

Lemma awaiting_source_reachable :
  reachable Sample.rand Sample.always_full Sample.basename Sample3.awaiting_source.
Proof.
  exists Sample2.two_fields, Sample.fresh, [Pull]. reflexivity.
Qed.

Lemma upstream_error_aborts_production_witness :
  errored (run Sample.rand Sample.always_full Sample.basename [Pull; Tick; Pull]
             (step Sample.rand Sample.always_full Sample.basename
                   (SrcError 0 (VStr "EIO")) Sample3.awaiting_source))
  = Some (Thrown (VStr "EIO")).
Proof.
  apply (upstream_error_aborts_production
           Sample.rand Sample.always_full Sample.basename
           Sample3.awaiting_source 0 AfterField (VStr "EIO") [Pull; Tick; Pull]
           awaiting_source_reachable eq_refl).
Defined.

Lemma drain_forwards_every_chunk_witness :
  pushed (run Sample.rand Sample.always_full Sample.basename [Tick; Pull]
            Sample3.resumed)
  = (pushed Sample3.resumed ++ [VBuffer "y"])%list.
Proof.
  apply (drain_forwards_every_chunk
           Sample.rand Sample.always_full Sample.basename
           ["y"] Sample3.resumed 0 AfterField
           eq_refl eq_refl eq_refl eq_refl eq_refl eq_refl).
Defined.

Lemma unreadable_stream_gives_empty_payload_witness :
  task (step Sample.rand Sample.never_full Sample.basename Tick
          (fst (frame_entry Sample.rand Sample.never_full Sample.basename "f"
                  (VObject [("source", VReadable 0 None); ("filename", VStr "f")])
                  (new_FormDataStream Sample.rand [] Sample3.ended_sources))))
  = Ret AfterField.
Proof.
  apply (unreadable_stream_gives_empty_payload
           Sample.rand Sample.never_full Sample.basename
           (new_FormDataStream Sample.rand [] Sample3.ended_sources)
           "f" (VObject [("source", VReadable 0 None); ("filename", VStr "f")])
           0 None eq_refl eq_refl eq_refl eq_refl eq_refl).
Defined.

Lemma accumulator_empty_during_payload_witness :
  kChunkBuffer Sample2.waiting = EmptyString.
Proof.
  apply (accumulator_empty_during_payload
           Sample.rand Sample.always_full Sample.basename
           Sample2.waiting waiting_reachable eq_refl).
Defined.

Lemma pending_waiter_iff_suspended_witness :
  kOnceResume Sample2.waiting = Pending.
Proof.
  apply (proj2 (pending_waiter_iff_suspended
                  Sample.rand Sample.always_full Sample.basename
                  Sample2.waiting waiting_reachable)).
  exists 0, AfterField. reflexivity.
Defined.

Lemma text_array_field_framing_witness :
  kChunkBuffer (run Sample.rand Sample.never_full Sample.basename
                  [Pull; Tick; Tick] Sample3.docs)
  = spec_closing Sample.nested ++ lineBreak.
Proof.
  apply (text_array_field_framing
           Sample.rand Sample.never_full Sample.basename
           Sample3.docs "docs" "a" ["b"] []
           eq_refl eq_refl eq_refl eq_refl eq_refl eq_refl eq_refl).
Defined.

Lemma array_then_text_body_witness :
  ended (run Sample.rand Sample.never_full Sample.basename
           [Pull; Tick; Tick; Pull; Tick; Pull]
           (new_FormDataStream Sample.rand
              [("docs", VArray (map text_item ["a"; "b"])); ("t", VStr "x")]
              Sample.fresh))
  = true.
Proof.
  apply (proj1 (array_then_text_body
                  Sample.rand Sample.never_full Sample.basename
                  "docs" ["a"; "b"] "t" "x"%char EmptyString Sample.fresh eq_refl)).
Defined.

(** A file stream passed directly, in Node: the ReferenceError ends the
    production, and later pulls and resumptions change nothing. *)
Lemma unbound_basename_ends_production_witness :
  task (run Sample.rand Sample.never_full Sample.basename [Tick; Pull; Tick]
          (readNext Sample.rand Sample.never_full Sample.basename
             (new_FormDataStream Sample.rand
                [("f", VReadable 0 (Some "a.txt")); ("g", VStr "1")]
                Sample.fresh)))
  = Rejected (ReferenceError "basename is not defined").
Proof.
  apply (proj1 (unbound_basename_ends_production
                  Sample.rand Sample.never_full Sample.basename
                  (ReferenceError "basename is not defined")
                  (fun p => eq_refl))
               (new_FormDataStream Sample.rand
                  [("f", VReadable 0 (Some "a.txt")); ("g", VStr "1")]
                  Sample.fresh)
               "f" (VReadable 0 (Some "a.txt")) [("g", VStr "1")]
               [Tick; Pull; Tick] eq_refl (or_introl eq_refl)).
Defined.

(** An array passed under [source]. *)
Lemma unpushable_source_destroys_stream_witness :
  destroyed (readNext Sample.rand Sample.never_full Sample.basename
               (new_FormDataStream Sample.rand
                  [("f", VObject [("source", VArray [VStr "a"]);
                                  ("filename", VStr "f")])]
                  Sample.fresh))
  = true.
Proof.
  apply (unpushable_source_destroys_stream
           Sample.rand Sample.never_full Sample.basename
           (new_FormDataStream Sample.rand
              [("f", VObject [("source", VArray [VStr "a"]);
                              ("filename", VStr "f")])]
              Sample.fresh)
           "f" (VObject [("source", VArray [VStr "a"]); ("filename", VStr "f")])
           [] [] eq_refl eq_refl eq_refl eq_refl eq_refl eq_refl eq_refl).
Defined.
